(** * AFIRGen model loader: [model_loader.py] in Rocq

    A shallow embedding of [ModelLoader] (registration, file validation,
    checksum validation, the retry loop of [_load_single_model],
    [load_all_models] with its gate [_validate_required_models],
    [get_model], [is_model_loaded], [get_model_info] and
    [get_health_status]) together with the properties of the loading and
    health specification.

    Modelling choices, fixed once here:
    - a Python [dict] is an insertion-ordered association list with string
      keys ([PyDict]); iteration order is registration order;
    - Python [int] is [Z]; the [float] seconds of [time.time] and
      [time.sleep] are rationals [Q]: a delay [0.5 * 2 ** attempt] is a
      power of two and a float, exactly, for [attempt < 1024], and from
      there on the product raises [OverflowError];
    - the operating system, [hashlib], the clock and the loader capability
      are opaque: they are fields of a [Runtime] record or of the config and
      act on an abstract [World];
    - the loader comes in two layers.  The first follows the runs in which
      every call of the platform answers; its functions return what the
      source returns on such a run.  The second, the module [Exc], is the
      loader with the exceptions that escape from the source: those of the
      file probes, of [hexdigest], of [mkdir], of [time.sleep] (a [Faults]
      record says when a call raises) and of the back-off arithmetic.  On
      a platform that always answers, and with retry counts up to 1025,
      the two layers agree ([exc_load_all_models_calm]);
    - in the pool of [load_all_models] each submitted task is one step, and
      the order of completion is a parameter;
    - logging has no effect on the loader and is left out; instead the
      machine keeps a ghost [trace] of the observable calls (checksum
      computations, loader invocations, sleeps, pools created), so that
      "invoked exactly R times" and "never invoked" are statements about
      the trace. *)

From Stdlib Require Import List String Ascii Bool ZArith QArith Lia Permutation.
From Stdlib Require Import DecimalString.
Import ListNotations.

Open Scope Z_scope.
Open Scope list_scope.
Open Scope string_scope.

Set Implicit Arguments.

(** ** Python strings *)

Module PyStr.

(** [str(n)] for an [int]. *)
Definition of_Z (n : Z) : string := NilZero.string_of_int (Z.to_int n).

(** [sep.join(parts)]. *)
Definition join (sep : string) (parts : list string) : string :=
  String.concat sep parts.

Definition lower_ascii (c : ascii) : ascii :=
  let n := nat_of_ascii c in
  if (Nat.leb 65 n && Nat.leb n 90)%bool then ascii_of_nat (n + 32) else c.

(** [s.lower()] on ASCII text (hex digests are ASCII). *)
Fixpoint lower (s : string) : string :=
  match s with
  | EmptyString => EmptyString
  | String c rest => String (lower_ascii c) (lower rest)
  end.

(** Python truthiness of a [str]. *)
Definition truthy (s : string) : bool :=
  match s with EmptyString => false | _ => true end.

(** [needle in text]. *)
Definition mentions (text needle : string) : Prop :=
  exists pre post, text = pre ++ needle ++ post.

End PyStr.

(** ** Python dictionaries with string keys, in insertion order *)

Module PyDict.

Definition dict (V : Type) : Type := list (string * V).

Definition empty {V : Type} : dict V := [].

(** [d.get(k)], with [None] when the key is absent. *)
Fixpoint get {V : Type} (d : dict V) (k : string) : option V :=
  match d with
  | [] => None
  | (k', v) :: rest => if String.eqb k k' then Some v else get rest k
  end.

(** [d.get(k, default)]. *)
Definition get_default {V : Type} (d : dict V) (k : string) (default : V) : V :=
  match get d k with Some v => v | None => default end.

(** [k in d]. *)
Definition mem {V : Type} (d : dict V) (k : string) : bool :=
  match get d k with Some _ => true | None => false end.

(** [d[k] = v]: an existing key keeps its position, a new key goes last. *)
Fixpoint set {V : Type} (d : dict V) (k : string) (v : V) : dict V :=
  match d with
  | [] => [(k, v)]
  | (k', v') :: rest =>
      if String.eqb k k' then (k', v) :: rest else (k', v') :: set rest k v
  end.

(** [d.pop(k, None)], result discarded (keys are distinct: at most one
    entry goes). *)
Definition pop {V : Type} (d : dict V) (k : string) : dict V :=
  filter (fun kv => negb (String.eqb k (fst kv))) d.

Definition keys {V : Type} (d : dict V) : list string := map fst d.
Definition values {V : Type} (d : dict V) : list V := map snd d.
Definition items {V : Type} (d : dict V) : list (string * V) := d.

(** [len(d)]. *)
Definition len {V : Type} (d : dict V) : Z := Z.of_nat (List.length d).

End PyDict.

Import PyDict.

(** ** Python control: [range], exceptions *)

(** [range(n)]: [0, 1, ..., n-1], empty when [n <= 0]. *)
Definition range (n : Z) : list Z := map Z.of_nat (seq 0 (Z.to_nat n)).

(** The exception classes the module raises, and those of the platform
    and of the arithmetic that escape from it; the payload is [str(e)]. *)
Inductive exn : Type :=
| ValueError (msg : string)
| RuntimeError (msg : string)
| ModelValidationError (msg : string)
| OSError (msg : string)
| OverflowError (msg : string)
| KeyError (msg : string).

Definition str_exn (e : exn) : string :=
  match e with
  | ValueError msg | RuntimeError msg | ModelValidationError msg
  | OSError msg | OverflowError msg | KeyError msg => msg
  end.

(** A call either returns or raises. *)
Inductive result (A : Type) : Type :=
| Ok (value : A)
| Raise (e : exn).
Arguments Ok {A} value.
Arguments Raise {A} e.

(** ** Data model *)

Definition Path : Type := string.

(** [**loader_kwargs], opaque to this module. *)
Definition Kwargs : Type := list (string * string).

Inductive ModelStatus : Type := NOT_LOADED | LOADING | LOADED | FAILED.

(** [status.value]. *)
Definition status_value (s : ModelStatus) : string :=
  match s with
  | NOT_LOADED => "not_loaded"
  | LOADING => "loading"
  | LOADED => "loaded"
  | FAILED => "failed"
  end.

Definition ModelStatus_eqb (a b : ModelStatus) : bool :=
  match a, b with
  | NOT_LOADED, NOT_LOADED | LOADING, LOADING
  | LOADED, LOADED | FAILED, FAILED => true
  | _, _ => false
  end.

(** ** The loader, its runtime and its machine state *)

Section Loader.

(** [World]: everything outside the loader object (file system, clock,
    whatever state a loader capability keeps).  [Handle]: a loaded model,
    never inspected.  [HashObj]: a [hashlib] hash object. *)
Variables World Handle HashObj : Type.

(** What [config.loader_func(config.path, **loader_kwargs)] does: it
    returns an object, possibly [None], or raises an [Exception] whose
    [str(e)] is [text]. *)
Inductive loader_outcome : Type :=
| Returned (model : option Handle)
| Raised (text : string).

Record ModelConfig : Type := mkConfig {
  name : string;
  path : Path;
  loader_func : Path -> Kwargs -> World -> loader_outcome * World;
  required : bool;
  expected_checksum : option string;
  checksum_algorithm : string;
  retry_count : Z;
  loader_kwargs : option Kwargs
}.

Record ModelLoadResult : Type := mkResult {
  success : bool;
  model : option Handle;
  error_message : option string;
  load_time : Q;
  checksum : option string
}.

(** [ModelLoadResult(False)]: every other field at its default. *)
Definition ModelLoadResult_False : ModelLoadResult :=
  {| success := false; model := None; error_message := None;
     load_time := 0%Q; checksum := None |}.

(** The services of the platform the module calls. *)
Record Runtime : Type := mkRuntime {
  path_exists : World -> Path -> bool;          (* path.exists() *)
  path_is_file : World -> Path -> bool;         (* path.is_file() *)
  st_size : World -> Path -> Z;                 (* path.stat().st_size *)
  os_access_R_OK : World -> Path -> bool;       (* os.access(path, os.R_OK) *)
  open_rb : World -> Path -> string + list Byte.byte;
                                                (* the bytes of the file, or str(e) *)
  hashlib_new : string -> option HashObj;       (* None: ValueError *)
  hash_update : HashObj -> list Byte.byte -> HashObj;
  hexdigest : HashObj -> string;
  algorithms_available : list string;
  time_time : World -> Q;
  time_sleep : Q -> World -> World;
  mkdir : Path -> World -> World                (* mkdir(parents=True, exist_ok=True) *)
}.

Variable rt : Runtime.

(** The instance attributes set by [__init__] (the logger left out). *)
Record ModelLoader : Type := mkLoader {
  model_dir : Path;
  validate_checksums : bool;
  models : dict (option Handle);
  model_configs : dict ModelConfig;
  model_status : dict ModelStatus;
  model_errors : dict string;
  model_checksums : dict string
}.

(** [ModelLoader(model_dir, validate_checksums=...)]. *)
Definition init (dir : Path) (flag : bool) : ModelLoader :=
  {| model_dir := dir; validate_checksums := flag;
     models := empty; model_configs := empty; model_status := empty;
     model_errors := empty; model_checksums := empty |}.

(** Observable calls, in the order they happen. *)
Inductive event : Type :=
| EvChecksum (p : Path) (algorithm : string)
| EvLoaderCall (model_name : string) (attempt : Z) (out : loader_outcome)
| EvSleep (seconds : Q)
| EvMkdir (p : Path)
| EvExecutor (max_workers : Z).

Record Machine : Type := mkMachine {
  self : ModelLoader;
  world : World;
  trace : list event
}.

(** *** State monad over the machine *)

Definition M (A : Type) : Type := Machine -> A * Machine.

Definition ret {A : Type} (a : A) : M A := fun m => (a, m).

Definition bind {A B : Type} (c : M A) (k : A -> M B) : M B :=
  fun m => let (a, m') := c m in k a m'.

Definition gets {A : Type} (f : Machine -> A) : M A := fun m => (f m, m).

Definition modify_self (f : ModelLoader -> ModelLoader) : M unit :=
  fun m => (tt, {| self := f (self m); world := world m; trace := trace m |}).

Definition modify_world (f : World -> World) : M unit :=
  fun m => (tt, {| self := self m; world := f (world m); trace := trace m |}).

Definition emit (e : event) : M unit :=
  fun m => (tt, {| self := self m; world := world m;
                   trace := (trace m ++ [e])%list |}).

Local Notation "x <- c ;; k" := (bind c (fun x => k))
  (at level 61, c at next level, right associativity).
Local Notation "c ;;; k" := (bind c (fun _ => k))
  (at level 61, right associativity).

(** [time.time()]. *)
Definition now : M Q := fun m => (time_time rt (world m), m).

(** *** Attribute updates of [self] *)

Definition with_models (s : ModelLoader) (v : dict (option Handle)) : ModelLoader :=
  {| model_dir := model_dir s; validate_checksums := validate_checksums s;
     models := v; model_configs := model_configs s;
     model_status := model_status s; model_errors := model_errors s;
     model_checksums := model_checksums s |}.

Definition with_model_configs (s : ModelLoader) (v : dict ModelConfig) : ModelLoader :=
  {| model_dir := model_dir s; validate_checksums := validate_checksums s;
     models := models s; model_configs := v;
     model_status := model_status s; model_errors := model_errors s;
     model_checksums := model_checksums s |}.

Definition with_model_status (s : ModelLoader) (v : dict ModelStatus) : ModelLoader :=
  {| model_dir := model_dir s; validate_checksums := validate_checksums s;
     models := models s; model_configs := model_configs s;
     model_status := v; model_errors := model_errors s;
     model_checksums := model_checksums s |}.

Definition with_model_errors (s : ModelLoader) (v : dict string) : ModelLoader :=
  {| model_dir := model_dir s; validate_checksums := validate_checksums s;
     models := models s; model_configs := model_configs s;
     model_status := model_status s; model_errors := v;
     model_checksums := model_checksums s |}.

Definition with_model_checksums (s : ModelLoader) (v : dict string) : ModelLoader :=
  {| model_dir := model_dir s; validate_checksums := validate_checksums s;
     models := models s; model_configs := model_configs s;
     model_status := model_status s; model_errors := model_errors s;
     model_checksums := v |}.

(** [self.model_status[n] = st]. *)
Definition set_status (n : string) (st : ModelStatus) : M unit :=
  modify_self (fun s => with_model_status s (set (model_status s) n st)).

(** [self.model_errors[n] = msg]. *)
Definition set_error (n : string) (msg : string) : M unit :=
  modify_self (fun s => with_model_errors s (set (model_errors s) n msg)).

(** *** [register_model] *)

Definition register_model (s : ModelLoader) (config : ModelConfig) : ModelLoader :=
  let s1 := with_model_configs s (set (model_configs s) (name config) config) in
  with_model_status s1 (set (model_status s1) (name config) NOT_LOADED).

(** *** [_validate_file_exists] *)

Definition _validate_file_exists (w : World) (p : Path) : bool * string :=
  if negb (path_exists rt w p) then
    (false, "Model file not found: " ++ p)
  else if negb (path_is_file rt w p) then
    (false, "Path is not a file: " ++ p)
  else if (st_size rt w p =? 0)%Z then
    (false, "Model file is empty (0 bytes): " ++ p)
  else if negb (os_access_R_OK rt w p) then
    (false, "Model file is not readable (permission denied): " ++ p)
  else
    (true, "File validation passed").

(** *** [_calculate_checksum] *)

(** [while chunk := f.read(chunk_size): hash_func.update(chunk)] over the
    bytes still unread; every round consumes at least one byte, so
    [fuel] one above the number of bytes is enough. *)
Fixpoint update_chunks (fuel : nat) (chunk_size : nat)
    (unread : list Byte.byte) (hash_func : HashObj) : HashObj :=
  match fuel with
  | O => hash_func
  | S fuel' =>
      match firstn chunk_size unread with
      | [] => hash_func
      | chunk =>
          update_chunks fuel' chunk_size (skipn chunk_size unread)
            (hash_update rt hash_func chunk)
      end
  end.

Definition default_chunk_size : Z := 8192.

(** How many bytes [f.read(chunk_size)] asks for: a negative size reads
    up to the end of the file. *)
Definition read_size (chunk_size : Z) (data : list Byte.byte) : nat :=
  if (chunk_size <? 0)%Z then List.length data else Z.to_nat chunk_size.

Definition _calculate_checksum (p : Path) (algorithm : string)
    (chunk_size : Z) : M (result string) :=
  emit (EvChecksum p algorithm) ;;;
  match hashlib_new rt algorithm with
  | None =>
      ret (Raise (ValueError
        ("Unsupported hash algorithm: " ++ algorithm ++ ". " ++
         "Supported: " ++ PyStr.join ", " (algorithms_available rt))))
  | Some hash_func =>
      w <- gets world ;;
      match open_rb rt w p with
      | inl e =>
          ret (Raise (ModelValidationError ("Failed to calculate checksum: " ++ e)))
      | inr data =>
          ret (Ok (hexdigest rt
            (update_chunks (S (List.length data)) (read_size chunk_size data) data
               hash_func)))
      end
  end.

(** *** [_validate_checksum] *)

Definition checksum_mismatch_msg (expected actual : string) : string :=
  "Checksum mismatch! Expected: " ++ expected ++ ", Got: " ++ actual ++ ". " ++
  "File may be corrupted or tampered with.".

Definition _validate_checksum (p : Path) (expected algorithm : string)
    : M (bool * string * string) :=
  r <- _calculate_checksum p algorithm default_chunk_size ;;
  match r with
  | Ok actual =>
      if negb (String.eqb (PyStr.lower actual) (PyStr.lower expected)) then
        ret (false, actual, checksum_mismatch_msg expected actual)
      else
        ret (true, actual, "Checksum validation passed")
  | Raise e =>
      ret (false, EmptyString, "Checksum validation failed: " ++ str_exn e)
  end.

(** *** [_validate_model_file] *)

(** [self.validate_checksums and config.expected_checksum], with the
    expected digest when the conjunction is truthy. *)
Definition checksum_requested (s : ModelLoader) (config : ModelConfig)
    : option string :=
  if validate_checksums s then
    match expected_checksum config with
    | Some expected => if PyStr.truthy expected then Some expected else None
    | None => None
    end
  else None.

Definition _validate_model_file (config : ModelConfig) : M (bool * string) :=
  w <- gets world ;;
  let '(is_valid, error_msg) := _validate_file_exists w (path config) in
  if negb is_valid then ret (false, error_msg)
  else
    s <- gets self ;;
    match checksum_requested s config with
    | Some expected =>
        v <- _validate_checksum (path config) expected (checksum_algorithm config) ;;
        let '(is_valid, actual_checksum, error_msg) := v in
        if negb is_valid then ret (false, error_msg)
        else
          modify_self (fun s =>
            with_model_checksums s
              (set (model_checksums s) (name config) actual_checksum)) ;;;
          ret (true, "Validation passed")
    | None => ret (true, "Validation passed")
    end.

(** *** [_load_single_model] *)

(** [config.loader_kwargs or {}]. *)
Definition kwargs_or_empty (kw : option Kwargs) : Kwargs :=
  match kw with Some k => k | None => [] end.

(** The body of the [try]: the model, or [str(e)] of what was raised;
    a [None] model raises [RuntimeError("Loader returned None")]. *)
Definition try_body (out : loader_outcome) : string + Handle :=
  match out with
  | Returned (Some m) => inr m
  | Returned None => inl "Loader returned None"
  | Raised text => inl text
  end.

(** [0.5 * (2 ** attempt)]. *)
Definition wait_time (attempt : Z) : Q := ((1 # 2) * inject_Z (2 ^ attempt))%Q.

(** [time.sleep(seconds)]. *)
Definition sleep (seconds : Q) : M unit :=
  modify_world (time_sleep rt seconds) ;;; emit (EvSleep seconds).

(** [config.loader_func(config.path, **loader_kwargs)]. *)
Definition call_loader (config : ModelConfig) (attempt : Z) : M loader_outcome :=
  fun m =>
    let (out, w') :=
      loader_func config (path config) (kwargs_or_empty (loader_kwargs config))
        (world m) in
    (out, {| self := self m; world := w';
             trace := (trace m ++ [EvLoaderCall (name config) attempt out])%list |}).

(** [for attempt in range(config.retry_count): ...] over the attempts
    still to run, followed by the statements after the loop. *)
Fixpoint attempt_loop (config : ModelConfig) (start_time : Q)
    (attempts : list Z) : M ModelLoadResult :=
  match attempts with
  | [] =>
      t <- now ;;
      ret {| success := false; model := None;
             error_message := Some "Unknown error during loading";
             load_time := (t - start_time)%Q; checksum := None |}
  | attempt :: rest =>
      out <- call_loader config attempt ;;
      match try_body out with
      | inr mdl =>
          t <- now ;;
          modify_self (fun s => with_models s (set (models s) (name config) (Some mdl))) ;;;
          set_status (name config) LOADED ;;;
          modify_self (fun s => with_model_errors s (pop (model_errors s) (name config))) ;;;
          s <- gets self ;;
          ret {| success := true; model := Some mdl; error_message := None;
                 load_time := (t - start_time)%Q;
                 checksum := get (model_checksums s) (name config) |}
      | inl e =>
          if (attempt =? retry_count config - 1)%Z then
            t <- now ;;
            set_status (name config) FAILED ;;;
            set_error (name config) e ;;;
            ret {| success := false; model := None; error_message := Some e;
                   load_time := (t - start_time)%Q; checksum := None |}
          else
            sleep (wait_time attempt) ;;;
            attempt_loop config start_time rest
      end
  end.

Definition _load_single_model (config : ModelConfig) : M ModelLoadResult :=
  start_time <- now ;;
  set_status (name config) LOADING ;;;
  v <- _validate_model_file config ;;
  let '(is_valid, validation_msg) := v in
  if negb is_valid then
    set_status (name config) FAILED ;;;
    set_error (name config) validation_msg ;;;
    t <- now ;;
    ret {| success := false; model := None;
           error_message := Some validation_msg;
           load_time := (t - start_time)%Q; checksum := None |}
  else
    attempt_loop config start_time (range (retry_count config)).

(** *** [_validate_required_models] *)

Definition missing_required_results (s : ModelLoader)
    (results : dict ModelLoadResult) : list string :=
  map fst
    (filter
       (fun kv =>
          required (snd kv) &&
          negb (success (get_default results (fst kv) ModelLoadResult_False)))
       (items (model_configs s))).

Definition critical_models_msg (missing_required : list string) : string :=
  "Critical models failed to load: " ++ PyStr.join ", " missing_required ++ ". " ++
  "Service cannot start without these models.".

Definition no_models_msg : string :=
  "No models loaded successfully! Service cannot start.".

Definition _validate_required_models (s : ModelLoader)
    (results : dict ModelLoadResult) : result unit :=
  let missing_required := missing_required_results s results in
  match missing_required with
  | _ :: _ => Raise (RuntimeError (critical_models_msg missing_required))
  | [] =>
      if negb (existsb success (values results)) then
        Raise (RuntimeError no_models_msg)
      else Ok tt
  end.

(** *** [load_all_models] *)

(** Remove the [k]-th element of a list. *)
Fixpoint take_nth {A : Type} (k : nat) (l : list A) {struct l} : option (A * list A) :=
  match l with
  | [] => None
  | x :: rest =>
      match k with
      | O => Some (x, rest)
      | S k' =>
          match take_nth k' rest with
          | Some (y, rest') => Some (y, x :: rest')
          | None => None
          end
      end
  end.

(** [concurrent.futures.as_completed]: the submitted tasks in the order
    they finish.  [completion] is the scheduler's say: each number picks
    one of the tasks still pending; once it is used up the rest finish in
    submission order.  Every [completion] gives a permutation. *)
Fixpoint as_completed {A : Type} (completion : list nat) (pending : list A) : list A :=
  match completion with
  | [] => pending
  | k :: completion' =>
      match take_nth (Nat.modulo k (List.length pending)) pending with
      | Some (x, rest) => x :: as_completed completion' rest
      | None => []
      end
  end.

(** [results[config.name] = self._load_single_model(config)] for each
    config in turn.  In the pool each task is taken as one step, in the
    order of completion. *)
Fixpoint load_each (configs : list ModelConfig)
    (results : dict ModelLoadResult) : M (dict ModelLoadResult) :=
  match configs with
  | [] => ret results
  | config :: rest =>
      r <- _load_single_model config ;;
      load_each rest (set results (name config) r)
  end.

(** The [max_workers] handed to [ThreadPoolExecutor]. *)
Definition executor_max_workers (s : ModelLoader) (max_workers : option Z) : Z :=
  match max_workers with
  | None => Z.min (len (model_configs s)) 3
  | Some w => w
  end.

(** [concurrent.futures.ThreadPoolExecutor(max_workers=w)]: the
    constructor refuses a pool size below one. *)
Definition ThreadPoolExecutor (w : Z) : result Z :=
  if (w <=? 0)%Z then Raise (ValueError "max_workers must be greater than 0")
  else Ok w.

(** [load_all_models] up to the summary: the directory check, then the
    loads, sequentially or through the pool.  (The start time and the
    printed summary only feed the log.) *)
Definition load_phase (parallel : bool) (max_workers : option Z)
    (completion : list nat) : M (result (dict ModelLoadResult)) :=
  s <- gets self ;;
  w <- gets world ;;
  (if negb (path_exists rt w (model_dir s)) then
     modify_world (mkdir rt (model_dir s)) ;;; emit (EvMkdir (model_dir s))
   else ret tt) ;;;
  if parallel && (1 <? len (model_configs s))%Z then
    let max_workers := executor_max_workers s max_workers in
    match ThreadPoolExecutor max_workers with
    | Raise e => ret (Raise e)
    | Ok _ =>
        emit (EvExecutor max_workers) ;;;
        results <-
          load_each (as_completed completion (values (model_configs s))) empty ;;
        ret (Ok results)
    end
  else
    results <- load_each (values (model_configs s)) empty ;;
    ret (Ok results).

Definition load_all_models (parallel : bool) (max_workers : option Z)
    (completion : list nat) : M (result (dict ModelLoadResult)) :=
  loaded <- load_phase parallel max_workers completion ;;
  match loaded with
  | Raise e => ret (Raise e)
  | Ok results =>
      s' <- gets self ;;
      match _validate_required_models s' results with
      | Raise e => ret (Raise e)
      | Ok _ => ret (Ok results)
      end
  end.

(** *** [get_model], [is_model_loaded] *)

Definition get_model (s : ModelLoader) (model_name : string) : result (option Handle) :=
  if negb (mem (model_configs s) model_name) then
    let available := PyStr.join ", " (keys (model_configs s)) in
    Raise (ValueError
      ("Unknown model: '" ++ model_name ++ "'. Available models: " ++ available))
  else
    let mdl := get_default (models s) model_name None in
    match mdl with
    | None =>
        let status := get_default (model_status s) model_name NOT_LOADED in
        let error_detail := get_default (model_errors s) model_name "Unknown error" in
        Raise (RuntimeError
          ("Model '" ++ model_name ++ "' is not available (status: " ++
           status_value status ++ "). " ++
           "Loading failed with: " ++ error_detail))
    | Some _ => Ok mdl
    end.

Definition is_model_loaded (s : ModelLoader) (model_name : string) : bool :=
  mem (models s) model_name &&
  match get (models s) model_name with
  | Some (Some _) => true
  | _ => false
  end &&
  match get (model_status s) model_name with
  | Some st => ModelStatus_eqb st LOADED
  | None => false
  end.

(** *** [get_model_info] *)

(** The dictionary [get_model_info] returns, key by key. *)
Record ModelInfo : Type := mkInfo {
  info_name : string;
  info_path : string;
  info_required : bool;
  info_status : string;
  info_loaded : bool;
  info_error : option string;
  info_checksum : option string
}.

(** [model_name not in self.model_configs] and
    [self.model_configs[model_name]] are one lookup. *)
Definition get_model_info (s : ModelLoader) (model_name : string) : result ModelInfo :=
  match get (model_configs s) model_name with
  | None => Raise (ValueError ("Unknown model: " ++ model_name))
  | Some config =>
      Ok {| info_name := name config;
            info_path := path config;
            info_required := required config;
            info_status :=
              status_value (get_default (model_status s) model_name NOT_LOADED);
            info_loaded := is_model_loaded s model_name;
            info_error := get (model_errors s) model_name;
            info_checksum := get (model_checksums s) model_name |}
  end.

(** *** [get_health_status] *)

Record HealthStatus : Type := mkHealth {
  status : string;
  message : string;
  models_loaded : dict bool;
  loaded_count : Z;
  total_count : Z;
  errors : dict string
}.

(** [sum(flags)] over booleans. *)
Fixpoint sum_bools (flags : list bool) : Z :=
  match flags with
  | [] => 0
  | b :: rest => Z.b2z b + sum_bools rest
  end.

(** [{name: self.is_model_loaded(name) for name in self.model_configs.keys()}]. *)
Definition models_status_of (s : ModelLoader) : dict bool :=
  map (fun n => (n, is_model_loaded s n)) (keys (model_configs s)).

Definition required_models_of (s : ModelLoader) : list string :=
  map fst (filter (fun kv => required (snd kv)) (items (model_configs s))).

Definition missing_required_of (s : ModelLoader) (models_status : dict bool)
    : list string :=
  filter (fun n => negb (get_default models_status n false)) (required_models_of s).

Definition get_health_status (s : ModelLoader) : HealthStatus :=
  let models_status := models_status_of s in
  let loaded_count := sum_bools (values models_status) in
  let total_count := len models_status in
  let missing_required := missing_required_of s models_status in
  let '(status, message) :=
    if (loaded_count =? total_count)%Z then
      ("healthy", "All models loaded successfully")
    else
      match missing_required with
      | _ :: _ =>
          ("unhealthy",
           "Critical models not loaded: " ++ PyStr.join ", " missing_required)
      | [] =>
          if (loaded_count >? 0)%Z then
            ("degraded",
             PyStr.of_Z loaded_count ++ "/" ++ PyStr.of_Z total_count ++
             " models loaded " ++ "(optional models missing)")
          else
            ("unhealthy", "No models loaded")
      end in
  let message :=
    match model_errors s with
    | _ :: _ =>
        let error_summary :=
          PyStr.join "; "
            (map (fun kv => fst kv ++ ": " ++ snd kv) (items (model_errors s))) in
        message ++ ". Errors: " ++ error_summary
    | [] => message
    end in
  {| status := status; message := message; models_loaded := models_status;
     loaded_count := loaded_count; total_count := total_count;
     errors := model_errors s |}.

End Loader.

Arguments Returned {Handle} model.
Arguments Raised {Handle} text.
Arguments init {World Handle} dir flag.
Arguments ModelLoadResult_False {Handle}.

Arguments EvChecksum {Handle} p algorithm.
Arguments EvSleep {Handle} seconds.
Arguments EvMkdir {Handle} p.
Arguments EvExecutor {Handle} max_workers.

(** ** The loader with the exceptions that escape from it

    The definitions above follow the runs in which every call of the
    platform answers.  [Runtime] says what a call answers; [Faults] says
    when it raises instead ([None]: it answers).  The module [Exc] is
    the loader once more, under the source's names, with these
    exceptions and the one of the arithmetic ([0.5 * (2 ** attempt)]) on
    the paths the source gives them: out of [_validate_file_exists] and
    of the [except] block of the retry loop, through the sequential loop
    of [load_all_models], into the handler of its pool. *)

Record Faults (World HashObj : Type) : Type := mkFaults {
  exists_raises : World -> Path -> option exn;     (* path.exists() *)
  is_file_raises : World -> Path -> option exn;    (* path.is_file() *)
  stat_raises : World -> Path -> option exn;       (* path.stat() *)
  hexdigest_raises : HashObj -> option string;     (* str(e) of hexdigest() *)
  sleep_raises : Q -> World -> option exn;         (* time.sleep(seconds) *)
  mkdir_raises : Path -> World -> option exn       (* mkdir(parents=True, exist_ok=True) *)
}.

(** A call of the platform: it raises, or it answers. *)
Definition answer {A : Type} (fault : option exn) (a : A) : result A :=
  match fault with
  | Some e => Raise e
  | None => Ok a
  end.

Module Exc.

Section Loader.

Variables World Handle HashObj : Type.
Variable rt : Runtime World HashObj.
Variable fx : Faults World HashObj.

(** *** State and exception monad over the machine

    What was written to the machine before an exception stays written. *)

Definition X (A : Type) : Type :=
  Machine World Handle -> result A * Machine World Handle.

Definition ret {A : Type} (a : A) : X A := fun m => (Ok a, m).

Definition raise {A : Type} (e : exn) : X A := fun m => (Raise e, m).

Definition bind {A B : Type} (c : X A) (k : A -> X B) : X B :=
  fun m =>
    match c m with
    | (Ok a, m') => k a m'
    | (Raise e, m') => (Raise e, m')
    end.

(** A step that cannot raise. *)
Definition lift {A : Type} (c : M World Handle A) : X A :=
  fun m => let (a, m') := c m in (Ok a, m').

(** A call that returns or raises and leaves the machine alone. *)
Definition of_result {A : Type} (r : result A) : X A := fun m => (r, m).

(** [try: c  except Exception as e: handler e]. *)
Definition try_except {A : Type} (c : X A) (handler : exn -> X A) : X A :=
  fun m =>
    match c m with
    | (Ok a, m') => (Ok a, m')
    | (Raise e, m') => handler e m'
    end.

Local Notation "x <- c ;; k" := (bind c (fun x => k))
  (at level 61, c at next level, right associativity).
Local Notation "c ;;; k" := (bind c (fun _ => k))
  (at level 61, right associativity).

(** *** [_validate_file_exists] *)

Definition _validate_file_exists (w : World) (p : Path) : result (bool * string) :=
  match answer (exists_raises fx w p) (path_exists rt w p) with
  | Raise e => Raise e
  | Ok false => Ok (false, "Model file not found: " ++ p)
  | Ok true =>
  match answer (is_file_raises fx w p) (path_is_file rt w p) with
  | Raise e => Raise e
  | Ok false => Ok (false, "Path is not a file: " ++ p)
  | Ok true =>
  match answer (stat_raises fx w p) (st_size rt w p) with
  | Raise e => Raise e
  | Ok size =>
      if (size =? 0)%Z then
        Ok (false, "Model file is empty (0 bytes): " ++ p)
      else if negb (os_access_R_OK rt w p) then
        Ok (false, "Model file is not readable (permission denied): " ++ p)
      else
        Ok (true, "File validation passed")
  end end end.

(** *** [_calculate_checksum] *)

(** [hexdigest()] sits inside the [try]: what it raises (a SHAKE digest
    asks for a length) comes out as [ModelValidationError]. *)
Definition _calculate_checksum (p : Path) (algorithm : string)
    (chunk_size : Z) : X string :=
  lift (emit (EvChecksum p algorithm)) ;;;
  match hashlib_new rt algorithm with
  | None =>
      raise (ValueError
        ("Unsupported hash algorithm: " ++ algorithm ++ ". " ++
         "Supported: " ++ PyStr.join ", " (algorithms_available rt)))
  | Some hash_func =>
      w <- lift (gets (@world World Handle)) ;;
      match open_rb rt w p with
      | inl e =>
          raise (ModelValidationError ("Failed to calculate checksum: " ++ e))
      | inr data =>
          let hash_func :=
            update_chunks rt (S (List.length data)) (read_size chunk_size data) data
              hash_func in
          match hexdigest_raises fx hash_func with
          | Some e =>
              raise (ModelValidationError ("Failed to calculate checksum: " ++ e))
          | None => ret (hexdigest rt hash_func)
          end
      end
  end.

(** *** [_validate_checksum] *)

Definition _validate_checksum (p : Path) (expected algorithm : string)
    : X (bool * string * string) :=
  try_except
    (actual <- _calculate_checksum p algorithm default_chunk_size ;;
     if negb (String.eqb (PyStr.lower actual) (PyStr.lower expected)) then
       ret (false, actual, checksum_mismatch_msg expected actual)
     else
       ret (true, actual, "Checksum validation passed"))
    (fun e =>
       ret (false, EmptyString, "Checksum validation failed: " ++ str_exn e)).

(** *** [_validate_model_file] *)

Definition _validate_model_file (config : ModelConfig World Handle)
    : X (bool * string) :=
  w <- lift (gets (@world World Handle)) ;;
  v <- of_result (_validate_file_exists w (path config)) ;;
  let '(is_valid, error_msg) := v in
  if negb is_valid then ret (false, error_msg)
  else
    s <- lift (gets (@self World Handle)) ;;
    match checksum_requested s config with
    | Some expected =>
        v <- _validate_checksum (path config) expected (checksum_algorithm config) ;;
        let '(is_valid, actual_checksum, error_msg) := v in
        if negb is_valid then ret (false, error_msg)
        else
          lift (modify_self (fun s =>
            with_model_checksums s
              (set (model_checksums s) (name config) actual_checksum))) ;;;
          ret (true, "Validation passed")
    | None => ret (true, "Validation passed")
    end.

(** *** [_load_single_model] *)

(** [0.5 * (2 ** attempt)]: the product converts the integer to a float,
    which raises from [2 ** 1024] on; below that the power of two and its
    half are floats, exactly. *)
Definition wait_time (attempt : Z) : result Q :=
  if (attempt <? 1024)%Z then Ok (wait_time attempt)
  else Raise (OverflowError "int too large to convert to float").

(** [time.sleep(seconds)]. *)
Definition sleep (seconds : Q) : X unit :=
  w <- lift (gets (@world World Handle)) ;;
  match sleep_raises fx seconds w with
  | Some e => raise e
  | None => lift (sleep rt seconds)
  end.

(** [for attempt in range(config.retry_count): ...] over the attempts
    still to run, followed by the statements after the loop.  The body of
    the [try] raises nothing but what the loader raises; the back-off sits
    in the [except] block, where nothing catches. *)
Fixpoint attempt_loop (config : ModelConfig World Handle) (start_time : Q)
    (attempts : list Z) : X (ModelLoadResult Handle) :=
  match attempts with
  | [] =>
      t <- lift (now rt) ;;
      ret {| success := false; model := None;
             error_message := Some "Unknown error during loading";
             load_time := (t - start_time)%Q; checksum := None |}
  | attempt :: rest =>
      out <- lift (call_loader config attempt) ;;
      match try_body out with
      | inr mdl =>
          t <- lift (now rt) ;;
          lift (modify_self (fun s =>
            with_models s (set (models s) (name config) (Some mdl)))) ;;;
          lift (set_status (name config) LOADED) ;;;
          lift (modify_self (fun s =>
            with_model_errors s (pop (model_errors s) (name config)))) ;;;
          s <- lift (gets (@self World Handle)) ;;
          ret {| success := true; model := Some mdl; error_message := None;
                 load_time := (t - start_time)%Q;
                 checksum := get (model_checksums s) (name config) |}
      | inl e =>
          if (attempt =? retry_count config - 1)%Z then
            t <- lift (now rt) ;;
            lift (set_status (name config) FAILED) ;;;
            lift (set_error (name config) e) ;;;
            ret {| success := false; model := None; error_message := Some e;
                   load_time := (t - start_time)%Q; checksum := None |}
          else
            seconds <- of_result (wait_time attempt) ;;
            sleep seconds ;;;
            attempt_loop config start_time rest
      end
  end.

Definition _load_single_model (config : ModelConfig World Handle)
    : X (ModelLoadResult Handle) :=
  start_time <- lift (now rt) ;;
  lift (set_status (name config) LOADING) ;;;
  v <- _validate_model_file config ;;
  let '(is_valid, validation_msg) := v in
  if negb is_valid then
    lift (set_status (name config) FAILED) ;;;
    lift (set_error (name config) validation_msg) ;;;
    t <- lift (now rt) ;;
    ret {| success := false; model := None;
           error_message := Some validation_msg;
           load_time := (t - start_time)%Q; checksum := None |}
  else
    attempt_loop config start_time (range (retry_count config)).

(** *** [load_all_models] *)

(** [if not self.model_dir.exists(): self.model_dir.mkdir(...)]. *)
Definition check_model_dir : X unit :=
  s <- lift (gets (@self World Handle)) ;;
  w <- lift (gets (@world World Handle)) ;;
  there <- of_result
             (answer (exists_raises fx w (model_dir s)) (path_exists rt w (model_dir s))) ;;
  if negb there then
    match mkdir_raises fx (model_dir s) w with
    | Some e => raise e
    | None =>
        lift (modify_world (mkdir rt (model_dir s))) ;;;
        lift (emit (EvMkdir (model_dir s)))
    end
  else ret tt.

(** The sequential branch:
    [results[config.name] = self._load_single_model(config)] for each
    config in turn; an exception of a load ends the loop. *)
Fixpoint load_each (configs : list (ModelConfig World Handle))
    (results : dict (ModelLoadResult Handle)) : X (dict (ModelLoadResult Handle)) :=
  match configs with
  | [] => ret results
  | config :: rest =>
      r <- _load_single_model config ;;
      load_each rest (set results (name config) r)
  end.

(** [ModelLoadResult(success=False, error_message=str(e))]. *)
Definition ModelLoadResult_exception (e : exn) : ModelLoadResult Handle :=
  {| success := false; model := None; error_message := Some (str_exn e);
     load_time := 0%Q; checksum := None |}.

(** The pool: [results[model_name] = future.result()] for the tasks in
    their order of completion (each task taken as one step), under the
    handler that turns an exception of a task into an unsuccessful
    result. *)
Fixpoint collect_results (configs : list (ModelConfig World Handle))
    (results : dict (ModelLoadResult Handle)) : X (dict (ModelLoadResult Handle)) :=
  match configs with
  | [] => ret results
  | config :: rest =>
      r <- try_except (_load_single_model config)
             (fun e => ret (ModelLoadResult_exception e)) ;;
      collect_results rest (set results (name config) r)
  end.

(** [load_all_models] up to the summary. *)
Definition load_phase (parallel : bool) (max_workers : option Z)
    (completion : list nat) : X (dict (ModelLoadResult Handle)) :=
  check_model_dir ;;;
  s <- lift (gets (@self World Handle)) ;;
  if parallel && (1 <? len (model_configs s))%Z then
    let max_workers := executor_max_workers s max_workers in
    of_result (ThreadPoolExecutor max_workers) ;;;
    lift (emit (EvExecutor max_workers)) ;;;
    collect_results (as_completed completion (values (model_configs s))) empty
  else
    load_each (values (model_configs s)) empty.

(** [_print_loading_summary] writes to the log only, but it looks every
    result up in the registry: [self.model_configs[model_name]] raises
    [KeyError] for the first name that is not registered. *)
Definition _print_loading_summary (s : ModelLoader World Handle)
    (results : dict (ModelLoadResult Handle)) : result unit :=
  match find (fun n => negb (mem (model_configs s) n)) (keys results) with
  | Some n => Raise (KeyError ("'" ++ n ++ "'"))
  | None => Ok tt
  end.

Definition load_all_models (parallel : bool) (max_workers : option Z)
    (completion : list nat) : X (dict (ModelLoadResult Handle)) :=
  results <- load_phase parallel max_workers completion ;;
  s <- lift (gets (@self World Handle)) ;;
  of_result (_print_loading_summary s results) ;;;
  of_result (_validate_required_models s results) ;;;
  ret results.

End Loader.

End Exc.

(** ** A small concrete platform, for running the definitions *)

Module Sample.

(** The world counts the loader invocations made so far; the clock
    stands still. *)
Definition World : Type := nat.
Definition Handle : Type := nat.
Definition HashObj : Type := list Byte.byte.

(** Files: [a.bin] and [b.bin] hold bytes, [empty.bin] holds none, any
    other path is absent. *)
Definition file_bytes (p : Path) : option (list Byte.byte) :=
  if String.eqb p "a.bin" then Some [Byte.x01; Byte.x02; Byte.x03]
  else if String.eqb p "b.bin" then Some [Byte.x0a]
  else if String.eqb p "empty.bin" then Some []
  else None.

Definition rt : Runtime World HashObj :=
  {| path_exists := fun _ p => match file_bytes p with Some _ => true | None => false end;
     path_is_file := fun _ p => match file_bytes p with Some _ => true | None => false end;
     st_size := fun _ p =>
       match file_bytes p with Some b => Z.of_nat (List.length b) | None => 0 end;
     os_access_R_OK := fun _ _ => true;
     open_rb := fun _ p =>
       match file_bytes p with Some b => inr b | None => inl "No such file" end;
     hashlib_new := fun alg => if String.eqb alg "sha256" then Some [] else None;
     hash_update := fun h chunk => (h ++ chunk)%list;
     hexdigest := fun h => "AB" ++ PyStr.of_Z (Z.of_nat (List.length h));
     algorithms_available := ["sha256"];
     time_time := fun _ => 0%Q;
     time_sleep := fun _ w => w;
     mkdir := fun _ w => w |}.

Definition loads (h : Handle) : Path -> Kwargs -> World -> loader_outcome Handle * World :=
  fun _ _ w => (Returned (Some h), S w).

Definition fails (text : string) : Path -> Kwargs -> World -> loader_outcome Handle * World :=
  fun _ _ w => (Raised text, S w).

Definition gives_None : Path -> Kwargs -> World -> loader_outcome Handle * World :=
  fun _ _ w => (Returned None, S w).

(** Fails until [k] invocations have been made, then loads. *)
Definition flaky (k : nat) : Path -> Kwargs -> World -> loader_outcome Handle * World :=
  fun _ _ w => if Nat.ltb w k then (Raised "not ready", S w) else (Returned (Some 7%nat), S w).

Definition config (n : string) (p : Path)
    (f : Path -> Kwargs -> World -> loader_outcome Handle * World)
    (req : bool) (sum : option string) (retries : Z) : ModelConfig World Handle :=
  {| name := n; path := p; loader_func := f; required := req;
     expected_checksum := sum; checksum_algorithm := "sha256";
     retry_count := retries; loader_kwargs := None |}.

Definition fresh : ModelLoader World Handle := init "models" true.

Definition boot (s : ModelLoader World Handle) : Machine World Handle :=
  {| self := s; world := 0%nat; trace := [] |}.

(** A registry built by registering the configs in order. *)
Definition registry (configs : list (ModelConfig World Handle)) : ModelLoader World Handle :=
  fold_left (@register_model World Handle) configs fresh.

Definition A_required_valid := config "A" "a.bin" (loads 1%nat) true (Some "ab3") 1.
Definition A_required_missing := config "A" "missing.bin" (loads 1%nat) true None 1.
Definition A_optional_missing := config "A" "missing.bin" (loads 1%nat) false None 1.
Definition A_optional_valid := config "A" "a.bin" (loads 1%nat) false None 1.
Definition A_wrong_digest := config "A" "a.bin" (loads 1%nat) true (Some "ffff") 3.
Definition A_failing := config "A" "a.bin" (fails "out of memory") true None 3.
Definition A_flaky := config "A" "a.bin" (flaky 1) true None 1.
Definition B_optional_missing := config "B" "missing.bin" (loads 2%nat) false None 1.
Definition B_optional_valid := config "B" "b.bin" (loads 2%nat) false None 1.
Definition B_no_attempts := config "B" "b.bin" (loads 2%nat) false None 0.

(** A config that asks for a digest [hashlib] does not know. *)
Definition A_unknown_algorithm : ModelConfig World Handle :=
  {| name := "A"; path := "a.bin"; loader_func := loads 1%nat; required := true;
     expected_checksum := Some "ab3"; checksum_algorithm := "md5";
     retry_count := 3; loader_kwargs := None |}.

(** The platform on which every call answers. *)
Definition no_faults : Faults World HashObj :=
  {| exists_raises := fun _ _ => None;
     is_file_raises := fun _ _ => None;
     stat_raises := fun _ _ => None;
     hexdigest_raises := fun _ => None;
     sleep_raises := fun _ _ => None;
     mkdir_raises := fun _ _ => None |}.

(** A platform on which [stat] refuses the name [long.bin]: every probe
    of that path raises. *)
Definition name_too_long (p : Path) : option exn :=
  if String.eqb p "long.bin" then Some (OSError "[Errno 36] File name too long: 'long.bin'")
  else None.

Definition long_name_faults : Faults World HashObj :=
  {| exists_raises := fun _ p => name_too_long p;
     is_file_raises := fun _ p => name_too_long p;
     stat_raises := fun _ p => name_too_long p;
     hexdigest_raises := fun _ => None;
     sleep_raises := fun _ _ => None;
     mkdir_raises := fun _ _ => None |}.

(** A platform whose hash objects want a length for [hexdigest], as the
    SHAKE digests do. *)
Definition shake_faults : Faults World HashObj :=
  {| exists_raises := fun _ _ => None;
     is_file_raises := fun _ _ => None;
     stat_raises := fun _ _ => None;
     hexdigest_raises :=
       fun _ => Some "hexdigest() missing required argument 'length' (pos 1)";
     sleep_raises := fun _ _ => None;
     mkdir_raises := fun _ _ => None |}.

Definition B_long_name := config "B" "long.bin" (loads 2%nat) false None 1.
Definition A_many_retries := config "A" "a.bin" (fails "out of memory") true None 1026.

End Sample.

(** ** Observers of a trace *)

Section Observers.

Variable Handle : Type.

(** The loader invocations of a trace: attempt number and outcome. *)
Fixpoint loader_calls (evs : list (event Handle)) : list (Z * loader_outcome Handle) :=
  match evs with
  | [] => []
  | EvLoaderCall _ attempt out :: rest => (attempt, out) :: loader_calls rest
  | _ :: rest => loader_calls rest
  end.

(** The sleeps of a trace, in seconds. *)
Fixpoint sleeps (evs : list (event Handle)) : list Q :=
  match evs with
  | [] => []
  | EvSleep seconds :: rest => seconds :: sleeps rest
  | _ :: rest => sleeps rest
  end.

(** The checksum computations of a trace. *)
Fixpoint checksum_runs (evs : list (event Handle)) : list (Path * string) :=
  match evs with
  | [] => []
  | EvChecksum p algorithm :: rest => (p, algorithm) :: checksum_runs rest
  | _ :: rest => checksum_runs rest
  end.

(** The pool sizes handed to an executor. *)
Fixpoint executors (evs : list (event Handle)) : list Z :=
  match evs with
  | [] => []
  | EvExecutor w :: rest => w :: executors rest
  | _ :: rest => executors rest
  end.

End Observers.

(** ** Vocabulary of the properties *)

Section Vocabulary.

Variables World Handle : Type.

Implicit Types (m : Machine World Handle) (s : ModelLoader World Handle).

(** What loading the model [n] may touch: the entries of [n] in the
    maps, the world and the trace, where it creates no pool.  The
    registry and the settings stay as they are. *)
Definition load_frame (n : string) m m' : Prop :=
  model_dir (self m') = model_dir (self m) /\
  validate_checksums (self m') = validate_checksums (self m) /\
  model_configs (self m') = model_configs (self m) /\
  (forall k, k <> n ->
     get (models (self m')) k = get (models (self m)) k /\
     get (model_status (self m')) k = get (model_status (self m)) k /\
     get (model_errors (self m')) k = get (model_errors (self m)) k /\
     get (model_checksums (self m')) k = get (model_checksums (self m)) k) /\
  exists evs, trace m' = (trace m ++ evs)%list /\ executors evs = [].

(** A failed attempt: the loader raised, or returned [None]. *)
Definition attempt_failed (out : loader_outcome Handle) : Prop :=
  match out with
  | Returned (Some _) => False
  | Returned None | Raised _ => True
  end.

(** The registered model [n] is required and its result in [results]
    (an unsuccessful one when there is none) is not a success. *)
Definition required_failed s (results : dict (ModelLoadResult Handle))
    (n : string) : Prop :=
  exists c, In (n, c) (items (model_configs s)) /\ required c = true /\
            success (get_default results n ModelLoadResult_False) = false.

(** No result of the map is a success. *)
Definition none_succeeded (results : dict (ModelLoadResult Handle)) : Prop :=
  forall n r, In (n, r) (items results) -> success r = false.

(** [load_all_models] takes the parallel branch and the executor refuses
    the pool size. *)
Definition pool_refused s (parallel : bool) (max_workers : option Z) : bool :=
  parallel && (1 <? len (model_configs s))%Z &&
  (executor_max_workers s max_workers <=? 0)%Z.

(** A status a finished load leaves behind. *)
Definition settled (st : option ModelStatus) : Prop :=
  st = Some LOADED \/ st = Some FAILED.

(** The registry as [register_model] builds it: every config sits under
    its own name. *)
Definition keyed_by_name (s : ModelLoader World Handle) : Prop :=
  forall k c, In (k, c) (items (model_configs s)) -> name c = k.


End Vocabulary.

(** Vocabulary for the loader with exceptions. *)

Section ExcVocabulary.

Variables World Handle HashObj : Type.
Variable rt : Runtime World HashObj.
Variable fx : Faults World HashObj.

(** A platform on which every call answers. *)
Definition calm : Prop :=
  (forall w p, exists_raises fx w p = None) /\
  (forall w p, is_file_raises fx w p = None) /\
  (forall w p, stat_raises fx w p = None) /\
  (forall h, hexdigest_raises fx h = None) /\
  (forall q w, sleep_raises fx q w = None) /\
  (forall p w, mkdir_raises fx p w = None).

(** Retry counts for which every delay [0.5 * (2 ** attempt)] the loop
    can ask for is a float: attempts [0 .. R-2] with [R - 2 <= 1023]. *)
Definition retries_bounded (s : ModelLoader World Handle) : Prop :=
  forall k c, In (k, c) (items (model_configs s)) -> retry_count c <= 1025.

(** What [n] attempts from attempt [k] on leave behind when each of them
    fails, as the retry protocol has it: the loader is called; unless
    that was the last attempt the loop sleeps [0.5 * 2^k] seconds and the
    next attempt follows.  The events, in order, and the world at the
    end. *)
Fixpoint persistent_failure (config : ModelConfig World Handle) (k n : nat) (w : World)
    : list (event Handle) * World :=
  match n with
  | O => ([], w)
  | S n' =>
      let (out, w1) :=
        loader_func config (path config) (kwargs_or_empty (loader_kwargs config)) w in
      match n' with
      | O => ([EvLoaderCall (name config) (Z.of_nat k) out], w1)
      | S _ =>
          let (evs, w2) :=
            persistent_failure config (S k) n'
              (time_sleep rt (wait_time (Z.of_nat k)) w1) in
          (EvLoaderCall (name config) (Z.of_nat k) out ::
           EvSleep (wait_time (Z.of_nat k)) :: evs, w2)
      end
  end.

(** The loads of the sequential branch of [load_all_models], one after
    the other: each result goes into the map under the name of its
    config, and the first exception of a load ends the run. *)
Inductive sequential_run :
    list (ModelConfig World Handle) -> dict (ModelLoadResult Handle) ->
    Machine World Handle ->
    result (dict (ModelLoadResult Handle)) -> Machine World Handle -> Prop :=
| sequential_done results m : sequential_run [] results m (Ok results) m
| sequential_result config rest results m r m1 out m' :
    Exc._load_single_model rt fx config m = (Ok r, m1) ->
    sequential_run rest (set results (name config) r) m1 out m' ->
    sequential_run (config :: rest) results m out m'
| sequential_exception config rest results m e m1 :
    Exc._load_single_model rt fx config m = (Raise e, m1) ->
    sequential_run (config :: rest) results m (Raise e) m1.

(** The loads of the pool, in their order of completion: an exception
    of a load becomes the unsuccessful result
    [ModelLoadResult(success=False, error_message=str(e))], and the run
    goes on. *)
Inductive pooled_run :
    list (ModelConfig World Handle) -> dict (ModelLoadResult Handle) ->
    Machine World Handle ->
    dict (ModelLoadResult Handle) -> Machine World Handle -> Prop :=
| pooled_done results m : pooled_run [] results m results m
| pooled_result config rest results m r m1 results' m' :
    Exc._load_single_model rt fx config m = (Ok r, m1) ->
    pooled_run rest (set results (name config) r) m1 results' m' ->
    pooled_run (config :: rest) results m results' m'
| pooled_exception config rest results m e m1 results' m' :
    Exc._load_single_model rt fx config m = (Raise e, m1) ->
    pooled_run rest
      (set results (name config)
         {| success := false; model := None; error_message := Some (str_exn e);
            load_time := 0%Q; checksum := None |}) m1 results' m' ->
    pooled_run (config :: rest) results m results' m'.

End ExcVocabulary.

(** ** Facts about dictionaries *)

Module PyDictFacts.

Section Facts.

Variable V : Type.
Implicit Types (d : dict V) (k : string) (v : V).

Lemma get_set_same d k v : get (set d k v) k = Some v.
Proof.
  induction d as [|[k' v'] rest IH]; simpl.
  - now rewrite String.eqb_refl.
  - destruct (String.eqb k k') eqn:E; simpl; rewrite E; auto.
Qed.

Lemma get_set_other d k k' v : k <> k' -> get (set d k v) k' = get d k'.
Proof.
  intros Hne.
  induction d as [|[k0 v0] rest IH]; simpl.
  - destruct (String.eqb_spec k' k); congruence.
  - destruct (String.eqb_spec k k0) as [->|]; simpl.
    + destruct (String.eqb_spec k' k0); congruence.
    + now rewrite IH.
Qed.

Lemma get_pop_same d k : get (pop d k) k = None.
Proof.
  unfold pop.
  induction d as [|[k' v'] rest IH]; simpl; auto.
  destruct (String.eqb k k') eqn:E; simpl; auto.
  now rewrite E.
Qed.

Lemma get_pop_other d k k' : k <> k' -> get (pop d k) k' = get d k'.
Proof.
  intros Hne. unfold pop.
  induction d as [|[k0 v0] rest IH]; simpl; auto.
  destruct (String.eqb_spec k k0) as [->|]; simpl.
  - destruct (String.eqb_spec k' k0); congruence.
  - now rewrite IH.
Qed.

(** Overwriting a present key adds no entry and moves none. *)
Lemma keys_set_present d k v : mem d k = true -> keys (set d k v) = keys d.
Proof.
  unfold mem, keys.
  induction d as [|[k' v'] rest IH]; simpl; [discriminate|].
  destruct (String.eqb_spec k k') as [->|]; simpl; auto.
  intros H. now rewrite IH.
Qed.

(** A new key goes to the end. *)
Lemma keys_set_absent d k v : mem d k = false -> keys (set d k v) = (keys d ++ [k])%list.
Proof.
  unfold mem, keys.
  induction d as [|[k' v'] rest IH]; simpl; auto.
  destruct (String.eqb_spec k k') as [->|]; simpl; [discriminate|].
  intros H. now rewrite IH.
Qed.

Lemma get_In d k v : get d k = Some v -> In (k, v) d.
Proof.
  induction d as [|[k' v'] rest IH]; simpl; [discriminate|].
  destruct (String.eqb_spec k k') as [->|]; intros H.
  - left. congruence.
  - right. auto.
Qed.

Lemma In_keys_mem d k : In k (keys d) <-> mem d k = true.
Proof.
  unfold mem, keys.
  induction d as [|[k' v'] rest IH]; simpl.
  - split; [tauto | discriminate].
  - destruct (String.eqb_spec k k') as [->|]; [tauto|].
    rewrite <- IH. split; [intros [H|H]; congruence || auto | auto].
Qed.

Lemma mem_set d k k' v : mem (set d k v) k' = (String.eqb k k' || mem d k')%bool.
Proof.
  unfold mem.
  destruct (String.eqb_spec k k') as [->|Hne]; simpl.
  - now rewrite get_set_same.
  - now rewrite get_set_other.
Qed.

Lemma In_keys_set d k k' v : In k' (keys (set d k v)) <-> k' = k \/ In k' (keys d).
Proof.
  unfold keys.
  induction d as [|[k0 v0] rest IH]; simpl.
  - intuition congruence.
  - destruct (String.eqb_spec k k0) as [->|Hne]; simpl.
    + intuition congruence.
    + rewrite IH. tauto.
Qed.

(** The keys of a dictionary are distinct, and stay so. *)
Lemma keys_set_NoDup d k v : NoDup (keys d) -> NoDup (keys (set d k v)).
Proof.
  unfold keys.
  induction d as [|[k0 v0] rest IH]; simpl; intros Hnd.
  - constructor; [tauto | constructor].
  - inversion Hnd as [|? ? Hnotin Hrest]; subst.
    destruct (String.eqb_spec k k0) as [->|Hne]; simpl.
    + now constructor.
    + constructor; [|now apply IH].
      intros Hin. apply (In_keys_set rest k k0 v) in Hin.
      destruct Hin as [Heq|Hin]; [congruence | contradiction].
Qed.

Lemma keys_pop_NoDup d k : NoDup (keys d) -> NoDup (keys (pop d k)).
Proof.
  unfold keys, pop.
  induction d as [|[k0 v0] rest IH]; simpl; intros Hnd; [constructor|].
  inversion Hnd as [|? ? Hnotin Hrest]; subst.
  destruct (negb (String.eqb k k0)); simpl; [|now apply IH].
  constructor; [|now apply IH].
  intros Hin. apply Hnotin. apply in_map_iff in Hin.
  destruct Hin as ([k1 v1] & Hk & Hin). apply filter_In in Hin.
  apply in_map_iff. exists (k1, v1). tauto.
Qed.

(** An entry of a dictionary after an assignment is the new one or an old one. *)
Lemma In_set d k v k' v' :
  In (k', v') (set d k v) -> (k' = k /\ v' = v) \/ In (k', v') d.
Proof.
  induction d as [|[k0 v0] rest IH]; simpl.
  - intros [H|[]]. left. split; congruence.
  - destruct (String.eqb_spec k k0) as [->|Hne]; simpl.
    + intros [H|H]; [left; split; congruence | right; now right].
    + intros [H|H]; [right; now left|].
      destruct (IH H) as [?|?]; [now left | right; now right].
Qed.

End Facts.

End PyDictFacts.

(** ** Facts about strings *)

Module PyStrFacts.

Lemma append_assoc (a b c : string) : (a ++ b) ++ c = a ++ (b ++ c).
Proof. induction a as [|x a IH]; simpl; [reflexivity | now rewrite IH]. Qed.

Lemma mentions_self (x : string) : PyStr.mentions x x.
Proof.
  exists EmptyString, EmptyString. simpl.
  induction x as [|c x IH]; simpl; [reflexivity | now rewrite <- IH].
Qed.

Lemma mentions_prepend (a text x : string) :
  PyStr.mentions text x -> PyStr.mentions (a ++ text) x.
Proof.
  intros (pre & post & ->). exists (a ++ pre), post.
  now rewrite append_assoc.
Qed.

Lemma mentions_append (text b x : string) :
  PyStr.mentions text x -> PyStr.mentions (text ++ b) x.
Proof.
  intros (pre & post & ->). exists pre, (post ++ b).
  now rewrite !append_assoc.
Qed.

(** Every part shows up in the joined text. *)
Lemma mentions_join (sep : string) (parts : list string) (x : string) :
  In x parts -> PyStr.mentions (PyStr.join sep parts) x.
Proof.
  unfold PyStr.join.
  induction parts as [|y rest IH]; simpl; [tauto|].
  intros [->|Hin].
  - destruct rest; [apply mentions_self|].
    apply mentions_append, mentions_self.
  - destruct rest as [|z rest']; [destruct Hin|].
    apply mentions_prepend, mentions_prepend, IH, Hin.
Qed.

End PyStrFacts.

(** ** Facts about the loader *)

Ltac unfold_monad :=
  unfold bind, ret, gets, modify_self, modify_world, emit, now,
         set_status, set_error, sleep, call_loader in *.

Section LoaderFacts.

Variables World Handle HashObj : Type.
Variable rt : Runtime World HashObj.

Implicit Types (m : Machine World Handle) (s : ModelLoader World Handle).
Implicit Types (config : ModelConfig World Handle).

(** *** Validation *)

Lemma calculate_checksum_machine p algorithm chunk_size m :
  snd (_calculate_checksum rt p algorithm chunk_size m) =
  {| self := self m; world := world m;
     trace := (trace m ++ [EvChecksum p algorithm])%list |}.
Proof.
  unfold _calculate_checksum; unfold_monad; cbn.
  destruct (hashlib_new rt algorithm); [|reflexivity].
  cbn. destruct (open_rb rt (world m) p); reflexivity.
Qed.

Lemma calculate_checksum_value p algorithm chunk_size m m' :
  world m' = world m ->
  fst (_calculate_checksum rt p algorithm chunk_size m') =
  fst (_calculate_checksum rt p algorithm chunk_size m).
Proof.
  intros Hw. unfold _calculate_checksum; unfold_monad; cbn.
  destruct (hashlib_new rt algorithm); [|reflexivity].
  cbn. rewrite Hw. destruct (open_rb rt (world m) p); reflexivity.
Qed.

Lemma validate_checksum_machine p expected algorithm m :
  snd (_validate_checksum rt p expected algorithm m) =
  {| self := self m; world := world m;
     trace := (trace m ++ [EvChecksum p algorithm])%list |}.
Proof.
  unfold _validate_checksum, bind.
  pose proof (calculate_checksum_machine p algorithm default_chunk_size m) as H.
  destruct (_calculate_checksum rt p algorithm default_chunk_size m) as [r m1].
  simpl in H. subst m1.
  destruct r as [actual|e]; [|reflexivity].
  destruct (negb _); reflexivity.
Qed.

Lemma validate_checksum_value p expected algorithm m m' :
  world m' = world m ->
  fst (_validate_checksum rt p expected algorithm m') =
  fst (_validate_checksum rt p expected algorithm m).
Proof.
  intros Hw. unfold _validate_checksum, bind.
  pose proof (calculate_checksum_value p algorithm default_chunk_size m m' Hw) as H.
  destruct (_calculate_checksum rt p algorithm default_chunk_size m') as [r1 m1].
  destruct (_calculate_checksum rt p algorithm default_chunk_size m) as [r2 m2].
  simpl in H. subst r2.
  destruct r1 as [actual|e]; [|reflexivity].
  destruct (negb _); reflexivity.
Qed.

(** [_validate_model_file] reads the world, and writes at most the
    checksum map and one checksum event. *)
Lemma validate_model_file_machine config m :
  exists evs cks,
    snd (_validate_model_file rt config m) =
      {| self := with_model_checksums (self m) cks; world := world m;
         trace := (trace m ++ evs)%list |} /\
    (evs = [] \/ evs = [EvChecksum (path config) (checksum_algorithm config)]) /\
    (checksum_requested (self m) config = None ->
       evs = [] /\ cks = model_checksums (self m)) /\
    (fst (fst (_validate_model_file rt config m)) = false ->
       cks = model_checksums (self m)) /\
    (forall k, k <> name config -> get cks k = get (model_checksums (self m)) k).
Proof.
  unfold _validate_model_file, bind, gets.
  destruct (_validate_file_exists rt (world m) (path config)) as [ok msg].
  destruct ok; cbn [negb].
  2:{ exists [], (model_checksums (self m)). rewrite app_nil_r.
      destruct m as [[] w tr]; cbn. auto. }
  destruct (checksum_requested (self m) config) as [expected|].
  2:{ exists [], (model_checksums (self m)). rewrite app_nil_r.
      destruct m as [[] w tr]; cbn. auto. }
  pose proof (validate_checksum_machine (path config) expected
                (checksum_algorithm config) m) as Hm.
  destruct (_validate_checksum rt (path config) expected
              (checksum_algorithm config) m) as [[[ok actual] msg'] m1].
  cbn in Hm. subst m1.
  destruct ok; cbn [negb].
  - exists [EvChecksum (path config) (checksum_algorithm config)],
           (set (model_checksums (self m)) (name config) actual).
    unfold modify_self, ret; cbn.
    repeat split; auto; try discriminate.
    intros k Hk. now apply PyDictFacts.get_set_other.
  - exists [EvChecksum (path config) (checksum_algorithm config)],
           (model_checksums (self m)).
    unfold ret; cbn. destruct m as [[] w tr]; cbn.
    repeat split; auto; discriminate.
Qed.

(** The verdict depends on the world and the checksum flag only. *)
Lemma validate_model_file_value config m m' :
  world m' = world m ->
  validate_checksums (self m') = validate_checksums (self m) ->
  fst (_validate_model_file rt config m') = fst (_validate_model_file rt config m).
Proof.
  intros Hw Hf.
  unfold _validate_model_file, bind, gets. rewrite Hw.
  destruct (_validate_file_exists rt (world m) (path config)) as [ok msg].
  destruct ok; cbn [negb]; [|reflexivity].
  replace (checksum_requested (self m') config)
    with (checksum_requested (self m) config)
    by (unfold checksum_requested; now rewrite Hf).
  destruct (checksum_requested (self m) config) as [expected|]; [|reflexivity].
  pose proof (validate_checksum_value (path config) expected
                (checksum_algorithm config) m m' Hw) as Hv.
  destruct (_validate_checksum rt (path config) expected
              (checksum_algorithm config) m') as [[[ok1 a1] e1] m1].
  destruct (_validate_checksum rt (path config) expected
              (checksum_algorithm config) m) as [[[ok2 a2] e2] m2].
  cbn in Hv. inversion Hv; subst.
  destruct ok2; reflexivity.
Qed.

(** A failed file check is the verdict, with its message. *)
Lemma validate_model_file_no_file config m :
  fst (_validate_file_exists rt (world m) (path config)) = false ->
  fst (_validate_model_file rt config m) =
  (false, snd (_validate_file_exists rt (world m) (path config))).
Proof.
  unfold _validate_model_file, bind, gets.
  destruct (_validate_file_exists rt (world m) (path config)) as [ok msg].
  cbn. intros ->. reflexivity.
Qed.

(** A digest that differs from the requested one is the verdict, with
    the mismatch message. *)
Lemma validate_model_file_mismatch config m expected actual :
  fst (_validate_file_exists rt (world m) (path config)) = true ->
  checksum_requested (self m) config = Some expected ->
  fst (_calculate_checksum rt (path config) (checksum_algorithm config)
         default_chunk_size m) = Ok actual ->
  PyStr.lower actual <> PyStr.lower expected ->
  fst (_validate_model_file rt config m) =
  (false, checksum_mismatch_msg expected actual).
Proof.
  intros Hfile Hreq Hsum Hne.
  unfold _validate_model_file, bind, gets.
  destruct (_validate_file_exists rt (world m) (path config)) as [ok msg].
  cbn in Hfile. subst ok. cbn [negb]. rewrite Hreq.
  unfold _validate_checksum, bind.
  destruct (_calculate_checksum rt (path config) (checksum_algorithm config)
              default_chunk_size m) as [r m1].
  cbn in Hsum. subst r.
  destruct (String.eqb_spec (PyStr.lower actual) (PyStr.lower expected));
    [contradiction|].
  reflexivity.
Qed.

(** The streaming loop does not depend on its fuel, once there is more of
    it than bytes to read. *)
Lemma update_chunks_fuel (chunk_size : nat) :
  forall fuel fuel' (unread : list Byte.byte) (h : HashObj),
    (List.length unread < fuel)%nat -> (List.length unread < fuel')%nat ->
    update_chunks rt fuel chunk_size unread h =
    update_chunks rt fuel' chunk_size unread h.
Proof.
  induction fuel as [|fuel IH]; intros fuel' unread h Hf Hf'; [lia|].
  destruct fuel' as [|fuel']; [lia|].
  cbn [update_chunks].
  destruct (firstn chunk_size unread) as [|b chunk] eqn:E; [reflexivity|].
  apply IH.
  - assert (List.length (skipn chunk_size unread) < List.length unread)%nat; [|lia].
    rewrite length_skipn.
    destruct chunk_size; [discriminate|]. destruct unread; [discriminate|].
    cbn [List.length]. lia.
  - assert (List.length (skipn chunk_size unread) < List.length unread)%nat; [|lia].
    rewrite length_skipn.
    destruct chunk_size; [discriminate|]. destruct unread; [discriminate|].
    cbn [List.length]. lia.
Qed.

(** Registration keeps every config under its own name. *)
Lemma register_model_keyed s config :
  keyed_by_name s -> keyed_by_name (register_model s config).
Proof.
  unfold keyed_by_name, register_model, items; cbn.
  intros H k c Hin. apply PyDictFacts.In_set in Hin.
  destruct Hin as [(-> & ->)|Hin]; [reflexivity | now apply H].
Qed.

(** *** Traces *)

Lemma loader_calls_app (a b : list (event Handle)) :
  loader_calls (a ++ b) = (loader_calls a ++ loader_calls b)%list.
Proof. induction a as [|[] a IH]; simpl; congruence. Qed.

Lemma sleeps_app (a b : list (event Handle)) :
  sleeps (a ++ b) = (sleeps a ++ sleeps b)%list.
Proof. induction a as [|[] a IH]; simpl; congruence. Qed.

Lemma checksum_runs_app (a b : list (event Handle)) :
  checksum_runs (a ++ b) = (checksum_runs a ++ checksum_runs b)%list.
Proof. induction a as [|[] a IH]; simpl; congruence. Qed.

Lemma executors_app (a b : list (event Handle)) :
  executors (a ++ b) = (executors a ++ executors b)%list.
Proof. induction a as [|[] a IH]; simpl; congruence. Qed.

(** *** The frame of a load *)

Lemma load_frame_refl n m : load_frame n m m.
Proof.
  repeat split; auto. exists []. now rewrite app_nil_r.
Qed.

Lemma load_frame_trans n m1 m2 m3 :
  load_frame n m1 m2 -> load_frame n m2 m3 -> load_frame n m1 m3.
Proof.
  intros (Hd & Hf & Hc & Hk & evs & Ht & He) (Hd' & Hf' & Hc' & Hk' & evs' & Ht' & He').
  split; [congruence|]. split; [congruence|]. split; [congruence|]. split.
  - intros k H.
    destruct (Hk k H) as (A1 & A2 & A3 & A4), (Hk' k H) as (B1 & B2 & B3 & B4).
    repeat split; congruence.
  - exists (evs ++ evs')%list. rewrite Ht', Ht, app_assoc, executors_app, He, He'.
    auto.
Qed.

(** *** One round of the retry loop *)

(** The machine after a successful attempt. *)
Let loaded_machine config m (mdl : Handle) (w' : World)
    (tr : list (event Handle)) : Machine World Handle :=
  {| self :=
       with_model_errors
         (with_model_status
            (with_models (self m) (set (models (self m)) (name config) (Some mdl)))
            (set (model_status (self m)) (name config) LOADED))
         (pop (model_errors (self m)) (name config));
     world := w'; trace := tr |}.

(** The machine after the last attempt has failed with [e]. *)
Let failed_machine config m (e : string) (w' : World)
    (tr : list (event Handle)) : Machine World Handle :=
  {| self :=
       with_model_errors
         (with_model_status (self m) (set (model_status (self m)) (name config) FAILED))
         (set (model_errors (self m)) (name config) e);
     world := w'; trace := tr |}.

Lemma attempt_loop_nil config start m :
  attempt_loop rt config start [] m =
  ({| success := false; model := None;
      error_message := Some "Unknown error during loading";
      load_time := (time_time rt (world m) - start)%Q; checksum := None |}, m).
Proof. reflexivity. Qed.

Lemma attempt_loop_step config start a rest m out w' :
  loader_func config (path config) (kwargs_or_empty (loader_kwargs config)) (world m)
    = (out, w') ->
  attempt_loop rt config start (a :: rest) m =
  let tr := (trace m ++ [EvLoaderCall (name config) a out])%list in
  match try_body out with
  | inr mdl =>
      ({| success := true; model := Some mdl; error_message := None;
          load_time := (time_time rt w' - start)%Q;
          checksum := get (model_checksums (self m)) (name config) |},
       loaded_machine config m mdl w' tr)
  | inl e =>
      if (a =? retry_count config - 1)%Z then
        ({| success := false; model := None; error_message := Some e;
            load_time := (time_time rt w' - start)%Q; checksum := None |},
         failed_machine config m e w' tr)
      else
        attempt_loop rt config start rest
          {| self := self m; world := time_sleep rt (wait_time a) w';
             trace := (tr ++ [EvSleep (wait_time a)])%list |}
  end.
Proof.
  intros Hcall. cbn [attempt_loop]. unfold_monad. rewrite Hcall.
  destruct (try_body out) as [e|mdl]; [|reflexivity].
  destruct (a =? retry_count config - 1)%Z; reflexivity.
Qed.

Lemma loaded_machine_frame config m mdl w' tr' evs :
  tr' = (trace m ++ evs)%list -> executors evs = [] ->
  load_frame (name config) m (loaded_machine config m mdl w' tr').
Proof.
  intros -> Hex. unfold load_frame, loaded_machine; cbn.
  repeat split; auto.
  - now apply PyDictFacts.get_set_other.
  - now apply PyDictFacts.get_set_other.
  - now apply PyDictFacts.get_pop_other.
  - eauto.
Qed.

Lemma failed_machine_frame config m e w' tr' evs :
  tr' = (trace m ++ evs)%list -> executors evs = [] ->
  load_frame (name config) m (failed_machine config m e w' tr').
Proof.
  intros -> Hex. unfold load_frame, failed_machine; cbn.
  repeat split; auto.
  - now apply PyDictFacts.get_set_other.
  - now apply PyDictFacts.get_set_other.
  - eauto.
Qed.

Lemma attempt_loop_frame config start attempts :
  forall m, load_frame (name config) m (snd (attempt_loop rt config start attempts m)).
Proof.
  induction attempts as [|a rest IH]; intros m.
  - rewrite attempt_loop_nil. apply load_frame_refl.
  - destruct (loader_func config (path config)
                (kwargs_or_empty (loader_kwargs config)) (world m))
      as [out w'] eqn:Hcall.
    rewrite attempt_loop_step with (1 := Hcall). cbn zeta.
    destruct (try_body out) as [e|mdl].
    + destruct (a =? retry_count config - 1)%Z.
      * cbn [snd]. eapply failed_machine_frame; [reflexivity|reflexivity].
      * eapply load_frame_trans; [|apply IH].
        unfold load_frame; cbn. repeat split; auto.
        eexists. rewrite <- app_assoc. split; [reflexivity|reflexivity].
    + cbn [snd]. eapply loaded_machine_frame; [reflexivity|reflexivity].
Qed.

Lemma load_single_model_frame config m :
  load_frame (name config) m (snd (_load_single_model rt config m)).
Proof.
  unfold _load_single_model.
  unfold bind at 1. unfold now at 1. unfold bind at 1. unfold set_status at 1.
  unfold modify_self at 1. unfold bind at 1.
  set (m1 := {| self := with_model_status (self m)
                          (set (model_status (self m)) (name config) LOADING);
                world := world m; trace := trace m |}).
  assert (F1 : load_frame (name config) m m1).
  { unfold load_frame, m1; cbn. repeat split; auto.
    - now apply PyDictFacts.get_set_other.
    - exists []. now rewrite app_nil_r. }
  destruct (validate_model_file_machine config m1)
    as (evs & cks & Hm & Hevs & _ & _ & Hcks).
  destruct (_validate_model_file rt config m1) as [[ok msg] m2].
  cbn [fst snd] in Hm.
  assert (F2 : load_frame (name config) m1 m2).
  { subst m2. unfold load_frame; cbn. repeat split; auto.
    exists evs. split; auto. destruct Hevs as [->| ->]; reflexivity. }
  destruct ok; cbn [negb].
  - eapply load_frame_trans; [exact F1|].
    eapply load_frame_trans; [exact F2|]. apply attempt_loop_frame.
  - eapply load_frame_trans; [exact F1|].
    eapply load_frame_trans; [exact F2|].
    unfold_monad; cbn. unfold load_frame; cbn. repeat split; auto.
    + now apply PyDictFacts.get_set_other.
    + now apply PyDictFacts.get_set_other.
    + exists []. now rewrite app_nil_r.
Qed.

(** The retry loop computes no checksum and leaves the checksum map alone. *)
Lemma attempt_loop_no_checksum config start attempts :
  forall m,
    let m' := snd (attempt_loop rt config start attempts m) in
    model_checksums (self m') = model_checksums (self m) /\
    exists evs, trace m' = (trace m ++ evs)%list /\ checksum_runs evs = [].
Proof.
  induction attempts as [|a rest IH]; intros m; cbv zeta.
  - rewrite attempt_loop_nil. cbn. split; auto. exists []. now rewrite app_nil_r.
  - destruct (loader_func config (path config)
                (kwargs_or_empty (loader_kwargs config)) (world m))
      as [out w'] eqn:Hcall.
    rewrite attempt_loop_step with (1 := Hcall). cbn zeta.
    destruct (try_body out) as [e|mdl].
    + destruct (a =? retry_count config - 1)%Z.
      * cbn. split; auto. eexists; split; [reflexivity|reflexivity].
      * specialize (IH {| self := self m; world := time_sleep rt (wait_time a) w';
                          trace := ((trace m ++ [EvLoaderCall (name config) a out]) ++
                                    [EvSleep (wait_time a)])%list |}).
        cbv zeta in IH. cbn [self trace] in IH.
        destruct IH as (Hck & evs & Ht & Hruns). split; [exact Hck|].
        exists ([EvLoaderCall (name config) a out; EvSleep (wait_time a)] ++ evs)%list.
        rewrite Ht. rewrite <- !app_assoc. cbn. auto.
    + cbn. split; auto. eexists; split; [reflexivity|reflexivity].
Qed.

(** A successful run of the retry loop leaves the handle stored, the
    status LOADED and no error for the name. *)
Lemma attempt_loop_success config start attempts :
  forall m,
    let r := fst (attempt_loop rt config start attempts m) in
    let m' := snd (attempt_loop rt config start attempts m) in
    success r = true ->
    get (model_errors (self m')) (name config) = None /\
    get (model_status (self m')) (name config) = Some LOADED /\
    exists h, model r = Some h /\
              get (models (self m')) (name config) = Some (Some h).
Proof.
  induction attempts as [|a rest IH]; intros m; cbv zeta.
  - rewrite attempt_loop_nil. cbn. discriminate.
  - destruct (loader_func config (path config)
                (kwargs_or_empty (loader_kwargs config)) (world m))
      as [out w'] eqn:Hcall.
    rewrite attempt_loop_step with (1 := Hcall). cbn zeta.
    destruct (try_body out) as [e|mdl].
    + destruct (a =? retry_count config - 1)%Z.
      * cbn. discriminate.
      * intros Hs. apply IH in Hs. exact Hs.
    + intros _. cbn. split; [apply PyDictFacts.get_pop_same|].
      split; [apply PyDictFacts.get_set_same|].
      exists mdl. split; [reflexivity | apply PyDictFacts.get_set_same].
Qed.

End LoaderFacts.

(** ** Health verdict *)

Section Health.

Variables World Handle : Type.

Implicit Types (s : ModelLoader World Handle).

Lemma sum_bools_bounds (flags : list bool) :
  0 <= sum_bools flags <= Z.of_nat (List.length flags).
Proof.
  induction flags as [|b rest IH]; cbn [sum_bools List.length]; [lia|].
  destruct b; cbn [Z.b2z]; lia.
Qed.

(** The sum reaches the length exactly when every flag is set. *)
Lemma sum_bools_full (flags : list bool) :
  sum_bools flags = Z.of_nat (List.length flags) <->
  forall b, In b flags -> b = true.
Proof.
  induction flags as [|b rest IH]; cbn [sum_bools List.length In].
  - split; [tauto | reflexivity].
  - pose proof (sum_bools_bounds rest) as Hb.
    destruct b; cbn [Z.b2z].
    + split.
      * intros H x [<-|Hin]; [reflexivity|]. apply IH; [lia | exact Hin].
      * intros H. assert (sum_bools rest = Z.of_nat (List.length rest)) by (apply IH; auto).
        lia.
    + split; [lia|]. intros H. specialize (H false (or_introl eq_refl)). discriminate.
Qed.

Lemma models_status_values s :
  values (models_status_of s) = map (is_model_loaded s) (keys (model_configs s)).
Proof.
  unfold values, models_status_of. rewrite map_map. reflexivity.
Qed.

Lemma models_status_get s n :
  In n (keys (model_configs s)) ->
  get_default (models_status_of s) n false = is_model_loaded s n.
Proof.
  unfold get_default, models_status_of.
  induction (keys (model_configs s)) as [|k ks IH]; cbn [map In get]; [tauto|].
  destruct (String.eqb_spec n k) as [->|Hne]; [reflexivity|].
  intros [Heq|Hin]; [congruence | auto].
Qed.

(** The names [get_health_status] reports as missing are the required
    registered models that are not loaded. *)
Lemma missing_required_of_spec s n :
  In n (missing_required_of s (models_status_of s)) <->
  exists c, In (n, c) (items (model_configs s)) /\ required c = true /\
            is_model_loaded s n = false.
Proof.
  unfold missing_required_of, required_models_of, items.
  rewrite filter_In, in_map_iff. split.
  - intros ((kv & <- & Hin) & Hneg). apply filter_In in Hin. destruct Hin as (Hin & Hreq).
    destruct kv as [k c]. cbn [fst snd] in *.
    exists c. repeat split; auto.
    rewrite models_status_get in Hneg.
    + now apply negb_true_iff.
    + unfold keys. apply in_map_iff. now exists (k, c).
  - intros (c & Hin & Hreq & Hload). split.
    + exists (n, c). split; [reflexivity|]. apply filter_In. auto.
    + rewrite models_status_get.
      * now rewrite Hload.
      * unfold keys. apply in_map_iff. now exists (n, c).
Qed.

(** C1. [get_health_status] decides its verdict in strict priority order:
    "healthy" exactly when [loaded_count] equals [total_count]; "unhealthy"
    whenever some required registered model is not loaded, however many
    others are; otherwise "degraded" when [loaded_count > 0]; otherwise
    "unhealthy".  A missing required model is never reported as
    "degraded".  The counts are those of the registered names. *)
Theorem health_verdict_priority s :
  let h := get_health_status s in
  let required_missing :=
    exists n c, In (n, c) (items (model_configs s)) /\ required c = true /\
                is_model_loaded s n = false in
  loaded_count h = sum_bools (map (is_model_loaded s) (keys (model_configs s))) /\
  total_count h = len (model_configs s) /\
  (status h = "healthy" <-> loaded_count h = total_count h) /\
  (required_missing -> status h = "unhealthy") /\
  (loaded_count h <> total_count h -> ~ required_missing ->
     loaded_count h > 0 -> status h = "degraded") /\
  (loaded_count h <> total_count h -> ~ required_missing ->
     loaded_count h = 0 -> status h = "unhealthy") /\
  (required_missing -> status h <> "degraded").
Proof.
  cbv zeta.
  assert (Hmiss : (exists n c, In (n, c) (items (model_configs s)) /\ required c = true /\
                     is_model_loaded s n = false) <->
                  missing_required_of s (models_status_of s) <> []).
  { split.
    - intros (n & c & H) Hnil.
      assert (Hin : In n (missing_required_of s (models_status_of s)))
        by (apply missing_required_of_spec; eauto).
      rewrite Hnil in Hin. destruct Hin.
    - intros Hne. destruct (missing_required_of s (models_status_of s)) as [|n l] eqn:E;
        [congruence|].
      assert (Hin : In n (missing_required_of s (models_status_of s)))
        by (rewrite E; now left).
      apply missing_required_of_spec in Hin. destruct Hin as (c & H). eauto. }
  assert (Hlen : len (models_status_of s) = len (model_configs s)).
  { unfold len, models_status_of, keys. now rewrite !length_map. }
  assert (Hdom : (exists n c, In (n, c) (items (model_configs s)) /\ required c = true /\
                     is_model_loaded s n = false) ->
                 sum_bools (values (models_status_of s)) <> len (models_status_of s)).
  { intros (n & c & Hin & _ & Hload) Heq.
    rewrite models_status_values in Heq.
    unfold len, models_status_of in Heq. rewrite length_map in Heq.
    rewrite <- (length_map (is_model_loaded s)) in Heq.
    apply sum_bools_full with (b := is_model_loaded s n) in Heq.
    - congruence.
    - apply in_map. unfold keys. apply in_map_iff. now exists (n, c). }
  unfold get_health_status.
  rewrite models_status_values in *. rewrite Hlen in *.
  set (lc := sum_bools (map (is_model_loaded s) (keys (model_configs s)))) in *.
  set (mr := missing_required_of s (models_status_of s)) in *.
  destruct (lc =? len (model_configs s))%Z eqn:Eh.
  - apply Z.eqb_eq in Eh. cbn [status loaded_count total_count].
    assert (Hnone : ~ (exists n c, In (n, c) (items (model_configs s)) /\
                         required c = true /\ is_model_loaded s n = false))
      by (intros H; apply Hdom in H; contradiction).
    repeat split; intros; auto; try discriminate; try contradiction.
  - apply Z.eqb_neq in Eh.
    destruct mr as [|n0 rest] eqn:Emr.
    + assert (Hnone : ~ (exists n c, In (n, c) (items (model_configs s)) /\
                           required c = true /\ is_model_loaded s n = false))
        by (rewrite Hmiss; tauto).
      destruct (lc >? 0)%Z eqn:Eg; cbn [status loaded_count total_count].
      * apply Z.gtb_lt in Eg.
        repeat split; intros; auto; try discriminate; try contradiction; try lia.
      * rewrite Z.gtb_ltb in Eg. apply Z.ltb_ge in Eg.
        repeat split; intros; auto; try discriminate; try contradiction; try lia.
    + assert (Hsome : exists n c, In (n, c) (items (model_configs s)) /\
                        required c = true /\ is_model_loaded s n = false)
        by (apply Hmiss; discriminate).
      cbn [status loaded_count total_count].
      repeat split; intros; auto; try discriminate; try contradiction.
Qed.

End Health.

(** ** Registration and lookup *)

Section Registry.

Variables World Handle : Type.

Implicit Types (s : ModelLoader World Handle) (config : ModelConfig World Handle).

(** C10. Registering under a name that is already registered replaces the
    config in place and puts the status back to NOT_LOADED; it touches no
    other map (a stored handle, a recorded error and a recorded checksum
    of that name stay) and no other name. *)
Theorem register_model_overwrites s config :
  let s' := register_model s config in
  get (model_configs s') (name config) = Some config /\
  get (model_status s') (name config) = Some NOT_LOADED /\
  models s' = models s /\
  model_errors s' = model_errors s /\
  model_checksums s' = model_checksums s /\
  model_dir s' = model_dir s /\
  validate_checksums s' = validate_checksums s /\
  (forall k, k <> name config ->
     get (model_configs s') k = get (model_configs s) k /\
     get (model_status s') k = get (model_status s) k) /\
  (mem (model_configs s) (name config) = true ->
     keys (model_configs s') = keys (model_configs s)).
Proof.
  cbv zeta. unfold register_model; cbn.
  repeat split; auto.
  - apply PyDictFacts.get_set_same.
  - apply PyDictFacts.get_set_same.
  - now apply PyDictFacts.get_set_other.
  - now apply PyDictFacts.get_set_other.
  - apply PyDictFacts.keys_set_present.
Qed.

(** C9. [get_model] raises ValueError exactly for a name that is not
    registered, and the message lists the registered names; for a
    registered name without a stored handle it raises RuntimeError with
    the current status and the recorded error detail; it returns exactly a
    stored handle, and never [None]. *)
Theorem get_model_outcomes s model_name :
  let registered := mem (model_configs s) model_name = true in
  let stored := get_default (models s) model_name None in
  ((exists msg, get_model s model_name = Raise (ValueError msg)) <-> ~ registered) /\
  (~ registered ->
     get_model s model_name =
     Raise (ValueError ("Unknown model: '" ++ model_name ++ "'. Available models: " ++
                        PyStr.join ", " (keys (model_configs s))))) /\
  (registered -> stored = None ->
     get_model s model_name =
     Raise (RuntimeError
       ("Model '" ++ model_name ++ "' is not available (status: " ++
        status_value (get_default (model_status s) model_name NOT_LOADED) ++ "). " ++
        "Loading failed with: " ++
        get_default (model_errors s) model_name "Unknown error"))) /\
  (forall v, get_model s model_name = Ok v <->
             registered /\ stored = v /\ exists h, v = Some h) /\
  get_model s model_name <> Ok None.
Proof.
  cbv zeta. unfold get_model.
  destruct (mem (model_configs s) model_name) eqn:Hreg; cbn [negb].
  - destruct (get_default (models s) model_name None) as [h|] eqn:Hget.
    + split; [|split; [|split; [|split]]].
      * split; [intros (msg & H); discriminate | intros H; now contradiction H].
      * intros H; now contradiction H.
      * discriminate.
      * intros v; split.
        -- intros H; inversion H; subst. eauto.
        -- intros (_ & <- & _). reflexivity.
      * discriminate.
    + split; [|split; [|split; [|split]]].
      * split; [intros (msg & H); discriminate | intros H; now contradiction H].
      * intros H; now contradiction H.
      * reflexivity.
      * intros v; split; [discriminate|].
        intros (_ & <- & h & Hh). discriminate.
      * discriminate.
  - split; [|split; [|split; [|split]]].
    + split; [discriminate | eauto].
    + reflexivity.
    + discriminate.
    + intros v; split; [discriminate | intros (H & _); discriminate].
    + discriminate.
Qed.

End Registry.

(** ** Loading one model *)

Section SingleLoad.

Variables World Handle HashObj : Type.
Variable rt : Runtime World HashObj.

Implicit Types (m : Machine World Handle) (s : ModelLoader World Handle).
Implicit Types (config : ModelConfig World Handle).

(** The machine once the status has been set to LOADING. *)
Let loading_machine config m : Machine World Handle :=
  {| self := with_model_status (self m)
               (set (model_status (self m)) (name config) LOADING);
     world := world m; trace := trace m |}.

(** [_load_single_model], by the verdict of the validation. *)
Lemma load_single_model_cases config m ok msg m2 :
  _validate_model_file rt config (loading_machine config m) = ((ok, msg), m2) ->
  _load_single_model rt config m =
  if ok then
    attempt_loop rt config (time_time rt (world m)) (range (retry_count config)) m2
  else
    ({| success := false; model := None; error_message := Some msg;
        load_time := (time_time rt (world m2) - time_time rt (world m))%Q;
        checksum := None |},
     {| self :=
          with_model_errors
            (with_model_status (self m2)
               (set (model_status (self m2)) (name config) FAILED))
            (set (model_errors (self m2)) (name config) msg);
        world := world m2; trace := trace m2 |}).
Proof.
  intros Hv. unfold _load_single_model.
  unfold bind at 1. unfold now at 1. unfold bind at 1.
  unfold set_status at 1. unfold modify_self at 1. unfold bind at 1.
  fold (loading_machine config m). rewrite Hv.
  destruct ok; reflexivity.
Qed.

(** The verdict is the same before and after the status is set. *)
Lemma loading_machine_verdict config m :
  fst (_validate_model_file rt config (loading_machine config m)) =
  fst (_validate_model_file rt config m).
Proof. apply validate_model_file_value; reflexivity. Qed.

(** C3. When the validation of a config fails (the file check, or the
    checksum check when it is enabled), [_load_single_model] never calls
    the loader capability and never sleeps: it records FAILED and the
    validation message for that name and returns an unsuccessful result
    carrying the same message.  Handles and the world stay as they were. *)
Theorem validation_failure_is_terminal config m msg :
  fst (_validate_model_file rt config m) = (false, msg) ->
  let r := fst (_load_single_model rt config m) in
  let m' := snd (_load_single_model rt config m) in
  success r = false /\ model r = None /\ error_message r = Some msg /\
  get (model_status (self m')) (name config) = Some FAILED /\
  get (model_errors (self m')) (name config) = Some msg /\
  models (self m') = models (self m) /\
  world m' = world m /\
  exists evs, trace m' = (trace m ++ evs)%list /\
              loader_calls evs = [] /\ sleeps evs = [].
Proof.
  intros Hfail. cbv zeta.
  rewrite <- loading_machine_verdict in Hfail.
  destruct (validate_model_file_machine rt config (loading_machine config m))
    as (evs & cks & Hm & Hevs & _).
  destruct (_validate_model_file rt config (loading_machine config m))
    as [[ok msg'] m2] eqn:Hv.
  cbn [fst snd] in Hfail, Hm. inversion Hfail; subst ok msg'.
  rewrite (load_single_model_cases _ _ Hv). cbn [fst snd]. subst m2.
  cbn. repeat split.
  - apply PyDictFacts.get_set_same.
  - apply PyDictFacts.get_set_same.
  - exists evs. destruct Hevs as [->| ->]; auto.
Qed.

Lemma checksum_requested_on s config expected :
  validate_checksums s = true -> expected_checksum config = Some expected ->
  expected <> EmptyString -> checksum_requested s config = Some expected.
Proof.
  intros Hf He Hne. unfold checksum_requested. rewrite Hf, He.
  destruct expected; [contradiction | reflexivity].
Qed.

Lemma checksum_requested_off s config :
  validate_checksums s = false \/ expected_checksum config = None \/
  expected_checksum config = Some EmptyString ->
  checksum_requested s config = None.
Proof.
  unfold checksum_requested.
  intros [->|[->| ->]]; [reflexivity| |]; destruct (validate_checksums s); reflexivity.
Qed.

Lemma mismatch_msg_wording expected actual :
  PyStr.mentions (checksum_mismatch_msg expected actual) "mismatch" /\
  PyStr.mentions (checksum_mismatch_msg expected actual) "corrupted".
Proof.
  unfold checksum_mismatch_msg. split.
  - exists "Checksum ", ("! Expected: " ++ expected ++ ", Got: " ++ actual ++ ". " ++
                         "File may be corrupted or tampered with.").
    reflexivity.
  - apply (PyStrFacts.mentions_prepend "Checksum mismatch! Expected: ").
    do 4 apply PyStrFacts.mentions_prepend.
    exists "File may be ", " or tampered with.". reflexivity.
Qed.

(** C5. With checksum validation in effect (the flag is set and the config
    carries a non-empty expected digest), a readable artifact whose digest
    differs from the expected one up to letter case makes the load fail
    with the mismatch message (it mentions "mismatch" and "corrupted"); no
    handle is stored and the loader capability is not called.  Without the
    flag or the expected digest no checksum is computed and none is
    recorded. *)
Theorem checksum_gate config m :
  let r := fst (_load_single_model rt config m) in
  let m' := snd (_load_single_model rt config m) in
  (forall expected actual,
     validate_checksums (self m) = true ->
     expected_checksum config = Some expected -> expected <> EmptyString ->
     fst (_validate_file_exists rt (world m) (path config)) = true ->
     fst (_calculate_checksum rt (path config) (checksum_algorithm config)
            default_chunk_size m) = Ok actual ->
     PyStr.lower actual <> PyStr.lower expected ->
     success r = false /\ model r = None /\
     error_message r = Some (checksum_mismatch_msg expected actual) /\
     PyStr.mentions (checksum_mismatch_msg expected actual) "mismatch" /\
     PyStr.mentions (checksum_mismatch_msg expected actual) "corrupted" /\
     get (model_status (self m')) (name config) = Some FAILED /\
     models (self m') = models (self m) /\
     exists evs, trace m' = (trace m ++ evs)%list /\ loader_calls evs = []) /\
  (validate_checksums (self m) = false \/ expected_checksum config = None \/
   expected_checksum config = Some EmptyString ->
     model_checksums (self m') = model_checksums (self m) /\
     exists evs, trace m' = (trace m ++ evs)%list /\ checksum_runs evs = []).
Proof.
  cbv zeta.
  destruct (validate_model_file_machine rt config (loading_machine config m))
    as (evs & cks & Hm & Hevs & Hoff & _).
  pose proof (loading_machine_verdict config m) as Hsame.
  destruct (_validate_model_file rt config (loading_machine config m))
    as [[ok msg] m2] eqn:Hv.
  cbn [fst snd] in Hm, Hsame.
  rewrite (load_single_model_cases _ _ Hv). subst m2. split.
  - intros expected actual Hflag Hexp Hne Hfile Hsum Hdiff.
    rewrite (validate_model_file_mismatch rt config m Hfile
               (checksum_requested_on _ _ Hflag Hexp Hne) Hsum Hdiff) in Hsame.
    inversion Hsame; subst ok msg. cbn.
    destruct (mismatch_msg_wording expected actual) as (W1 & W2).
    repeat split; auto.
    + apply PyDictFacts.get_set_same.
    + exists evs. destruct Hevs as [->| ->]; auto.
  - intros Hoff'. apply checksum_requested_off with (s := self m) in Hoff'.
    destruct Hoff as (-> & ->); [exact Hoff'|].
    rewrite app_nil_r. destruct ok.
    + pose proof (attempt_loop_no_checksum rt config (time_time rt (world m))
                    (range (retry_count config))
                    {| self := with_model_checksums (self (loading_machine config m))
                                 (model_checksums (self (loading_machine config m)));
                       world := world (loading_machine config m);
                       trace := trace (loading_machine config m) |}) as H.
      cbv zeta in H. cbn [self trace model_checksums with_model_checksums] in H.
      exact H.
    + cbn. split; auto. exists []. now rewrite app_nil_r.
Qed.

(** C8. A load that succeeds leaves no recorded error for that name,
    whatever was recorded before (so also on a reload after a failure);
    the handle it returns is the one stored and the status is LOADED. *)
Theorem success_clears_error config m :
  let r := fst (_load_single_model rt config m) in
  let m' := snd (_load_single_model rt config m) in
  success r = true ->
  get (model_errors (self m')) (name config) = None /\
  mem (model_errors (self m')) (name config) = false /\
  get (model_status (self m')) (name config) = Some LOADED /\
  exists h, model r = Some h /\
            get (models (self m')) (name config) = Some (Some h).
Proof.
  cbv zeta.
  destruct (_validate_model_file rt config (loading_machine config m))
    as [[ok msg] m2] eqn:Hv.
  rewrite (load_single_model_cases _ _ Hv).
  destruct ok; [|cbn; discriminate].
  intros Hs.
  destruct (attempt_loop_success rt config (time_time rt (world m))
              (range (retry_count config)) m2 Hs) as (He & Hst & Hh).
  unfold mem. rewrite He. auto.
Qed.

Lemma attempt_failed_text (out : loader_outcome Handle) :
  attempt_failed out -> exists e, try_body out = inl e.
Proof.
  destruct out as [[h|]|text]; cbn; [tauto | eauto | eauto].
Qed.

Lemma wait_time_doubles (i : Z) :
  0 <= i -> (wait_time (i + 1) == 2 * wait_time i)%Q.
Proof.
  intros Hi. unfold wait_time.
  rewrite Z.pow_add_r by lia. rewrite inject_Z_mult.
  change (inject_Z (2 ^ 1)) with 2%Q. ring.
Qed.

(** *** Where a load leaves the status *)

(** With at least one attempt to run, the retry loop ends LOADED or FAILED. *)
Lemma attempt_loop_settles config start :
  forall n k m,
    Z.of_nat (k + S n) = retry_count config ->
    settled (get (model_status
                    (self (snd (attempt_loop rt config start
                                  (map Z.of_nat (seq k (S n))) m))))
               (name config)).
Proof.
  induction n as [|n IH]; intros k m Hk.
  - cbn [seq map].
    destruct (loader_func config (path config)
                (kwargs_or_empty (loader_kwargs config)) (world m))
      as [out w'] eqn:Hcall.
    rewrite attempt_loop_step with (1 := Hcall). cbn zeta.
    destruct (try_body out) as [e|mdl].
    + replace (Z.of_nat k =? retry_count config - 1)%Z with true
        by (symmetry; apply Z.eqb_eq; lia).
      right. cbn. apply PyDictFacts.get_set_same.
    + left. cbn. apply PyDictFacts.get_set_same.
  - change (seq k (S (S n))) with (k :: seq (S k) (S n)). cbn [map].
    destruct (loader_func config (path config)
                (kwargs_or_empty (loader_kwargs config)) (world m))
      as [out w'] eqn:Hcall.
    rewrite attempt_loop_step with (1 := Hcall). cbn zeta.
    destruct (try_body out) as [e|mdl].
    + replace (Z.of_nat k =? retry_count config - 1)%Z with false
        by (symmetry; apply Z.eqb_neq; lia).
      apply IH. lia.
    + left. cbn. apply PyDictFacts.get_set_same.
Qed.

(** A config with a positive retry count ends LOADED or FAILED. *)
Lemma load_single_model_settles config m :
  1 <= retry_count config ->
  settled (get (model_status (self (snd (_load_single_model rt config m))))
             (name config)).
Proof.
  intros HR.
  destruct (_validate_model_file rt config (loading_machine config m))
    as [[ok msg] m2] eqn:Hv.
  rewrite (load_single_model_cases _ _ Hv).
  destruct ok.
  - unfold range. destruct (Z.to_nat (retry_count config)) as [|n] eqn:Hn; [lia|].
    apply attempt_loop_settles. lia.
  - right. cbn. apply PyDictFacts.get_set_same.
Qed.

(** A config whose retry count is not positive and whose validation
    passes runs no attempt: the result is unsuccessful, yet the status
    stays LOADING and no error is recorded. *)
Lemma load_single_model_no_attempts config m :
  retry_count config <= 0 ->
  fst (fst (_validate_model_file rt config m)) = true ->
  let r := fst (_load_single_model rt config m) in
  let m' := snd (_load_single_model rt config m) in
  success r = false /\
  error_message r = Some "Unknown error during loading" /\
  get (model_status (self m')) (name config) = Some LOADING /\
  model_errors (self m') = model_errors (self m).
Proof.
  intros HR Hvalid. cbv zeta.
  rewrite <- loading_machine_verdict in Hvalid.
  destruct (validate_model_file_machine rt config (loading_machine config m))
    as (evs & cks & Hm & _).
  destruct (_validate_model_file rt config (loading_machine config m))
    as [[ok msg] m2] eqn:Hv.
  cbn [fst snd] in Hvalid, Hm. subst ok.
  rewrite (load_single_model_cases _ _ Hv).
  unfold range. replace (Z.to_nat (retry_count config)) with 0%nat by lia.
  cbn [seq map]. rewrite attempt_loop_nil. subst m2. cbn.
  repeat split; auto. apply PyDictFacts.get_set_same.
Qed.

End SingleLoad.

(** ** Loading all models *)

Section AllLoads.

Variables World Handle HashObj : Type.
Variable rt : Runtime World HashObj.

Implicit Types (m : Machine World Handle) (s : ModelLoader World Handle).
Implicit Types (config : ModelConfig World Handle).
Implicit Types (results : dict (ModelLoadResult Handle)).

(** A run of loads keeps the registry and the settings, and creates no pool. *)
Lemma load_each_registry (configs : list (ModelConfig World Handle)) :
  forall results m,
    let m' := snd (load_each rt configs results m) in
    model_configs (self m') = model_configs (self m) /\
    model_dir (self m') = model_dir (self m) /\
    validate_checksums (self m') = validate_checksums (self m) /\
    exists evs, trace m' = (trace m ++ evs)%list /\ executors evs = [].
Proof.
  induction configs as [|config rest IH]; intros results m; cbv zeta.
  - cbn. repeat split; auto. exists []. now rewrite app_nil_r.
  - cbn [load_each]. unfold bind.
    pose proof (load_single_model_frame rt config m) as F.
    destruct (_load_single_model rt config m) as [r m1]. cbn [snd] in F.
    destruct F as (Hd & Hf & Hc & _ & evs & Ht & He).
    specialize (IH (set results (name config) r) m1). cbv zeta in IH.
    destruct IH as (Hc' & Hd' & Hf' & evs' & Ht' & He').
    repeat split; try congruence.
    exists (evs ++ evs')%list. rewrite Ht', Ht, app_assoc, executors_app, He, He'.
    auto.
Qed.

(** The machine after the directory check of [load_all_models]. *)
Let checked_dir m : Machine World Handle :=
  if negb (path_exists rt (world m) (model_dir (self m))) then
    {| self := self m; world := mkdir rt (model_dir (self m)) (world m);
       trace := (trace m ++ [EvMkdir (model_dir (self m))])%list |}
  else m.

(** The machine after the pool has been created. *)
Let pool_requested m (max_workers : option Z) : Machine World Handle :=
  {| self := self (checked_dir m); world := world (checked_dir m);
     trace := (trace (checked_dir m) ++
               [EvExecutor (executor_max_workers (self m) max_workers)])%list |}.

(** [load_phase], step by step. *)
Lemma load_phase_steps parallel max_workers completion m :
  load_phase rt parallel max_workers completion m =
  if (parallel && (1 <? len (model_configs (self m)))%Z)%bool then
    if (executor_max_workers (self m) max_workers <=? 0)%Z then
      (Raise (ValueError "max_workers must be greater than 0"), checked_dir m)
    else
      let run := load_each rt (as_completed completion (values (model_configs (self m))))
                   empty (pool_requested m max_workers) in
      (Ok (fst run), snd run)
  else
    let run := load_each rt (values (model_configs (self m))) empty (checked_dir m) in
    (Ok (fst run), snd run).
Proof.
  unfold load_phase, pool_requested, checked_dir, ThreadPoolExecutor.
  unfold_monad. cbn [self world trace].
  destruct (negb (path_exists rt (world m) (model_dir (self m))));
    destruct (parallel && (1 <? len (model_configs (self m)))%Z)%bool;
    try destruct (executor_max_workers (self m) max_workers <=? 0)%Z;
    cbn [self world trace];
    try match goal with
        | |- context [load_each rt ?cs ?res ?mm] => destruct (load_each rt cs res mm)
        end;
    reflexivity.
Qed.

Lemma checked_dir_registry m :
  self (checked_dir m) = self m /\
  exists evs, trace (checked_dir m) = (trace m ++ evs)%list /\
              executors evs = [] /\ loader_calls evs = [].
Proof.
  unfold checked_dir. destruct (negb _); cbn.
  - split; auto. exists [EvMkdir (model_dir (self m))]. auto.
  - split; auto. exists []. now rewrite app_nil_r.
Qed.

(** The pool of [load_phase]: one executor in the parallel branch when
    the constructor accepts the size [executor_max_workers] computes, and
    none otherwise; the registry is left as it is. *)
Lemma load_phase_registry parallel max_workers completion m :
  let m' := snd (load_phase rt parallel max_workers completion m) in
  model_configs (self m') = model_configs (self m) /\
  exists evs,
    trace m' = (trace m ++ evs)%list /\
    executors evs =
      if (parallel && (1 <? len (model_configs (self m)))%Z)%bool
      then
        if (executor_max_workers (self m) max_workers <=? 0)%Z then []
        else [executor_max_workers (self m) max_workers]
      else [].
Proof.
  cbv zeta. rewrite load_phase_steps. cbv zeta.
  destruct (checked_dir_registry m) as (Hs0 & evs0 & Ht0 & He0 & _).
  destruct (parallel && (1 <? len (model_configs (self m)))%Z)%bool.
  - destruct (executor_max_workers (self m) max_workers <=? 0)%Z; cbn [snd].
    + rewrite Hs0. split; [reflexivity|]. exists evs0. auto.
    + destruct (load_each_registry
                  (as_completed completion (values (model_configs (self m))))
                  empty (pool_requested m max_workers))
        as (Hc & _ & _ & evs & Ht & He).
      change (self (pool_requested m max_workers)) with (self (checked_dir m)) in Hc.
      change (trace (pool_requested m max_workers))
        with (trace (checked_dir m) ++
              [EvExecutor (executor_max_workers (self m) max_workers)])%list in Ht.
      split; [congruence|].
      exists (evs0 ++ [EvExecutor (executor_max_workers (self m) max_workers)] ++ evs)%list.
      rewrite Ht, Ht0. rewrite <- !app_assoc. split; [reflexivity|].
      rewrite !executors_app, He0, He. reflexivity.
  - cbn [snd].
    destruct (load_each_registry (values (model_configs (self m))) empty (checked_dir m))
      as (Hc & _ & _ & evs & Ht & He).
    split; [congruence|].
    exists (evs0 ++ evs)%list. rewrite Ht, Ht0, <- app_assoc. split; [reflexivity|].
    now rewrite executors_app, He0, He.
Qed.

(** [load_all_models] is the load phase followed by the gate. *)
Lemma load_all_models_gate parallel max_workers completion m :
  load_all_models rt parallel max_workers completion m =
  let m1 := snd (load_phase rt parallel max_workers completion m) in
  (match fst (load_phase rt parallel max_workers completion m) with
   | Raise e => Raise e
   | Ok results =>
       match _validate_required_models (self m1) results with
       | Raise e => Raise e
       | Ok _ => Ok results
       end
   end, m1).
Proof.
  unfold load_all_models, bind, gets.
  destruct (load_phase rt parallel max_workers completion m) as [[results|e] m1];
    cbn [fst snd]; [|reflexivity].
  destruct (_validate_required_models (self m1) results); reflexivity.
Qed.

(** *** The gate *)

Lemma missing_required_results_spec s results n :
  In n (missing_required_results s results) <-> required_failed s results n.
Proof.
  unfold missing_required_results, required_failed, items.
  rewrite in_map_iff. split.
  - intros ([k c] & <- & Hin). apply filter_In in Hin. cbn [fst snd] in *.
    destruct Hin as (Hin & Hb). apply andb_true_iff in Hb. destruct Hb as (Hr & Hs).
    apply negb_true_iff in Hs. eauto.
  - intros (c & Hin & Hr & Hs). exists (n, c). split; [reflexivity|].
    apply filter_In. split; [exact Hin|]. cbn [fst snd]. now rewrite Hr, Hs.
Qed.

Lemma no_success_spec results :
  existsb (@success Handle) (values results) = false <-> none_succeeded results.
Proof.
  unfold none_succeeded, values, items. split.
  - intros H n r Hin. destruct (success r) eqn:Hs; [|reflexivity].
    assert (existsb (@success Handle) (map snd results) = true); [|congruence].
    apply existsb_exists. exists r. split; [|exact Hs].
    apply in_map_iff. now exists (n, r).
  - intros H. destruct (existsb (@success Handle) (map snd results)) eqn:E; [|reflexivity].
    apply existsb_exists in E. destruct E as (r & Hin & Hs).
    apply in_map_iff in Hin. destruct Hin as ([n r'] & <- & Hin).
    cbn [snd] in Hs. rewrite (H n r' Hin) in Hs. discriminate.
Qed.

Lemma critical_msg_distinct (missing : list string) :
  critical_models_msg missing <> no_models_msg.
Proof. unfold critical_models_msg, no_models_msg. cbn. discriminate. Qed.

(** *** Statuses after all loads *)

Lemma take_nth_In (A : Type) (k : nat) (l : list A) x rest :
  take_nth k l = Some (x, rest) -> forall y, In y l <-> y = x \/ In y rest.
Proof.
  revert k x rest. induction l as [|a l IH]; intros k x rest; cbn [take_nth];
    [intros H; discriminate H|].
  destruct k as [|k].
  - intros H; inversion H; subst. intros y. cbn. intuition congruence.
  - destruct (take_nth k l) as [[y' rest']|] eqn:E; [|discriminate].
    intros H; inversion H; subst. intros y. cbn.
    rewrite (IH _ _ _ E y). intuition congruence.
Qed.

Lemma take_nth_some (A : Type) (k : nat) (l : list A) :
  (k < List.length l)%nat -> exists x rest, take_nth k l = Some (x, rest).
Proof.
  revert k. induction l as [|a l IH]; intros k; cbn [List.length take_nth]; [lia|].
  destruct k as [|k]; [eauto|].
  intros Hk. destruct (IH k) as (x & rest & ->); [lia|]. eauto.
Qed.

(** Completion order holds the same tasks as submission order. *)
Lemma as_completed_In (A : Type) (completion : list nat) :
  forall (pending : list A) y, In y (as_completed completion pending) <-> In y pending.
Proof.
  induction completion as [|k completion IH]; intros pending y; cbn [as_completed];
    [tauto|].
  destruct pending as [|a pending]; [cbn; tauto|].
  destruct (@take_nth_some A (Nat.modulo k (List.length (a :: pending))) (a :: pending))
    as (x & rest & E).
  { apply Nat.mod_upper_bound. cbn [List.length]. lia. }
  rewrite E. rewrite (take_nth_In _ _ E y). cbn [In]. rewrite IH.
  intuition congruence.
Qed.

Lemma take_nth_perm (A : Type) (k : nat) (l : list A) x rest :
  take_nth k l = Some (x, rest) -> Permutation l (x :: rest).
Proof.
  revert k x rest. induction l as [|a l IH]; intros k x rest; cbn [take_nth];
    [intros H; discriminate H|].
  destruct k as [|k].
  - intros H; inversion H; subst. apply Permutation_refl.
  - destruct (take_nth k l) as [[y' rest']|] eqn:E; [|discriminate].
    intros H; inversion H; subst.
    eapply perm_trans; [apply perm_skip, (IH _ _ _ E) | apply perm_swap].
Qed.

(** Completion order is a permutation of submission order. *)
Lemma as_completed_perm (A : Type) (completion : list nat) :
  forall pending : list A, Permutation (as_completed completion pending) pending.
Proof.
  induction completion as [|k completion IH]; intros pending; cbn [as_completed];
    [apply Permutation_refl|].
  destruct pending as [|a pending]; [apply Permutation_refl|].
  destruct (@take_nth_some A (Nat.modulo k (List.length (a :: pending))) (a :: pending))
    as (x & rest & E).
  { apply Nat.mod_upper_bound. cbn [List.length]. lia. }
  rewrite E. apply Permutation_sym.
  eapply perm_trans; [apply (take_nth_perm _ _ E)|].
  apply perm_skip, Permutation_sym, IH.
Qed.

(** Through a run of loads with positive retry counts, a settled status
    stays settled and every loaded name gets one. *)
Lemma load_each_settles (configs : list (ModelConfig World Handle)) :
  (forall c, In c configs -> 1 <= retry_count c) ->
  forall results m n,
    settled (get (model_status (self m)) n) \/ (exists c, In c configs /\ name c = n) ->
    settled (get (model_status (self (snd (load_each rt configs results m)))) n).
Proof.
  induction configs as [|config rest IH]; intros Hpos results m n Hn.
  - cbn. destruct Hn as [H|(c & [] & _)]. exact H.
  - cbn [load_each]. unfold bind.
    pose proof (load_single_model_frame rt config m) as F.
    pose proof (load_single_model_settles rt config m) as S.
    destruct (_load_single_model rt config m) as [r m1]. cbn [snd] in F, S.
    apply IH; [intros c Hc; apply Hpos; now right|].
    destruct (String.eqb_spec (name config) n) as [<-|Hne].
    + left. apply S. apply Hpos. now left.
    + destruct F as (_ & _ & _ & Hk & _).
      destruct (Hk n (not_eq_sym Hne)) as (_ & Hst & _).
      destruct Hn as [H|(c & [<-|Hc] & Hname)].
      * left. now rewrite Hst.
      * contradiction.
      * right. eauto.
Qed.

(** When every registered config sits under its own name and has a
    positive retry count, a [load_all_models] whose pool is not refused
    leaves every registered name LOADED or FAILED, whether the gate then
    raises or not. *)
Lemma statuses_settled_with_positive_retries parallel max_workers completion m :
  keyed_by_name (self m) ->
  (forall k c, In (k, c) (items (model_configs (self m))) -> 1 <= retry_count c) ->
  pool_refused (self m) parallel max_workers = false ->
  forall n, mem (model_configs (self m)) n = true ->
    settled (get (model_status
                    (self (snd (load_all_models rt parallel max_workers completion m))))
               n).
Proof.
  intros Hkeyed Hpos Hpool n Hn.
  rewrite load_all_models_gate. cbv zeta. cbn [snd].
  rewrite load_phase_steps. cbv zeta.
  assert (Hc : exists c, In c (values (model_configs (self m))) /\ name c = n).
  { unfold mem in Hn. destruct (get (model_configs (self m)) n) as [c|] eqn:E;
      [|discriminate].
    apply PyDictFacts.get_In in E. exists c. split.
    - unfold values. apply in_map_iff. now exists (n, c).
    - now apply Hkeyed. }
  assert (Hpos' : forall c, In c (values (model_configs (self m))) -> 1 <= retry_count c).
  { intros c Hin. unfold values in Hin. apply in_map_iff in Hin.
    destruct Hin as ([k c'] & <- & Hin). eapply Hpos; exact Hin. }
  destruct Hc as (c & Hin & Hname).
  unfold pool_refused in Hpool.
  destruct (parallel && (1 <? len (model_configs (self m)))%Z)%bool; cbn [andb] in Hpool.
  - rewrite Hpool. cbn [snd]. apply load_each_settles.
    + intros c' Hc'. apply Hpos'. now apply as_completed_In in Hc'.
    + right. exists c. split; [now apply as_completed_In | exact Hname].
  - cbn [snd]. apply load_each_settles; [exact Hpos'|]. right. eauto.
Qed.

End AllLoads.

(** ** The theorems at work on the sample platform *)

Module Scenarios.

Import Sample.

(** The scenarios of the specification. *)

Example required_loads_optional_missing :
  let run := load_all_models rt false None []
               (boot (registry [A_required_valid; B_optional_missing])) in
  (exists results,
     fst run = Ok results /\
     option_map (@success Handle) (get results "A") = Some true /\
     option_map (@success Handle) (get results "B") = Some false) /\
  status (get_health_status (self (snd run))) = "degraded".
Proof. cbv zeta. split; [eexists; vm_compute; repeat split | vm_compute; reflexivity]. Qed.

Example required_missing_raises :
  exists msg,
    fst (load_all_models rt false None [] (boot (registry [A_required_missing])))
      = Raise (RuntimeError msg) /\
    PyStr.mentions msg "A".
Proof.
  eexists. split; [vm_compute; reflexivity|].
  exists "Critical models failed to load: ", ". Service cannot start without these models.".
  reflexivity.
Qed.

Example all_optional_loaded_is_healthy :
  let run := load_all_models rt true None []
               (boot (registry [A_optional_valid; B_optional_valid])) in
  (exists results, fst run = Ok results) /\
  status (get_health_status (self (snd run))) = "healthy".
Proof. cbv zeta. split; [eexists|]; vm_compute; reflexivity. Qed.

Example only_optional_missing_raises :
  fst (load_all_models rt true None [] (boot (registry [A_optional_missing])))
    = Raise (RuntimeError no_models_msg).
Proof. vm_compute. reflexivity. Qed.

(** C3 at a missing artifact. *)
Lemma validation_failure_witness :
  let m := boot (registry [A_required_missing]) in
  let r := fst (_load_single_model rt A_required_missing m) in
  let m' := snd (_load_single_model rt A_required_missing m) in
  success r = false /\ model r = None /\
  error_message r = Some "Model file not found: missing.bin" /\
  get (model_status (self m')) (name A_required_missing) = Some FAILED /\
  get (model_errors (self m')) (name A_required_missing)
    = Some "Model file not found: missing.bin" /\
  models (self m') = models (self m) /\
  world m' = world m /\
  exists evs, trace m' = (trace m ++ evs)%list /\
              loader_calls evs = [] /\ sleeps evs = [].
Proof.
  apply (validation_failure_is_terminal rt A_required_missing
           (boot (registry [A_required_missing]))).
  vm_compute. reflexivity.
Defined.

(** The same run, computed: three calls, sleeps of 0.5 s and 1 s. *)
Example persistent_failure_trace :
  trace (snd (_load_single_model rt A_failing (boot (registry [A_failing])))) =
  [EvLoaderCall "A" 0 (Raised "out of memory"); EvSleep (wait_time 0);
   EvLoaderCall "A" 1 (Raised "out of memory"); EvSleep (wait_time 1);
   EvLoaderCall "A" 2 (Raised "out of memory")].
Proof. vm_compute. reflexivity. Qed.

(** A loader that returns [None] is retried in the same way. *)
Example none_is_a_failed_attempt :
  let config := config "A" "a.bin" gives_None true None 2 in
  let run := _load_single_model rt config (boot (registry [config])) in
  trace (snd run) =
    [EvLoaderCall "A" 0 (Returned None); EvSleep (wait_time 0);
     EvLoaderCall "A" 1 (Returned None)] /\
  error_message (fst run) = Some "Loader returned None".
Proof. vm_compute. split; reflexivity. Qed.

(** C5 at an artifact whose digest is not the expected one, and at a config
    without an expected digest. *)
Lemma checksum_gate_witness :
  let m := boot (registry [A_wrong_digest]) in
  let r := fst (_load_single_model rt A_wrong_digest m) in
  let m' := snd (_load_single_model rt A_wrong_digest m) in
  let m2 := boot (registry [A_optional_valid]) in
  let m2' := snd (_load_single_model rt A_optional_valid m2) in
  (success r = false /\ model r = None /\
   error_message r = Some (checksum_mismatch_msg "ffff" "AB3") /\
   PyStr.mentions (checksum_mismatch_msg "ffff" "AB3") "mismatch" /\
   PyStr.mentions (checksum_mismatch_msg "ffff" "AB3") "corrupted" /\
   get (model_status (self m')) (name A_wrong_digest) = Some FAILED /\
   models (self m') = models (self m) /\
   exists evs, trace m' = (trace m ++ evs)%list /\ loader_calls evs = []) /\
  (model_checksums (self m2') = model_checksums (self m2) /\
   exists evs, trace m2' = (trace m2 ++ evs)%list /\ checksum_runs evs = []).
Proof.
  cbv zeta. split.
  - apply (proj1 (checksum_gate rt A_wrong_digest (boot (registry [A_wrong_digest])))).
    + reflexivity.
    + reflexivity.
    + discriminate.
    + vm_compute. reflexivity.
    + vm_compute. reflexivity.
    + vm_compute. discriminate.
  - apply (proj2 (checksum_gate rt A_optional_valid (boot (registry [A_optional_valid])))).
    right. left. reflexivity.
Defined.

(** The digest comparison ignores letter case: "ab3" accepts "AB3". *)
Example digest_case_is_ignored :
  let run := _load_single_model rt A_required_valid (boot (registry [A_required_valid])) in
  success (fst run) = true /\ checksum (fst run) = Some "AB3" /\
  expected_checksum A_required_valid = Some "ab3".
Proof. vm_compute. repeat split. Qed.

(** C8 at a reload: the first load fails and records an error, the second
    succeeds and the error is gone. *)
Lemma success_clears_error_witness :
  let m1 := snd (_load_single_model rt A_flaky (boot (registry [A_flaky]))) in
  let r := fst (_load_single_model rt A_flaky m1) in
  let m' := snd (_load_single_model rt A_flaky m1) in
  get (model_errors (self m1)) (name A_flaky) = Some "not ready" /\
  success r = true /\
  get (model_errors (self m')) (name A_flaky) = None /\
  mem (model_errors (self m')) (name A_flaky) = false /\
  get (model_status (self m')) (name A_flaky) = Some LOADED /\
  exists h, model r = Some h /\
            get (models (self m')) (name A_flaky) = Some (Some h).
Proof.
  cbv zeta. split; [vm_compute; reflexivity|].
  split; [vm_compute; reflexivity|].
  apply (success_clears_error rt A_flaky
           (snd (_load_single_model rt A_flaky (boot (registry [A_flaky]))))).
  vm_compute. reflexivity.
Defined.

(** C6 fails on the code: an optional model with [retry_count = 0] and a
    valid artifact is left LOADING by a [load_all_models] that returns
    normally, in sequential and in parallel mode alike; its result says
    it failed, and no error is recorded for it. *)
Lemma zero_retry_count_stays_loading :
  let m := boot (registry [A_optional_valid; B_no_attempts]) in
  let sequential := load_all_models rt false None [] m in
  let parallel := load_all_models rt true None [] m in
  retry_count B_no_attempts = 0 /\
  mem (model_configs (self m)) "B" = true /\
  (exists results,
     fst sequential = Ok results /\
     option_map (@error_message Handle) (get results "B")
       = Some (Some "Unknown error during loading")) /\
  get (model_status (self (snd sequential))) "B" = Some LOADING /\
  get (model_errors (self (snd sequential))) "B" = None /\
  (exists results, fst parallel = Ok results) /\
  get (model_status (self (snd parallel))) "B" = Some LOADING.
Proof.
  cbv zeta.
  split; [reflexivity|]. split; [reflexivity|].
  split; [eexists; vm_compute; split; reflexivity|].
  split; [vm_compute; reflexivity|]. split; [vm_compute; reflexivity|].
  split; [eexists; vm_compute; reflexivity|].
  vm_compute; reflexivity.
Qed.

(** With positive retry counts the same registry shape settles. *)
Lemma positive_retry_counts_settle :
  let m := boot (registry [A_optional_valid; B_optional_missing]) in
  let m' := snd (load_all_models rt true None [] m) in
  settled (get (model_status (self m')) "A") /\
  settled (get (model_status (self m')) "B").
Proof.
  cbv zeta.
  split;
    apply (@statuses_settled_with_positive_retries _ _ _ rt true None []
             (boot (registry [A_optional_valid; B_optional_missing])));
    try reflexivity;
    intros k c [H|[H|[]]]; inversion H; subst; try reflexivity; vm_compute; discriminate.
Defined.

(** C1 at a registry whose required model is missing while the optional
    one is loaded: one of two models is loaded, and the verdict is
    unhealthy, not degraded. *)
Lemma health_verdict_witness :
  let s := self (snd (load_all_models rt false None []
                        (boot (registry [A_required_missing; B_optional_valid])))) in
  is_model_loaded s "B" = true /\
  loaded_count (get_health_status s) = 1 /\
  total_count (get_health_status s) = 2 /\
  status (get_health_status s) = "unhealthy" /\
  status (get_health_status s) <> "degraded".
Proof.
  cbv zeta.
  set (s := self (snd (load_all_models rt false None []
                         (boot (registry [A_required_missing; B_optional_valid]))))).
  destruct (health_verdict_priority s) as (Hl & Ht & _ & Hreq & _ & _ & Hnot).
  assert (Hmissing : exists n c, In (n, c) (items (model_configs s)) /\
                                 required c = true /\ is_model_loaded s n = false).
  { exists "A", A_required_missing. vm_compute. auto. }
  split; [vm_compute; reflexivity|].
  split; [rewrite Hl; vm_compute; reflexivity|].
  split; [rewrite Ht; vm_compute; reflexivity|].
  split; [exact (Hreq Hmissing) | exact (Hnot Hmissing)].
Defined.

(** C9 at the three kinds of name: unknown, registered but failed, loaded. *)
Lemma get_model_witness :
  let s := self (snd (load_all_models rt false None []
                        (boot (registry [A_required_valid; B_optional_missing])))) in
  get_model s "C" =
    Raise (ValueError "Unknown model: 'C'. Available models: A, B") /\
  get_model s "B" =
    Raise (RuntimeError
      ("Model 'B' is not available (status: failed). " ++
       "Loading failed with: Model file not found: missing.bin")) /\
  get_model s "A" = Ok (Some 1%nat).
Proof.
  cbv zeta.
  set (s := self (snd (load_all_models rt false None []
                         (boot (registry [A_required_valid; B_optional_missing]))))).
  destruct (get_model_outcomes s "C") as (_ & Hunknown & _).
  destruct (get_model_outcomes s "B") as (_ & _ & Hfailed & _).
  destruct (get_model_outcomes s "A") as (_ & _ & _ & Hloaded & _).
  split; [rewrite Hunknown; [reflexivity | vm_compute; discriminate]|].
  split; [rewrite Hfailed; [reflexivity | reflexivity | reflexivity]|].
  apply Hloaded. split; [reflexivity|]. split; [reflexivity|]. eauto.
Defined.

(** C10 at a model that is loaded and then registered again: the status
    goes back to NOT_LOADED, the stored handle and checksum stay, and the
    registry keeps its two names in order. *)
Lemma register_model_witness :
  let s := self (snd (load_all_models rt false None []
                        (boot (registry [A_required_valid; B_optional_missing])))) in
  let s' := register_model s A_optional_valid in
  get (model_status s) "A" = Some LOADED /\
  get (model_configs s') "A" = Some A_optional_valid /\
  get (model_status s') "A" = Some NOT_LOADED /\
  get (models s') "A" = Some (Some 1%nat) /\
  get (model_checksums s') "A" = Some "AB3" /\
  get (model_errors s') "B" = Some "Model file not found: missing.bin" /\
  keys (model_configs s') = ["A"; "B"].
Proof.
  cbv zeta.
  set (s := self (snd (load_all_models rt false None []
                         (boot (registry [A_required_valid; B_optional_missing]))))).
  destruct (register_model_overwrites s A_optional_valid)
    as (Hc & Hst & Hm & He & Hk & _ & _ & _ & Hkeys).
  split; [reflexivity|].
  split; [exact Hc|]. split; [exact Hst|].
  split; [rewrite Hm; reflexivity|].
  split; [rewrite Hk; reflexivity|].
  split; [rewrite He; reflexivity|].
  rewrite Hkeys; reflexivity.
Defined.

End Scenarios.

(** ** Further properties of one load *)

Section OneLoadMore.

Variables World Handle HashObj : Type.
Variable rt : Runtime World HashObj.

Implicit Types (m : Machine World Handle) (s : ModelLoader World Handle).
Implicit Types (config : ModelConfig World Handle).

(** The machine once the status has been set to LOADING. *)
Let loading config m : Machine World Handle :=
  {| self := with_model_status (self m)
               (set (model_status (self m)) (name config) LOADING);
     world := world m; trace := trace m |}.

Lemma load_cases config m ok msg m2 :
  _validate_model_file rt config (loading config m) = ((ok, msg), m2) ->
  _load_single_model rt config m =
  if ok then
    attempt_loop rt config (time_time rt (world m)) (range (retry_count config)) m2
  else
    ({| success := false; model := None; error_message := Some msg;
        load_time := (time_time rt (world m2) - time_time rt (world m))%Q;
        checksum := None |},
     {| self :=
          with_model_errors
            (with_model_status (self m2)
               (set (model_status (self m2)) (name config) FAILED))
            (set (model_errors (self m2)) (name config) msg);
        world := world m2; trace := trace m2 |}).
Proof. intros H. apply load_single_model_cases. exact H. Qed.

(** *** The shape of the retry loop *)

(** A run of the retry loop that gives up after at least one attempt
    records FAILED and the error it returns, and stores no handle. *)
Lemma attempt_loop_gives_up config start :
  forall n k m,
    Z.of_nat (k + S n) = retry_count config ->
    let r := fst (attempt_loop rt config start (map Z.of_nat (seq k (S n))) m) in
    let m' := snd (attempt_loop rt config start (map Z.of_nat (seq k (S n))) m) in
    success r = false ->
    model r = None /\
    models (self m') = models (self m) /\
    get (model_status (self m')) (name config) = Some FAILED /\
    (exists e, error_message r = Some e) /\
    get (model_errors (self m')) (name config) = error_message r.
Proof.
  induction n as [|n IH]; intros k m Hk; cbv zeta.
  - cbn [seq map].
    destruct (loader_func config (path config)
                (kwargs_or_empty (loader_kwargs config)) (world m))
      as [out w'] eqn:Hcall.
    rewrite attempt_loop_step with (1 := Hcall). cbn zeta.
    destruct (try_body out) as [e|mdl]; [|cbn; discriminate].
    replace (Z.of_nat k =? retry_count config - 1)%Z with true
      by (symmetry; apply Z.eqb_eq; lia).
    intros _. cbn. repeat split; eauto; apply PyDictFacts.get_set_same.
  - change (seq k (S (S n))) with (k :: seq (S k) (S n)). cbn [map].
    destruct (loader_func config (path config)
                (kwargs_or_empty (loader_kwargs config)) (world m))
      as [out w'] eqn:Hcall.
    rewrite attempt_loop_step with (1 := Hcall). cbn zeta.
    destruct (try_body out) as [e|mdl]; [|cbn; discriminate].
    replace (Z.of_nat k =? retry_count config - 1)%Z with false
      by (symmetry; apply Z.eqb_neq; lia).
    intros Hs.
    specialize (IH (S k)
      {| self := self m; world := time_sleep rt (wait_time (Z.of_nat k)) w';
         trace := ((trace m ++ [EvLoaderCall (name config) (Z.of_nat k) out]) ++
                   [EvSleep (wait_time (Z.of_nat k))])%list |}).
    cbv zeta in IH. cbn [self] in IH. apply IH; [lia | exact Hs].
Qed.

(** A successful run of the retry loop returns the checksum that was on
    record when it started. *)
Lemma attempt_loop_checksum config start attempts :
  forall m,
    let r := fst (attempt_loop rt config start attempts m) in
    success r = true ->
    checksum r = get (model_checksums (self m)) (name config) /\
    error_message r = None.
Proof.
  induction attempts as [|a rest IH]; intros m; cbv zeta.
  - rewrite attempt_loop_nil. cbn. discriminate.
  - destruct (loader_func config (path config)
                (kwargs_or_empty (loader_kwargs config)) (world m))
      as [out w'] eqn:Hcall.
    rewrite attempt_loop_step with (1 := Hcall). cbn zeta.
    destruct (try_body out) as [e|mdl].
    + destruct (a =? retry_count config - 1)%Z; [cbn; discriminate|].
      intros Hs. apply IH in Hs. exact Hs.
    + intros _. cbn. auto.
Qed.

(** The verdict of the validation is that on the machine before LOADING
    is set, and its machine. *)
Lemma loading_validation config m :
  fst (_validate_model_file rt config (loading config m)) =
  fst (_validate_model_file rt config m).
Proof. apply validate_model_file_value; reflexivity. Qed.

(** *** The result of a load and the state it leaves *)

(** What [is_model_loaded] answers for the name after a load is the
    success flag of the result. *)
Lemma load_single_model_flag config m :
  is_model_loaded (self (snd (_load_single_model rt config m))) (name config) =
  success (fst (_load_single_model rt config m)).
Proof.
  destruct (validate_model_file_machine rt config (loading config m))
    as (vevs & cks & Hm & _).
  destruct (_validate_model_file rt config (loading config m)) as [[ok msg] m2] eqn:Hv.
  cbn [fst snd] in Hm. rewrite (load_cases _ _ Hv).
  assert (Hloading : get (model_status (self m2)) (name config) = Some LOADING)
    by (subst m2; cbn; apply PyDictFacts.get_set_same).
  unfold is_model_loaded, mem.
  destruct ok.
  - set (run := attempt_loop rt config (time_time rt (world m))
                  (range (retry_count config)) m2).
    destruct (success (fst run)) eqn:Hs.
    + destruct (attempt_loop_success rt config (time_time rt (world m))
                  (range (retry_count config)) m2 Hs) as (_ & Hst & h & Hh & Hget).
      fold run in Hst, Hget. now rewrite Hget, Hst.
    + unfold range in run.
      destruct (Z.to_nat (retry_count config)) as [|n] eqn:Hn.
      * subst run. cbn [seq map] in *. rewrite attempt_loop_nil in *. cbn [fst snd] in *.
        rewrite Hloading. cbn. apply andb_false_r.
      * destruct (attempt_loop_gives_up config (time_time rt (world m)) n 0 m2)
          as (_ & _ & Hst & _); [lia | exact Hs |].
        fold run in Hst. rewrite Hst. cbn. apply andb_false_r.
  - cbn [fst snd success self model_status with_model_errors with_model_status].
    rewrite PyDictFacts.get_set_same. cbn. apply andb_false_r.
Qed.

(** X1. The result of [_load_single_model] and the state it leaves agree:
    the result is a success exactly when the status is LOADED, and
    [is_model_loaded] then answers [True] and the stored handle is the one
    returned; an unsuccessful load changes no stored handle, and, unless
    it ran no attempt at all, records FAILED together with the very error
    text it returns. *)
Theorem load_result_matches_state config m :
  let r := fst (_load_single_model rt config m) in
  let m' := snd (_load_single_model rt config m) in
  (success r = true <-> get (model_status (self m')) (name config) = Some LOADED) /\
  is_model_loaded (self m') (name config) = success r /\
  (success r = true ->
     exists h, model r = Some h /\
               get (models (self m')) (name config) = Some (Some h) /\
               error_message r = None) /\
  (success r = false ->
     model r = None /\ models (self m') = models (self m) /\
     exists e, error_message r = Some e) /\
  (success r = false ->
     1 <= retry_count config \/ fst (fst (_validate_model_file rt config m)) = false ->
     get (model_status (self m')) (name config) = Some FAILED /\
     get (model_errors (self m')) (name config) = error_message r).
Proof.
  cbv zeta.
  pose proof (loading_validation config m) as Hsame.
  destruct (validate_model_file_machine rt config (loading config m))
    as (vevs & cks & Hm & _).
  destruct (_validate_model_file rt config (loading config m)) as [[ok msg] m2] eqn:Hv.
  cbn [fst snd] in Hm, Hsame.
  rewrite (load_cases _ _ Hv).
  assert (Hmodels : models (self m2) = models (self m)) by (subst m2; reflexivity).
  assert (Hloading : get (model_status (self m2)) (name config) = Some LOADING)
    by (subst m2; cbn; apply PyDictFacts.get_set_same).
  destruct ok.
  - set (run := attempt_loop rt config (time_time rt (world m))
                  (range (retry_count config)) m2).
    destruct (success (fst run)) eqn:Hs.
    + destruct (attempt_loop_success rt config (time_time rt (world m))
                  (range (retry_count config)) m2 Hs) as (_ & Hst & h & Hh & Hget).
      destruct (attempt_loop_checksum config (time_time rt (world m))
                  (range (retry_count config)) m2 Hs) as (_ & Hnone).
      fold run in Hst, Hh, Hget, Hnone.
      assert (Hloaded : is_model_loaded (self (snd run)) (name config) = true).
      { unfold is_model_loaded, mem. rewrite Hget, Hst. reflexivity. }
      repeat split; auto; try discriminate. eauto.
    + unfold range in run.
      destruct (Z.to_nat (retry_count config)) as [|n] eqn:Hn.
      * subst run. cbn [seq map] in *. rewrite attempt_loop_nil in *. cbn [fst snd] in *.
        assert (Hnot : is_model_loaded (self m2) (name config) = false).
        { unfold is_model_loaded. rewrite Hloading. cbn. apply andb_false_r. }
        rewrite Hloading.
        split; [split; discriminate|]. split; [exact Hnot|].
        split; [discriminate|]. split; [cbn; eauto|].
        intros _ [HR|Hbad]; [lia | rewrite <- Hsame in Hbad; discriminate].
      * destruct (attempt_loop_gives_up config (time_time rt (world m)) n 0 m2)
          as (Hmd & Hmo & Hst & He & Herr); [lia | exact Hs |].
        fold run in Hmd, Hmo, Hst, He, Herr.
        assert (Hnot : is_model_loaded (self (snd run)) (name config) = false).
        { unfold is_model_loaded. rewrite Hst. cbn. apply andb_false_r. }
        rewrite Hst.
        split; [split; discriminate|]. split; [exact Hnot|].
        split; [discriminate|]. split; [repeat split; auto; congruence|].
        auto.
  - cbn [fst snd success model error_message self].
    assert (Hst : get (model_status
                         (with_model_errors
                            (with_model_status (self m2)
                               (set (model_status (self m2)) (name config) FAILED))
                            (set (model_errors (self m2)) (name config) msg)))
                    (name config) = Some FAILED)
      by (cbn; apply PyDictFacts.get_set_same).
    split; [rewrite Hst; split; discriminate|].
    split; [unfold is_model_loaded; rewrite Hst; cbn; apply andb_false_r|].
    split; [discriminate|]. split; [repeat split; eauto|].
    intros _ _. split; [exact Hst|]. cbn. apply PyDictFacts.get_set_same.
Qed.

(** *** Loading and looking up *)

(** An unsuccessful run of the retry loop stores no handle. *)
Lemma attempt_loop_failure_models config start attempts :
  forall m,
    success (fst (attempt_loop rt config start attempts m)) = false ->
    models (self (snd (attempt_loop rt config start attempts m))) = models (self m).
Proof.
  induction attempts as [|a rest IH]; intros m.
  - rewrite attempt_loop_nil. reflexivity.
  - destruct (loader_func config (path config)
                (kwargs_or_empty (loader_kwargs config)) (world m))
      as [out w'] eqn:Hcall.
    rewrite attempt_loop_step with (1 := Hcall). cbn zeta.
    destruct (try_body out) as [e|mdl]; [|cbn; discriminate].
    destruct (a =? retry_count config - 1)%Z; [reflexivity|].
    intros Hs. now rewrite (IH _ Hs).
Qed.

Lemma failed_load_keeps_models config m :
  success (fst (_load_single_model rt config m)) = false ->
  models (self (snd (_load_single_model rt config m))) = models (self m).
Proof.
  destruct (validate_model_file_machine rt config (loading config m))
    as (vevs & cks & Hm & _).
  destruct (_validate_model_file rt config (loading config m)) as [[ok msg] m2] eqn:Hv.
  cbn [fst snd] in Hm. rewrite (load_cases _ _ Hv).
  destruct ok.
  - intros Hs. rewrite (@attempt_loop_failure_models config _ _ m2 Hs). now subst m2.
  - intros _. now subst m2.
Qed.

(** X4. Load, then look up.  After a successful [_load_single_model] of a
    registered config, [get_model] returns the handle the load returned.
    After an unsuccessful one, every name that [get_model] served before
    is still served with the same handle: a failed reload does not take a
    working model away. *)
Theorem get_model_after_load config m :
  let r := fst (_load_single_model rt config m) in
  let m' := snd (_load_single_model rt config m) in
  (mem (model_configs (self m)) (name config) = true -> success r = true ->
     get_model (self m') (name config) = Ok (model r) /\ model r <> None) /\
  (success r = false ->
     forall n v, get_model (self m) n = Ok v -> get_model (self m') n = Ok v).
Proof.
  cbv zeta.
  destruct (load_single_model_frame rt config m) as (_ & _ & Hc & _).
  split.
  - intros Hreg Hs.
    destruct (_validate_model_file rt config (loading config m)) as [[ok msg] m2] eqn:Hv.
    rewrite (load_cases _ _ Hv) in *.
    destruct ok; [|cbn in Hs; discriminate].
    destruct (attempt_loop_success rt config (time_time rt (world m))
                (range (retry_count config)) m2 Hs) as (_ & _ & h & Hh & Hget).
    unfold get_model, get_default. rewrite Hc, Hreg, Hget, Hh. cbn [negb].
    split; [reflexivity | discriminate].
  - intros Hs n v Hv. unfold get_model in *.
    rewrite Hc, (@failed_load_keeps_models config m Hs).
    destruct (negb (mem (model_configs (self m)) n)); [discriminate Hv|].
    destruct (get_default (models (self m)) n None); [exact Hv | discriminate Hv].
Qed.

(** X5. Loading one model is confined to that model: the registry, the
    model directory and the checksum flag stay as they are, and so do the
    handle, status, error and checksum of every other name, and with them
    what [is_model_loaded] and [get_model] answer for every other
    registered name. *)
Theorem load_touches_one_name config m :
  let m' := snd (_load_single_model rt config m) in
  model_configs (self m') = model_configs (self m) /\
  model_dir (self m') = model_dir (self m) /\
  validate_checksums (self m') = validate_checksums (self m) /\
  forall n, n <> name config ->
    get (models (self m')) n = get (models (self m)) n /\
    get (model_status (self m')) n = get (model_status (self m)) n /\
    get (model_errors (self m')) n = get (model_errors (self m)) n /\
    get (model_checksums (self m')) n = get (model_checksums (self m)) n /\
    is_model_loaded (self m') n = is_model_loaded (self m) n /\
    get_model (self m') n = get_model (self m) n.
Proof.
  cbv zeta.
  destruct (load_single_model_frame rt config m) as (Hd & Hf & Hc & Hk & _).
  split; [exact Hc|]. split; [exact Hd|]. split; [exact Hf|].
  intros n Hn. destruct (Hk n Hn) as (Hmo & Hst & He & Hck).
  split; [exact Hmo|]. split; [exact Hst|]. split; [exact He|]. split; [exact Hck|].
  split.
  - unfold is_model_loaded, mem. now rewrite Hmo, Hst.
  - unfold get_model, get_default. now rewrite Hc, Hmo, Hst, He.
Qed.

(** *** What the validation looks at, and in which order *)

(** A failed file check leaves the machine as it is. *)
Lemma validate_model_file_no_file_machine config m :
  fst (_validate_file_exists rt (world m) (path config)) = false ->
  snd (_validate_model_file rt config m) = m.
Proof.
  unfold _validate_model_file, bind, gets.
  destruct (_validate_file_exists rt (world m) (path config)) as [ok msg].
  cbn [fst]. intros ->. reflexivity.
Qed.

(** X6. The file check: it passes exactly for an existing, regular,
    non-empty, readable path; a missing path is reported as not found
    whatever the other probes say, and an empty file as empty.  When it
    fails, [_load_single_model] fails with the message of the file check
    and goes no further: no checksum is computed (even when one is
    requested), none is recorded, and the loader is not called. *)
Theorem file_check_comes_first config m :
  let w := world m in
  let p := path config in
  let ok := fst (_validate_file_exists rt w p) in
  let msg := snd (_validate_file_exists rt w p) in
  let r := fst (_load_single_model rt config m) in
  let m' := snd (_load_single_model rt config m) in
  (ok = true <->
     path_exists rt w p = true /\ path_is_file rt w p = true /\
     st_size rt w p <> 0 /\ os_access_R_OK rt w p = true) /\
  (path_exists rt w p = false -> msg = "Model file not found: " ++ p) /\
  (path_exists rt w p = true -> path_is_file rt w p = true -> st_size rt w p = 0 ->
     msg = "Model file is empty (0 bytes): " ++ p) /\
  (ok = false ->
     success r = false /\ error_message r = Some msg /\
     get (model_errors (self m')) (name config) = Some msg /\
     model_checksums (self m') = model_checksums (self m) /\
     trace m' = trace m).
Proof.
  cbv zeta. split; [|split; [|split]].
  - unfold _validate_file_exists.
    destruct (path_exists rt (world m) (path config)); cbn [negb fst];
      [|split; [discriminate | intros (H & _); discriminate]].
    destruct (path_is_file rt (world m) (path config)); cbn [negb fst];
      [|split; [discriminate | intros (_ & H & _); discriminate]].
    destruct (Z.eqb_spec (st_size rt (world m) (path config)) 0) as [Hz|Hz]; cbn [fst];
      [split; [discriminate | intros (_ & _ & H & _); contradiction]|].
    destruct (os_access_R_OK rt (world m) (path config)); cbn [negb fst];
      [|split; [discriminate | intros (_ & _ & _ & H); discriminate]].
    split; auto.
  - unfold _validate_file_exists. intros ->. reflexivity.
  - unfold _validate_file_exists. intros -> -> ->. reflexivity.
  - intros Hbad.
    assert (Hbad' : fst (_validate_file_exists rt (world (loading config m)) (path config))
                    = false) by exact Hbad.
    pose proof (validate_model_file_no_file rt config (loading config m) Hbad') as Hval.
    pose proof (validate_model_file_no_file_machine config (loading config m) Hbad') as Hmach.
    destruct (_validate_model_file rt config (loading config m)) as [[ok msg] m2] eqn:Hv.
    cbn [fst snd] in Hval, Hmach. inversion Hval; subst ok msg m2.
    rewrite (load_cases _ _ Hv). cbn.
    repeat split; auto. apply PyDictFacts.get_set_same.
Qed.

(** [_validate_model_file] once the file check has passed and a checksum
    is requested. *)
Lemma validate_model_file_checked config m expected :
  fst (_validate_file_exists rt (world m) (path config)) = true ->
  checksum_requested (self m) config = Some expected ->
  _validate_model_file rt config m =
  (let (a, m1) := _validate_checksum rt (path config) expected
                    (checksum_algorithm config) m in
   let '(is_valid, actual, msg) := a in
   if negb is_valid then ((false, msg), m1)
   else ((true, "Validation passed"),
         {| self := with_model_checksums (self m1)
                      (set (model_checksums (self m1)) (name config) actual);
            world := world m1; trace := trace m1 |})).
Proof.
  intros Hfile Hreq. unfold _validate_model_file, bind, gets.
  destruct (_validate_file_exists rt (world m) (path config)) as [ok msg0].
  cbn [fst] in Hfile. subst ok. cbn [negb]. rewrite Hreq.
  destruct (_validate_checksum rt (path config) expected (checksum_algorithm config) m)
    as [[[v a] e] m1].
  destruct v; reflexivity.
Qed.

(** X7. A requested checksum that cannot be computed ends the load like a
    mismatch does: for an algorithm [hashlib] does not know, or a file
    that cannot be read, [_load_single_model] fails with "Checksum
    validation failed: " and the reason, records FAILED, calls no loader
    and records no checksum. *)
Theorem checksum_error_is_terminal config m expected :
  let alg := checksum_algorithm config in
  let r := fst (_load_single_model rt config m) in
  let m' := snd (_load_single_model rt config m) in
  let terminal msg :=
    success r = false /\ error_message r = Some msg /\
    get (model_status (self m')) (name config) = Some FAILED /\
    get (model_errors (self m')) (name config) = Some msg /\
    model_checksums (self m') = model_checksums (self m) /\
    models (self m') = models (self m) /\
    trace m' = (trace m ++ [EvChecksum (path config) alg])%list in
  fst (_validate_file_exists rt (world m) (path config)) = true ->
  checksum_requested (self m) config = Some expected ->
  (hashlib_new rt alg = None ->
     terminal ("Checksum validation failed: Unsupported hash algorithm: " ++ alg ++
               ". Supported: " ++ PyStr.join ", " (algorithms_available rt))) /\
  (forall h e, hashlib_new rt alg = Some h -> open_rb rt (world m) (path config) = inl e ->
     terminal ("Checksum validation failed: Failed to calculate checksum: " ++ e)).
Proof.
  cbv zeta. intros Hfile Hreq.
  pose proof (validate_model_file_checked config (loading config m) Hfile Hreq) as Hchk.
  split.
  - intros Hnew.
    unfold _validate_checksum, _calculate_checksum, bind, emit, ret in Hchk.
    rewrite Hnew in Hchk. cbn in Hchk.
    rewrite (load_cases _ _ Hchk). cbn.
    repeat split; auto; apply PyDictFacts.get_set_same.
  - intros h e Hnew Hopen.
    unfold _validate_checksum, _calculate_checksum, bind, emit, ret, gets in Hchk.
    rewrite Hnew in Hchk. cbn [world loading] in Hchk. rewrite Hopen in Hchk.
    cbn in Hchk.
    rewrite (load_cases _ _ Hchk). cbn.
    repeat split; auto; apply PyDictFacts.get_set_same.
Qed.

(** *** The checksum a successful load reports *)

(** X8. The checksum in the result of a successful load is whatever is on
    record for the name when the retry loop ends.  With checksum
    validation in effect that is the digest just computed, in the letter
    case [hashlib] gave it (it equals the expected one up to case), and it
    is recorded for the name.  Without it nothing is computed, and the
    result repeats the checksum an earlier load may have left. *)
Theorem successful_load_reports_checksum config m :
  let r := fst (_load_single_model rt config m) in
  let m' := snd (_load_single_model rt config m) in
  success r = true ->
  checksum r = get (model_checksums (self m')) (name config) /\
  (forall expected, checksum_requested (self m) config = Some expected ->
     exists actual,
       fst (_calculate_checksum rt (path config) (checksum_algorithm config)
              default_chunk_size m) = Ok actual /\
       PyStr.lower actual = PyStr.lower expected /\
       checksum r = Some actual) /\
  (checksum_requested (self m) config = None ->
     checksum r = get (model_checksums (self m)) (name config)).
Proof.
  cbv zeta. intros Hs.
  assert (Hfile : fst (_validate_file_exists rt (world m) (path config)) = true).
  { destruct (fst (_validate_file_exists rt (world m) (path config))) eqn:E; [reflexivity|].
    exfalso.
    pose proof (validate_model_file_no_file rt config (loading config m) E) as Hval.
    destruct (_validate_model_file rt config (loading config m)) as [[ok msg] m2] eqn:Hv.
    cbn [fst] in Hval. inversion Hval; subst.
    rewrite (load_cases _ _ Hv) in Hs. cbn in Hs. discriminate. }
  destruct (checksum_requested (self m) config) as [expected|] eqn:Hreq.
  - pose proof (validate_model_file_checked config (loading config m) Hfile Hreq) as Hchk.
    pose proof (validate_checksum_machine rt (path config) expected
                  (checksum_algorithm config) (loading config m)) as Hmach.
    pose proof (calculate_checksum_value rt (path config) (checksum_algorithm config)
                  default_chunk_size m (loading config m) eq_refl) as Hcalc.
    unfold _validate_checksum, bind in Hchk, Hmach.
    destruct (_calculate_checksum rt (path config) (checksum_algorithm config)
                default_chunk_size (loading config m)) as [res m1].
    cbn [fst] in Hcalc. subst res.
    destruct (fst (_calculate_checksum rt (path config) (checksum_algorithm config)
                     default_chunk_size m)) as [actual|e].
    + destruct (String.eqb_spec (PyStr.lower actual) (PyStr.lower expected)) as [Heq|Hne];
        cbn [negb ret] in Hchk, Hmach; unfold ret in Hchk, Hmach; cbn [snd] in Hmach.
      * rewrite (load_cases _ _ Hchk) in *.
        destruct (attempt_loop_checksum _ _ _ _ Hs) as (Hck & _).
        destruct (attempt_loop_no_checksum rt config (time_time rt (world m))
                    (range (retry_count config))
                    {| self := with_model_checksums (self m1)
                                 (set (model_checksums (self m1)) (name config) actual);
                       world := world m1; trace := trace m1 |}) as (Hsame & _).
        cbn [self model_checksums with_model_checksums] in Hck, Hsame.
        rewrite PyDictFacts.get_set_same in Hck.
        split; [rewrite Hsame, Hck; now rewrite PyDictFacts.get_set_same|].
        split; [|discriminate].
        intros expected' Hex. inversion Hex; subst expected'. eauto.
      * rewrite (load_cases _ _ Hchk) in Hs. cbn in Hs. discriminate.
    + cbn [ret] in Hchk. unfold ret in Hchk.
      rewrite (load_cases _ _ Hchk) in Hs. cbn in Hs. discriminate.
  - destruct (validate_model_file_machine rt config (loading config m))
      as (vevs & cks & Hm & _ & Hoff & _).
    destruct (Hoff Hreq) as (-> & ->).
    destruct (_validate_model_file rt config (loading config m)) as [[ok msg] m2] eqn:Hv.
    cbn [snd] in Hm. rewrite (load_cases _ _ Hv) in *.
    destruct ok; [|cbn in Hs; discriminate].
    destruct (attempt_loop_checksum _ _ _ _ Hs) as (Hck & _).
    destruct (attempt_loop_no_checksum rt config (time_time rt (world m))
                (range (retry_count config)) m2) as (Hsame & _).
    rewrite Hsame, Hck. subst m2. cbn.
    split; [reflexivity|]. split; [discriminate | reflexivity].
Qed.

(** *** Streaming the file through the hash *)



End OneLoadMore.

(** ** Reports: the health summary, the model info and re-registration *)

Section Reports.

Variables World Handle : Type.

Implicit Types (s : ModelLoader World Handle) (config : ModelConfig World Handle).

(** The verdict of [get_health_status], with the counts written out. *)
Lemma health_status_cases s :
  let loaded := sum_bools (map (is_model_loaded s) (keys (model_configs s))) in
  status (get_health_status s) =
  if (loaded =? len (model_configs s))%Z then "healthy"
  else
    match missing_required_of s (models_status_of s) with
    | _ :: _ => "unhealthy"
    | [] => if (loaded >? 0)%Z then "degraded" else "unhealthy"
    end.
Proof.
  cbv zeta. unfold get_health_status.
  assert (Hlen : len (models_status_of s) = len (model_configs s)).
  { unfold len, models_status_of, keys. now rewrite !length_map. }
  rewrite models_status_values, Hlen.
  destruct (_ =? _)%Z; [reflexivity|].
  destruct (missing_required_of s (models_status_of s)); [|reflexivity].
  destruct (_ >? _)%Z; reflexivity.
Qed.

Lemma sum_bools_missing (f : string -> bool) (l : list string) n :
  In n l -> f n = false -> sum_bools (map f l) <> Z.of_nat (List.length l).
Proof.
  intros Hin Hf Heq. rewrite <- (length_map f) in Heq.
  apply sum_bools_full with (b := f n) in Heq; [congruence|].
  now apply in_map.
Qed.

Lemma sum_bools_positive (f : string -> bool) (l : list string) n :
  In n l -> f n = true -> 0 < sum_bools (map f l).
Proof.
  induction l as [|x l IH]; cbn [In map sum_bools]; [tauto|].
  pose proof (sum_bools_bounds (map f l)) as Hb.
  intros [->|Hin] Hf.
  - rewrite Hf. cbn [Z.b2z]. lia.
  - specialize (IH Hin Hf). destruct (f x); cbn [Z.b2z]; lia.
Qed.

Lemma sum_bools_none (f : string -> bool) (l : list string) :
  (forall n, In n l -> f n = false) -> sum_bools (map f l) = 0.
Proof.
  induction l as [|x l IH]; cbn [In map sum_bools]; [reflexivity|].
  intros H. rewrite (H x (or_introl eq_refl)), IH; [reflexivity|].
  intros n Hn. apply H. now right.
Qed.

(** A registered name that is not loaded rules out "healthy". *)
Lemma not_loaded_not_healthy s n :
  mem (model_configs s) n = true -> is_model_loaded s n = false ->
  status (get_health_status s) <> "healthy".
Proof.
  intros Hreg Hload. rewrite health_status_cases. cbv zeta.
  apply PyDictFacts.In_keys_mem in Hreg.
  pose proof (sum_bools_missing (is_model_loaded s) _ _ Hreg Hload) as Hne.
  replace (Z.of_nat (List.length (keys (model_configs s)))) with (len (model_configs s)) in Hne
    by (unfold len, keys; now rewrite length_map).
  apply Z.eqb_neq in Hne. rewrite Hne.
  destruct (missing_required_of s (models_status_of s)); [|discriminate].
  destruct (_ >? _)%Z; discriminate.
Qed.


(** X11. [get_model_info] raises ValueError exactly for a name that is not
    registered, the names for which [get_model] raises its ValueError,
    and nothing else.  For a registered name the [loaded] entry is the
    answer of [is_model_loaded]; when it is [True] the status entry is
    "loaded" and [get_model] returns a handle.  With every config
    registered under its own name, the [name] entry is the name asked
    for. *)
Theorem model_info_agrees_with_lookup s n :
  ((exists msg, get_model_info s n = Raise (ValueError msg)) <->
   mem (model_configs s) n = false) /\
  ((exists msg, get_model_info s n = Raise (ValueError msg)) <->
   (exists msg, get_model s n = Raise (ValueError msg))) /\
  (mem (model_configs s) n = false ->
   get_model_info s n = Raise (ValueError ("Unknown model: " ++ n))) /\
  (forall e, get_model_info s n = Raise e -> exists msg, e = ValueError msg) /\
  (forall info, get_model_info s n = Ok info ->
     info_loaded info = is_model_loaded s n /\
     info_error info = get (model_errors s) n /\
     info_checksum info = get (model_checksums s) n /\
     (info_status info = "loaded" <-> get (model_status s) n = Some LOADED) /\
     (info_loaded info = true ->
        info_status info = "loaded" /\ exists h, get_model s n = Ok (Some h)) /\
     (keyed_by_name s -> info_name info = n)).
Proof.
  unfold get_model_info, get_model, mem.
  destruct (get (model_configs s) n) as [config|] eqn:Hcfg; cbn [negb].
  - split; [split; [intros (msg & H); discriminate | discriminate]|].
    split.
    { split; [intros (msg & H); discriminate|].
      intros (msg & H). destruct (get_default (models s) n None); discriminate. }
    split; [discriminate|]. split; [discriminate|].
    intros info Hinfo. inversion Hinfo; subst info; clear Hinfo.
    cbn [info_loaded info_error info_checksum info_status info_name].
    split; [reflexivity|]. split; [reflexivity|]. split; [reflexivity|].
    split; [|split].
    + unfold get_default.
      destruct (get (model_status s) n) as [[| | |]|]; cbn; split; congruence.
    + unfold is_model_loaded, get_default, mem.
      destruct (get (models s) n) as [[h|]|]; cbn; try discriminate.
      destruct (get (model_status s) n) as [[| | |]|]; cbn; try discriminate.
      intros _. eauto.
    + intros Hkeyed. apply (Hkeyed n config). now apply PyDictFacts.get_In.
  - split; [split; [reflexivity | eauto]|].
    split; [split; eauto|].
    split; [reflexivity|]. split; [|discriminate].
    intros e H. inversion H. eauto.
Qed.

(** X12. Registering again under the name of a model that is in service
    does not take the handle away: [get_model] goes on returning the
    handle of the old load, while [is_model_loaded] and the [loaded] entry
    of [get_model_info] answer [False], the status entry reads
    "not_loaded" and the health verdict is no longer "healthy". *)
Theorem reregistered_model_keeps_handle s config h :
  get_model s (name config) = Ok (Some h) ->
  let s' := register_model s config in
  get_model s' (name config) = Ok (Some h) /\
  is_model_loaded s' (name config) = false /\
  (exists info, get_model_info s' (name config) = Ok info /\
                info_status info = "not_loaded" /\ info_loaded info = false) /\
  status (get_health_status s') <> "healthy".
Proof.
  intros Hget. cbv zeta.
  assert (Hcfg : get (model_configs (register_model s config)) (name config) = Some config)
    by (unfold register_model; cbn; apply PyDictFacts.get_set_same).
  assert (Hst : get (model_status (register_model s config)) (name config) = Some NOT_LOADED)
    by (unfold register_model; cbn; apply PyDictFacts.get_set_same).
  assert (Hmodels : models (register_model s config) = models s) by reflexivity.
  assert (Hnot : is_model_loaded (register_model s config) (name config) = false).
  { unfold is_model_loaded. rewrite Hst. cbn. apply andb_false_r. }
  assert (Hreg : mem (model_configs (register_model s config)) (name config) = true)
    by (unfold mem; now rewrite Hcfg).
  split; [|split; [exact Hnot|split]].
  - unfold get_model in *. rewrite Hreg, Hmodels. cbn [negb].
    destruct (negb (mem (model_configs s) (name config))); [discriminate|].
    destruct (get_default (models s) (name config) None); [exact Hget | discriminate].
  - unfold get_model_info. rewrite Hcfg. eexists. split; [reflexivity|].
    cbn [info_status info_loaded]. unfold get_default. rewrite Hst, Hnot. auto.
  - exact (not_loaded_not_healthy _ _ Hreg Hnot).
Qed.

End Reports.

(** ** The load of all models, its results and the health report *)

Section AllLoadsMore.

Variables World Handle HashObj : Type.
Variable rt : Runtime World HashObj.

Implicit Types (m : Machine World Handle) (s : ModelLoader World Handle).
Implicit Types (config : ModelConfig World Handle).
Implicit Types (results : dict (ModelLoadResult Handle)).

Lemma is_model_loaded_frame s s' n :
  get (models s') n = get (models s) n ->
  get (model_status s') n = get (model_status s) n ->
  is_model_loaded s' n = is_model_loaded s n.
Proof. intros Hm Hs. unfold is_model_loaded, mem. now rewrite Hm, Hs. Qed.

Lemma get_of_In (V : Type) (d : dict V) k v :
  NoDup (keys d) -> In (k, v) d -> get d k = Some v.
Proof.
  induction d as [|[k' v'] d IH]; cbn [keys map fst In get]; [tauto|].
  intros Hnd [Heq|Hin].
  - inversion Heq; subst. now rewrite String.eqb_refl.
  - inversion Hnd as [|? ? Hnotin Hnd']; subst.
    destruct (String.eqb_spec k k') as [->|Hne].
    + exfalso. apply Hnotin. change (In k' (keys d)).
      unfold keys. apply in_map_iff. now exists (k', v).
    + now apply IH.
Qed.

(** Under [keyed_by_name] the names of the registered configs are the
    keys of the registry, in order. *)
Lemma keyed_names s :
  keyed_by_name s -> map (@name World Handle) (values (model_configs s)) = keys (model_configs s).
Proof.
  unfold keyed_by_name, values, keys, items.
  induction (model_configs s) as [|[k c] d IH]; intros H; cbn [map fst snd]; [reflexivity|].
  rewrite (H k c (or_introl eq_refl)). f_equal. apply IH.
  intros k' c' Hin. apply H. now right.
Qed.

(** A run of loads over configs with distinct names: the result map gets
    one entry per config, in the order of the run, and each entry agrees
    with what [is_model_loaded] answers at the end. *)
Lemma load_each_agrees (configs : list (ModelConfig World Handle)) :
  NoDup (map (@name World Handle) configs) ->
  forall results m,
    let run := load_each rt configs results m in
    ((forall n, In n (map (@name World Handle) configs) -> mem results n = false) ->
     keys (fst run) = (keys results ++ map (@name World Handle) configs)%list) /\
    (forall n, In n (map (@name World Handle) configs) ->
       exists r, get (fst run) n = Some r /\
                 success r = is_model_loaded (self (snd run)) n) /\
    (forall n, ~ In n (map (@name World Handle) configs) ->
       get (fst run) n = get results n /\
       is_model_loaded (self (snd run)) n = is_model_loaded (self m) n).
Proof.
  induction configs as [|config rest IH]; intros Hnd results m; cbv zeta.
  - cbn. split; [intros _; now rewrite app_nil_r|]. split; [tauto | auto].
  - cbn [map] in Hnd. inversion Hnd as [|? ? Hfresh Hnd']; subst.
    cbn [load_each]. unfold bind.
    pose proof (load_single_model_frame rt config m) as F.
    pose proof (load_single_model_flag rt config m) as Hflag.
    destruct (_load_single_model rt config m) as [r m1]. cbn [fst snd] in F, Hflag.
    destruct F as (_ & _ & _ & Hk & _).
    specialize (IH Hnd' (set results (name config) r) m1). cbv zeta in IH.
    destruct IH as (Hkeys & Hin & Hout).
    split; [|split].
    + intros Habsent. rewrite Hkeys.
      * rewrite PyDictFacts.keys_set_absent by (apply Habsent; now left).
        cbn [map]. now rewrite <- app_assoc.
      * intros n Hn. rewrite PyDictFacts.mem_set.
        rewrite (Habsent n (or_intror Hn)).
        destruct (String.eqb_spec (name config) n) as [<-|Hne]; [contradiction | reflexivity].
    + intros n [<-|Hn]; [|now apply Hin].
      destruct (Hout (name config) Hfresh) as (Hget & Hload).
      exists r. split.
      * rewrite Hget. apply PyDictFacts.get_set_same.
      * now rewrite Hload.
    + intros n Hn. cbn [map In] in Hn.
      assert (Hne : n <> name config) by (intros ->; apply Hn; now left).
      destruct (Hout n) as (Hget & Hload); [tauto|].
      destruct (Hk n Hne) as (Hmo & Hst & _).
      split.
      * rewrite Hget. now apply PyDictFacts.get_set_other, not_eq_sym.
      * rewrite Hload. now apply is_model_loaded_frame.
Qed.

(** Unless the pool is refused, the load phase is one run of loads over
    the registered configs, in some order, from a machine with the same
    loader state. *)
Lemma load_phase_run parallel max_workers completion m :
  pool_refused (self m) parallel max_workers = false ->
  exists configs m0,
    Permutation configs (values (model_configs (self m))) /\
    (parallel = false -> configs = values (model_configs (self m))) /\
    self m0 = self m /\
    load_phase rt parallel max_workers completion m =
    (Ok (fst (load_each rt configs empty m0)), snd (load_each rt configs empty m0)).
Proof.
  unfold pool_refused. intros H. rewrite load_phase_steps. cbv zeta.
  destruct (parallel && (1 <? len (model_configs (self m)))%Z)%bool eqn:Hpar;
    cbn [andb] in H.
  - rewrite H.
    refine (ex_intro _ _ (ex_intro _ _ (conj _ (conj _ (conj _ eq_refl))))).
    + apply as_completed_perm.
    + intros ->. discriminate Hpar.
    + cbn [self]. destruct (negb _); reflexivity.
  - refine (ex_intro _ _ (ex_intro _ _ (conj _ (conj _ (conj _ eq_refl))))).
    + apply Permutation_refl.
    + reflexivity.
    + destruct (negb _); reflexivity.
Qed.

(** The result map of the load phase against the state it leaves. *)
Lemma load_phase_results parallel max_workers completion m :
  keyed_by_name (self m) ->
  NoDup (keys (model_configs (self m))) ->
  pool_refused (self m) parallel max_workers = false ->
  let m1 := snd (load_phase rt parallel max_workers completion m) in
  exists results,
    fst (load_phase rt parallel max_workers completion m) = Ok results /\
    Permutation (keys results) (keys (model_configs (self m))) /\
    (parallel = false -> keys results = keys (model_configs (self m))) /\
    (forall n, mem (model_configs (self m)) n = true ->
       exists r, get results n = Some r /\ success r = is_model_loaded (self m1) n) /\
    model_configs (self m1) = model_configs (self m).
Proof.
  intros Hkeyed Hnd Hpool. cbv zeta.
  destruct (load_phase_registry rt parallel max_workers completion m) as (Hcfg & _).
  cbv zeta in Hcfg.
  destruct (load_phase_run parallel max_workers completion m Hpool)
    as (configs & m0 & Hperm & Hseq & Hself & Hrun).
  rewrite Hrun in *. cbn [fst snd] in *.
  assert (Hnames : Permutation (map (@name World Handle) configs)
                     (keys (model_configs (self m)))).
  { rewrite <- (keyed_names Hkeyed). now apply Permutation_map. }
  assert (Hnd' : NoDup (map (@name World Handle) configs))
    by (eapply Permutation_NoDup; [apply Permutation_sym; exact Hnames | exact Hnd]).
  destruct (@load_each_agrees configs Hnd' empty m0) as (Hkeys & Hin & _).
  cbv zeta in Hkeys, Hin.
  specialize (Hkeys (fun _ _ => eq_refl)). cbn [keys empty map app] in Hkeys.
  exists (fst (load_each rt configs empty m0)).
  split; [reflexivity|]. split; [|split; [|split]].
  - unfold keys in *. rewrite Hkeys. exact Hnames.
  - intros Hp. unfold keys in *. rewrite Hkeys, (Hseq Hp). now apply keyed_names.
  - intros n Hn. apply Hin. apply PyDictFacts.In_keys_mem in Hn.
    eapply Permutation_in; [apply Permutation_sym; exact Hnames | exact Hn].
  - exact Hcfg.
Qed.

Lemma loaded_count_eq s :
  loaded_count (get_health_status s) =
  sum_bools (map (is_model_loaded s) (keys (model_configs s))).
Proof.
  unfold get_health_status.
  set (verdict := if (_ =? _)%Z then _ else _).
  destruct verdict as [st msg]. cbn [loaded_count]. now rewrite models_status_values.
Qed.

(** On the runs in which every call of the platform answers: with every
    config registered under its own name, and unless the pool is refused,
    the result map the gate examines has exactly one entry per registered
    name (in registration order when the loads run sequentially), and the
    entry of a name is a success exactly when [is_model_loaded] answers
    [True] for it afterwards.  The registry itself is not changed. *)
Lemma load_all_results_match_state parallel max_workers completion m :
  keyed_by_name (self m) ->
  NoDup (keys (model_configs (self m))) ->
  pool_refused (self m) parallel max_workers = false ->
  let m' := snd (load_all_models rt parallel max_workers completion m) in
  exists results,
    fst (load_phase rt parallel max_workers completion m) = Ok results /\
    (forall out, fst (load_all_models rt parallel max_workers completion m) = Ok out ->
       out = results) /\
    Permutation (keys results) (keys (model_configs (self m))) /\
    (parallel = false -> keys results = keys (model_configs (self m))) /\
    (forall n, mem (model_configs (self m)) n = true ->
       exists r, get results n = Some r /\ success r = is_model_loaded (self m') n) /\
    model_configs (self m') = model_configs (self m).
Proof.
  intros Hkeyed Hnd Hpool. cbv zeta.
  destruct (@load_phase_results parallel max_workers completion m Hkeyed Hnd Hpool)
    as (results & Hr & Hperm & Hseq & Hagree & Hcfg).
  cbv zeta in Hagree, Hcfg.
  rewrite load_all_models_gate. cbv zeta. cbn [fst snd]. rewrite Hr.
  exists results. split; [reflexivity|]. split; [|auto].
  intros out Hout.
  destruct (_validate_required_models _ results); [|discriminate].
  now inversion Hout.
Qed.

(** On the runs in which every call of the platform answers: the
    verdict of [load_all_models] against the health report that follows
    it. *)
Lemma load_all_verdict_and_health parallel max_workers completion m :
  keyed_by_name (self m) ->
  NoDup (keys (model_configs (self m))) ->
  pool_refused (self m) parallel max_workers = false ->
  let out := fst (load_all_models rt parallel max_workers completion m) in
  let h := get_health_status
             (self (snd (load_all_models rt parallel max_workers completion m))) in
  ((exists results, out = Ok results) ->
     (status h = "healthy" \/ status h = "degraded") /\ 0 < loaded_count h) /\
  ((exists e, out = Raise e) -> model_configs (self m) <> [] ->
     status h = "unhealthy") /\
  (model_configs (self m) = [] ->
     out = Raise (RuntimeError no_models_msg) /\ status h = "healthy").
Proof.
  intros Hkeyed Hnd Hpool. cbv zeta.
  destruct (@load_phase_results parallel max_workers completion m Hkeyed Hnd Hpool)
    as (results & Hr & Hperm & _ & Hagree & Hcfg).
  cbv zeta in Hagree, Hcfg.
  rewrite load_all_models_gate. cbv zeta. cbn [fst snd]. rewrite Hr.
  set (s1 := self (snd (load_phase rt parallel max_workers completion m))) in *.
  rewrite loaded_count_eq, health_status_cases. cbv zeta.
  assert (Hlen : len (model_configs s1) = Z.of_nat (List.length (keys (model_configs s1))))
    by (unfold len, keys; now rewrite length_map).
  assert (Hndr : NoDup (keys results))
    by (eapply Permutation_NoDup; [apply Permutation_sym; exact Hperm | exact Hnd]).
  assert (Hflag : forall n r, In (n, r) results ->
            mem (model_configs s1) n = true /\ is_model_loaded s1 n = success r).
  { intros n r Hin.
    assert (Hreg : mem (model_configs (self m)) n = true).
    { apply PyDictFacts.In_keys_mem. eapply Permutation_in; [exact Hperm|].
      unfold keys. apply in_map_iff. now exists (n, r). }
    destruct (Hagree n Hreg) as (r' & Hget & Hs).
    rewrite (@get_of_In _ _ _ _ Hndr Hin) in Hget. inversion Hget; subst r'.
    rewrite Hcfg. auto. }
  assert (Hreq : forall n c, In (n, c) (items (model_configs s1)) ->
            success (get_default results n ModelLoadResult_False) = is_model_loaded s1 n).
  { intros n c Hin.
    assert (Hreg : mem (model_configs (self m)) n = true).
    { rewrite <- Hcfg. apply PyDictFacts.In_keys_mem.
      unfold keys. apply in_map_iff. now exists (n, c). }
    destruct (Hagree n Hreg) as (r & Hget & Hs).
    unfold get_default. now rewrite Hget. }
  assert (Hmiss : forall n, In n (missing_required_results s1 results) <->
                            In n (missing_required_of s1 (models_status_of s1))).
  { intros n. rewrite missing_required_results_spec, missing_required_of_spec.
    unfold required_failed.
    split; intros (c & Hin & Hrq & Hs); exists c; repeat split; auto;
      [rewrite <- (Hreq n c Hin) | rewrite (Hreq n c Hin)]; exact Hs. }
  unfold _validate_required_models.
  destruct (missing_required_results s1 results) as [|n0 rest] eqn:Emiss.
  - assert (Hnone : missing_required_of s1 (models_status_of s1) = []).
    { destruct (missing_required_of s1 (models_status_of s1)) as [|n1 l]; [reflexivity|].
      exfalso. apply (proj2 (Hmiss n1)). now left. }
    rewrite Hnone.
    destruct (existsb (@success Handle) (values results)) eqn:Ex; cbn [negb].
    + apply existsb_exists in Ex. destruct Ex as (r & Hin & Hs).
      unfold values in Hin. apply in_map_iff in Hin. destruct Hin as ([n r'] & <- & Hin).
      cbn [snd] in Hs. destruct (Hflag n r' Hin) as (Hreg & Hload).
      rewrite Hs in Hload. apply PyDictFacts.In_keys_mem in Hreg.
      pose proof (sum_bools_positive (is_model_loaded s1) _ _ Hreg Hload) as Hpos.
      split; [|split].
      * intros _. split; [|exact Hpos].
        destruct (_ =? _)%Z; [now left|].
        replace (_ >? 0)%Z with true by (symmetry; apply Z.gtb_lt; lia). now right.
      * intros (e & He). discriminate He.
      * intros Hempty. rewrite Hcfg, Hempty in Hreg. destruct Hreg.
    + assert (Hall : forall n, In n (keys (model_configs s1)) -> is_model_loaded s1 n = false).
      { intros n Hn. apply PyDictFacts.In_keys_mem in Hn. rewrite Hcfg in Hn.
        destruct (Hagree n Hn) as (r & Hget & Hs). rewrite <- Hs.
        apply no_success_spec in Ex. apply (Ex n r). now apply PyDictFacts.get_In. }
      pose proof (sum_bools_none (is_model_loaded s1) _ Hall) as Hzero.
      rewrite Hzero, Hlen.
      split; [|split].
      * intros (res & Hres). discriminate Hres.
      * intros _ Hne. rewrite <- Hcfg in Hne.
        destruct (model_configs s1) as [|kc d]; [congruence|]. reflexivity.
      * intros Hempty. rewrite <- Hcfg in Hempty. rewrite Hempty. auto.
  - assert (Hin0 : In n0 (missing_required_of s1 (models_status_of s1)))
      by (apply Hmiss; now left).
    pose proof Hin0 as Hspec. apply missing_required_of_spec in Hspec.
    destruct Hspec as (c & Hinc & _ & Hload).
    assert (Hk : In n0 (keys (model_configs s1)))
      by (unfold keys; apply in_map_iff; now exists (n0, c)).
    pose proof (sum_bools_missing (is_model_loaded s1) _ _ Hk Hload) as Hne.
    rewrite <- Hlen in Hne. apply Z.eqb_neq in Hne. rewrite Hne.
    destruct (missing_required_of s1 (models_status_of s1)) as [|n1 l]; [destruct Hin0|].
    split; [|split].
    + intros (res & Hres). discriminate Hres.
    + auto.
    + intros Hempty. rewrite <- Hcfg in Hempty. rewrite Hempty in Hinc. destruct Hinc.
Qed.

End AllLoadsMore.

(** ** The further theorems at work on the sample platform *)

Module MoreScenarios.

Import Sample.

(** An unsupported digest name ends the load before any loader call. *)
Lemma checksum_error_witness :
  let m := boot (registry [A_unknown_algorithm]) in
  let r := fst (_load_single_model rt A_unknown_algorithm m) in
  let m' := snd (_load_single_model rt A_unknown_algorithm m) in
  let msg := "Checksum validation failed: Unsupported hash algorithm: md5. Supported: sha256" in
  success r = false /\ error_message r = Some msg /\
  get (model_status (self m')) "A" = Some FAILED /\
  get (model_errors (self m')) "A" = Some msg /\
  model_checksums (self m') = model_checksums (self m) /\
  models (self m') = models (self m) /\
  trace m' = (trace m ++ [EvChecksum "a.bin" "md5"])%list.
Proof.
  cbv zeta.
  exact (proj1 (@checksum_error_is_terminal _ _ _ rt A_unknown_algorithm
                  (boot (registry [A_unknown_algorithm])) "ab3" eq_refl eq_refl)
               eq_refl).
Defined.

(** The digest of [a.bin] is reported and recorded as [hashlib] gave it,
    not as the config spelled it. *)
Lemma checksum_reported_witness :
  let m := boot (registry [A_required_valid]) in
  let r := fst (_load_single_model rt A_required_valid m) in
  let m' := snd (_load_single_model rt A_required_valid m) in
  checksum r = Some "AB3" /\ get (model_checksums (self m')) "A" = Some "AB3".
Proof.
  cbv zeta.
  destruct (@successful_load_reports_checksum _ _ _ rt A_required_valid
              (boot (registry [A_required_valid])) eq_refl) as (Hrec & Hon & _).
  destruct (Hon "ab3" eq_refl) as (actual & Hcalc & _ & Hck).
  vm_compute in Hcalc. inversion Hcalc; subst actual.
  split; [exact Hck|]. change "A" with (name A_required_valid).
  rewrite <- Hrec. exact Hck.
Defined.

(** A loaded optional model registered again as a required one. *)
Lemma reregistered_model_witness :
  let s := self (snd (_load_single_model rt A_optional_valid
                        (boot (registry [A_optional_valid])))) in
  let s' := register_model s A_required_valid in
  get_model s' "A" = Ok (Some 1%nat) /\
  is_model_loaded s' "A" = false /\
  status (get_health_status s') <> "healthy".
Proof.
  cbv zeta.
  destruct (@reregistered_model_keeps_handle _ _
              (self (snd (_load_single_model rt A_optional_valid
                            (boot (registry [A_optional_valid])))))
              A_required_valid 1%nat eq_refl) as (Hget & Hnot & _ & Hhealth).
  split; [exact Hget|]. split; [exact Hnot | exact Hhealth].
Defined.

End MoreScenarios.

(** ** The loader with exceptions: one load *)

Ltac unfold_exc :=
  unfold Exc.bind, Exc.ret, Exc.raise, Exc.lift, Exc.of_result, Exc.try_except in *.

Section ExcOneLoad.

Variables World Handle HashObj : Type.
Variable rt : Runtime World HashObj.
Variable fx : Faults World HashObj.

Implicit Types (m : Machine World Handle) (s : ModelLoader World Handle).
Implicit Types (config : ModelConfig World Handle).

(** *** Where the two layers agree *)

Lemma exc_validate_file_exists_calm (w : World) (p : Path) :
  exists_raises fx w p = None -> is_file_raises fx w p = None ->
  stat_raises fx w p = None ->
  Exc._validate_file_exists rt fx w p = Ok (_validate_file_exists rt w p).
Proof.
  intros He Hi Hs. unfold Exc._validate_file_exists, _validate_file_exists.
  rewrite He, Hi, Hs. unfold answer.
  destruct (path_exists rt w p); cbn [negb]; [|reflexivity].
  destruct (path_is_file rt w p); cbn [negb]; [|reflexivity].
  destruct (st_size rt w p =? 0)%Z; [reflexivity|].
  destruct (negb (os_access_R_OK rt w p)); reflexivity.
Qed.

Lemma exc_calculate_checksum_calm p algorithm chunk_size m :
  (forall h, hexdigest_raises fx h = None) ->
  Exc._calculate_checksum rt fx p algorithm chunk_size m =
  _calculate_checksum rt p algorithm chunk_size m.
Proof.
  intros Hh. unfold Exc._calculate_checksum, _calculate_checksum.
  unfold_exc. unfold_monad. cbn.
  destruct (hashlib_new rt algorithm); [|reflexivity].
  cbn. destruct (open_rb rt (world m) p); [reflexivity|].
  now rewrite Hh.
Qed.

Lemma exc_validate_checksum_calm p expected algorithm m :
  (forall h, hexdigest_raises fx h = None) ->
  Exc._validate_checksum rt fx p expected algorithm m =
  (Ok (fst (_validate_checksum rt p expected algorithm m)),
   snd (_validate_checksum rt p expected algorithm m)).
Proof.
  intros Hh. unfold Exc._validate_checksum, _validate_checksum.
  unfold Exc.try_except, Exc.bind at 1, bind.
  rewrite (exc_calculate_checksum_calm _ _ _ _ Hh).
  destruct (_calculate_checksum rt p algorithm default_chunk_size m) as [[actual|e] m1];
    [|reflexivity].
  unfold Exc.ret, ret. destruct (negb _); reflexivity.
Qed.

Lemma exc_validate_model_file_calm config m :
  exists_raises fx (world m) (path config) = None ->
  is_file_raises fx (world m) (path config) = None ->
  stat_raises fx (world m) (path config) = None ->
  (forall h, hexdigest_raises fx h = None) ->
  Exc._validate_model_file rt fx config m =
  (Ok (fst (_validate_model_file rt config m)), snd (_validate_model_file rt config m)).
Proof.
  intros He Hi Hs Hh. unfold Exc._validate_model_file, _validate_model_file.
  unfold_exc. unfold bind, gets.
  rewrite (exc_validate_file_exists_calm _ _ He Hi Hs).
  destruct (_validate_file_exists rt (world m) (path config)) as [ok msg].
  destruct ok; cbn [negb]; [|reflexivity].
  destruct (checksum_requested (self m) config) as [expected|]; [|reflexivity].
  pose proof (exc_validate_checksum_calm (path config) expected
                (checksum_algorithm config) m Hh) as Hv.
  unfold_exc. rewrite Hv.
  destruct (_validate_checksum rt (path config) expected (checksum_algorithm config) m)
    as [[[ok actual] msg'] m1].
  cbn [fst snd]. destruct ok; reflexivity.
Qed.

(** *** One round of the retry loop *)

Let loaded_machine config m (mdl : Handle) (w' : World)
    (tr : list (event Handle)) : Machine World Handle :=
  {| self :=
       with_model_errors
         (with_model_status
            (with_models (self m) (set (models (self m)) (name config) (Some mdl)))
            (set (model_status (self m)) (name config) LOADED))
         (pop (model_errors (self m)) (name config));
     world := w'; trace := tr |}.

Let failed_machine config m (e : string) (w' : World)
    (tr : list (event Handle)) : Machine World Handle :=
  {| self :=
       with_model_errors
         (with_model_status (self m) (set (model_status (self m)) (name config) FAILED))
         (set (model_errors (self m)) (name config) e);
     world := w'; trace := tr |}.

Lemma exc_attempt_loop_nil config start m :
  Exc.attempt_loop rt fx config start [] m =
  (Ok {| success := false; model := None;
         error_message := Some "Unknown error during loading";
         load_time := (time_time rt (world m) - start)%Q; checksum := None |}, m).
Proof. reflexivity. Qed.

Lemma exc_attempt_loop_step config start a rest m out w' :
  loader_func config (path config) (kwargs_or_empty (loader_kwargs config)) (world m)
    = (out, w') ->
  Exc.attempt_loop rt fx config start (a :: rest) m =
  let tr := (trace m ++ [EvLoaderCall (name config) a out])%list in
  match try_body out with
  | inr mdl =>
      (Ok {| success := true; model := Some mdl; error_message := None;
             load_time := (time_time rt w' - start)%Q;
             checksum := get (model_checksums (self m)) (name config) |},
       loaded_machine config m mdl w' tr)
  | inl e =>
      if (a =? retry_count config - 1)%Z then
        (Ok {| success := false; model := None; error_message := Some e;
               load_time := (time_time rt w' - start)%Q; checksum := None |},
         failed_machine config m e w' tr)
      else if (a <? 1024)%Z then
        match sleep_raises fx (wait_time a) w' with
        | Some ex => (Raise ex, {| self := self m; world := w'; trace := tr |})
        | None =>
            Exc.attempt_loop rt fx config start rest
              {| self := self m; world := time_sleep rt (wait_time a) w';
                 trace := (tr ++ [EvSleep (wait_time a)])%list |}
        end
      else
        (Raise (OverflowError "int too large to convert to float"),
         {| self := self m; world := w'; trace := tr |})
  end.
Proof.
  intros Hcall. cbn [Exc.attempt_loop]. unfold_exc. unfold_monad. rewrite Hcall.
  destruct (try_body out) as [e|mdl]; [|reflexivity].
  destruct (a =? retry_count config - 1)%Z; [reflexivity|].
  unfold Exc.wait_time, Exc.sleep. unfold_exc. unfold_monad.
  destruct (a <? 1024)%Z; [|reflexivity].
  cbn [world]. destruct (sleep_raises fx (wait_time a) w'); reflexivity.
Qed.

(** With a calm [time.sleep] and delays that are floats, the loop is the
    loop of the runs that return. *)
Lemma exc_attempt_loop_calm config start attempts :
  (forall q w, sleep_raises fx q w = None) ->
  (forall a, In a attempts -> a < 1024 \/ a = retry_count config - 1) ->
  forall m,
    Exc.attempt_loop rt fx config start attempts m =
    (Ok (fst (attempt_loop rt config start attempts m)),
     snd (attempt_loop rt config start attempts m)).
Proof.
  intros Hsleep. induction attempts as [|a rest IH]; intros Hb m.
  - reflexivity.
  - destruct (loader_func config (path config)
                (kwargs_or_empty (loader_kwargs config)) (world m))
      as [out w'] eqn:Hcall.
    rewrite exc_attempt_loop_step with (1 := Hcall).
    rewrite attempt_loop_step with (1 := Hcall). cbv zeta.
    destruct (try_body out) as [e|mdl]; [|reflexivity].
    destruct (a =? retry_count config - 1)%Z eqn:Hlast; [reflexivity|].
    apply Z.eqb_neq in Hlast.
    replace (a <? 1024)%Z with true
      by (symmetry; apply Z.ltb_lt; destruct (Hb a (or_introl eq_refl)); [lia | contradiction]).
    rewrite Hsleep. apply IH. intros a' Ha'. apply Hb. now right.
Qed.

Lemma range_bounded (R : Z) a :
  R <= 1025 -> In a (range R) -> a < 1024 \/ a = R - 1.
Proof.
  unfold range. intros HR Hin. apply in_map_iff in Hin.
  destruct Hin as (i & <- & Hi). apply in_seq in Hi. lia.
Qed.

(** The machine once the status has been set to LOADING. *)
Let loading config m : Machine World Handle :=
  {| self := with_model_status (self m)
               (set (model_status (self m)) (name config) LOADING);
     world := world m; trace := trace m |}.

(** [_load_single_model], by the outcome of the validation. *)
Lemma exc_load_cases config m :
  Exc._load_single_model rt fx config m =
  match Exc._validate_model_file rt fx config (loading config m) with
  | (Raise e, m2) => (Raise e, m2)
  | (Ok (true, _), m2) =>
      Exc.attempt_loop rt fx config (time_time rt (world m))
        (range (retry_count config)) m2
  | (Ok (false, msg), m2) =>
      (Ok {| success := false; model := None; error_message := Some msg;
             load_time := (time_time rt (world m2) - time_time rt (world m))%Q;
             checksum := None |},
       {| self :=
            with_model_errors
              (with_model_status (self m2)
                 (set (model_status (self m2)) (name config) FAILED))
              (set (model_errors (self m2)) (name config) msg);
          world := world m2; trace := trace m2 |})
  end.
Proof.
  unfold Exc._load_single_model. unfold_exc. unfold_monad. unfold modify_self.
  cbn [self world trace]. unfold loading.
  destruct (Exc._validate_model_file rt fx config _) as [[[ok msg]|e] m2]; [|reflexivity].
  destruct ok; reflexivity.
Qed.

(** A load on a calm platform with a bounded retry count is a load of
    the runs that return. *)
Lemma exc_load_single_model_calm config m :
  calm fx -> retry_count config <= 1025 ->
  Exc._load_single_model rt fx config m =
  (Ok (fst (_load_single_model rt config m)), snd (_load_single_model rt config m)).
Proof.
  intros (He & Hi & Hs & Hh & Hsl & _) HR.
  rewrite exc_load_cases.
  rewrite exc_validate_model_file_calm by auto.
  destruct (_validate_model_file rt config (loading config m)) as [[ok msg] m2] eqn:Hv.
  rewrite load_single_model_cases with (1 := Hv). cbn [fst snd].
  destruct ok; [|reflexivity].
  apply exc_attempt_loop_calm; [exact Hsl|]. intros a. now apply range_bounded.
Qed.

(** *** The validation, whatever the platform does *)

Lemma exc_calculate_checksum_machine p algorithm chunk_size m :
  snd (Exc._calculate_checksum rt fx p algorithm chunk_size m) =
  {| self := self m; world := world m;
     trace := (trace m ++ [EvChecksum p algorithm])%list |}.
Proof.
  unfold Exc._calculate_checksum. unfold_exc. unfold_monad. cbn.
  destruct (hashlib_new rt algorithm); [|reflexivity].
  cbn. destruct (open_rb rt (world m) p); [reflexivity|].
  destruct (hexdigest_raises fx _); reflexivity.
Qed.

Lemma exc_calculate_checksum_value p algorithm chunk_size m m' :
  world m' = world m ->
  fst (Exc._calculate_checksum rt fx p algorithm chunk_size m') =
  fst (Exc._calculate_checksum rt fx p algorithm chunk_size m).
Proof.
  intros Hw. unfold Exc._calculate_checksum. unfold_exc. unfold_monad. cbn.
  destruct (hashlib_new rt algorithm); [|reflexivity].
  cbn. rewrite Hw. destruct (open_rb rt (world m) p); [reflexivity|].
  destruct (hexdigest_raises fx _); reflexivity.
Qed.

(** [_validate_checksum] catches whatever the computation raises. *)
Lemma exc_validate_checksum_returns p expected algorithm m :
  exists v,
    Exc._validate_checksum rt fx p expected algorithm m =
    (Ok v, {| self := self m; world := world m;
              trace := (trace m ++ [EvChecksum p algorithm])%list |}).
Proof.
  unfold Exc._validate_checksum, Exc.try_except, Exc.bind.
  pose proof (exc_calculate_checksum_machine p algorithm default_chunk_size m) as H.
  destruct (Exc._calculate_checksum rt fx p algorithm default_chunk_size m) as [r m1].
  cbn [snd] in H. subst m1.
  destruct r as [actual|e]; unfold Exc.ret; [|eauto].
  destruct (negb _); eauto.
Qed.

Lemma exc_validate_checksum_value p expected algorithm m m' :
  world m' = world m ->
  fst (Exc._validate_checksum rt fx p expected algorithm m') =
  fst (Exc._validate_checksum rt fx p expected algorithm m).
Proof.
  intros Hw. unfold Exc._validate_checksum, Exc.try_except, Exc.bind.
  pose proof (exc_calculate_checksum_value p algorithm default_chunk_size m m' Hw) as H.
  destruct (Exc._calculate_checksum rt fx p algorithm default_chunk_size m') as [r1 m1].
  destruct (Exc._calculate_checksum rt fx p algorithm default_chunk_size m) as [r2 m2].
  cbn [fst] in H. subst r2.
  destruct r1 as [actual|e]; unfold Exc.ret; [|reflexivity].
  destruct (negb _); reflexivity.
Qed.

(** [_validate_model_file] reads the world, and writes at most the
    checksum of the name and one checksum event; when it raises it has
    written nothing. *)
Lemma exc_validate_model_file_machine config m :
  exists evs cks,
    snd (Exc._validate_model_file rt fx config m) =
      {| self := with_model_checksums (self m) cks; world := world m;
         trace := (trace m ++ evs)%list |} /\
    (evs = [] \/ evs = [EvChecksum (path config) (checksum_algorithm config)]) /\
    (forall k, k <> name config -> get cks k = get (model_checksums (self m)) k) /\
    (forall e, fst (Exc._validate_model_file rt fx config m) = Raise e ->
       evs = [] /\ cks = model_checksums (self m)).
Proof.
  unfold Exc._validate_model_file. unfold_exc. unfold gets.
  assert (Hsame : {| self := with_model_checksums (self m) (model_checksums (self m));
                     world := world m; trace := (trace m ++ [])%list |} = m)
    by (rewrite app_nil_r; destruct m as [[] w tr]; reflexivity).
  destruct (Exc._validate_file_exists rt fx (world m) (path config)) as [[ok msg]|e].
  2:{ exists [], (model_checksums (self m)). rewrite Hsame. auto. }
  destruct ok; cbn [negb].
  2:{ exists [], (model_checksums (self m)). rewrite Hsame.
      repeat split; auto; discriminate. }
  destruct (checksum_requested (self m) config) as [expected|].
  2:{ exists [], (model_checksums (self m)). rewrite Hsame.
      repeat split; auto; discriminate. }
  destruct (exc_validate_checksum_returns (path config) expected
              (checksum_algorithm config) m) as ([[ok actual] msg'] & Hv).
  unfold_exc. rewrite Hv.
  destruct ok; cbn [negb].
  - exists [EvChecksum (path config) (checksum_algorithm config)],
           (set (model_checksums (self m)) (name config) actual).
    unfold modify_self; cbn.
    repeat split; auto; try discriminate.
    intros k Hk. now apply PyDictFacts.get_set_other.
  - exists [EvChecksum (path config) (checksum_algorithm config)],
           (model_checksums (self m)).
    cbn. destruct m as [[] w tr]; cbn.
    repeat split; auto; discriminate.
Qed.

(** The verdict depends on the world and the checksum flag only. *)
Lemma exc_validate_model_file_value config m m' :
  world m' = world m ->
  validate_checksums (self m') = validate_checksums (self m) ->
  fst (Exc._validate_model_file rt fx config m') =
  fst (Exc._validate_model_file rt fx config m).
Proof.
  intros Hw Hf.
  unfold Exc._validate_model_file. unfold_exc. unfold gets. rewrite Hw.
  destruct (Exc._validate_file_exists rt fx (world m) (path config)) as [[ok msg]|e];
    [|reflexivity].
  destruct ok; cbn [negb]; [|reflexivity].
  replace (checksum_requested (self m') config)
    with (checksum_requested (self m) config)
    by (unfold checksum_requested; now rewrite Hf).
  destruct (checksum_requested (self m) config) as [expected|]; [|reflexivity].
  pose proof (exc_validate_checksum_value (path config) expected
                (checksum_algorithm config) m m' Hw) as Hv.
  destruct (exc_validate_checksum_returns (path config) expected
              (checksum_algorithm config) m) as ([[ok1 a1] e1] & H1).
  destruct (exc_validate_checksum_returns (path config) expected
              (checksum_algorithm config) m') as ([[ok2 a2] e2] & H2).
  unfold_exc. rewrite H1, H2 in *. cbn [fst] in Hv. inversion Hv; subst.
  destruct ok1; reflexivity.
Qed.

(** *** The frame of a load, whether it returns or raises *)

Lemma exc_attempt_loop_frame config start attempts :
  forall m,
    load_frame (name config) m (snd (Exc.attempt_loop rt fx config start attempts m)).
Proof.
  induction attempts as [|a rest IH]; intros m.
  - rewrite exc_attempt_loop_nil. apply load_frame_refl.
  - destruct (loader_func config (path config)
                (kwargs_or_empty (loader_kwargs config)) (world m))
      as [out w'] eqn:Hcall.
    rewrite exc_attempt_loop_step with (1 := Hcall). cbv zeta.
    assert (Hcalled : load_frame (name config) m
              {| self := self m; world := w';
                 trace := (trace m ++ [EvLoaderCall (name config) a out])%list |}).
    { unfold load_frame; cbn. repeat split; auto. eexists. split; reflexivity. }
    destruct (try_body out) as [e|mdl].
    + destruct (a =? retry_count config - 1)%Z.
      * cbn [snd]. unfold load_frame, failed_machine; cbn. repeat split; auto.
        -- now apply PyDictFacts.get_set_other.
        -- now apply PyDictFacts.get_set_other.
        -- eexists. split; reflexivity.
      * destruct (a <? 1024)%Z; [|exact Hcalled].
        destruct (sleep_raises fx (wait_time a) w'); [exact Hcalled|].
        eapply load_frame_trans; [|apply IH].
        unfold load_frame; cbn. repeat split; auto.
        eexists. rewrite <- app_assoc. split; reflexivity.
    + cbn [snd]. unfold load_frame, loaded_machine; cbn. repeat split; auto.
      * now apply PyDictFacts.get_set_other.
      * now apply PyDictFacts.get_set_other.
      * now apply PyDictFacts.get_pop_other.
      * eexists. split; reflexivity.
Qed.

Lemma exc_load_single_model_frame config m :
  load_frame (name config) m (snd (Exc._load_single_model rt fx config m)).
Proof.
  rewrite exc_load_cases.
  assert (F1 : load_frame (name config) m (loading config m)).
  { unfold load_frame, loading; cbn. repeat split; auto.
    - now apply PyDictFacts.get_set_other.
    - exists []. now rewrite app_nil_r. }
  destruct (exc_validate_model_file_machine config (loading config m))
    as (evs & cks & Hm & Hevs & Hcks & _).
  destruct (Exc._validate_model_file rt fx config (loading config m)) as [r m2].
  cbn [snd] in Hm.
  assert (F2 : load_frame (name config) (loading config m) m2).
  { subst m2. unfold load_frame; cbn. repeat split; auto.
    exists evs. split; auto. destruct Hevs as [->| ->]; reflexivity. }
  destruct r as [[ok msg]|e].
  - destruct ok.
    + eapply load_frame_trans; [exact F1|].
      eapply load_frame_trans; [exact F2|]. apply exc_attempt_loop_frame.
    + eapply load_frame_trans; [exact F1|].
      eapply load_frame_trans; [exact F2|].
      cbn [snd]. unfold load_frame; cbn. repeat split; auto.
      * now apply PyDictFacts.get_set_other.
      * now apply PyDictFacts.get_set_other.
      * exists []. now rewrite app_nil_r.
  - cbn [snd]. eapply load_frame_trans; [exact F1 | exact F2].
Qed.

(** *** A loader that keeps failing *)

Let call config (w : World) : loader_outcome Handle * World :=
  loader_func config (path config) (kwargs_or_empty (loader_kwargs config)) w.

Lemma persistent_failure_step config k n w :
  persistent_failure rt config k (S n) w =
  match n with
  | O => ([EvLoaderCall (name config) (Z.of_nat k) (fst (call config w))],
          snd (call config w))
  | S _ =>
      let rest := persistent_failure rt config (S k) n
                    (time_sleep rt (wait_time (Z.of_nat k)) (snd (call config w))) in
      (EvLoaderCall (name config) (Z.of_nat k) (fst (call config w)) ::
       EvSleep (wait_time (Z.of_nat k)) :: fst rest, snd rest)
  end.
Proof.
  cbn [persistent_failure]. unfold call.
  destruct (loader_func config (path config) (kwargs_or_empty (loader_kwargs config)) w)
    as [out w1].
  destruct n as [|n]; [reflexivity|]. cbn [fst snd].
  destruct (persistent_failure rt config (S k) (S n) _); reflexivity.
Qed.

(** The calls and the sleeps of [persistent_failure]: [n] calls numbered
    from [k], and a sleep of [0.5 * 2^i] after every call [i] but the
    last. *)
Lemma persistent_failure_shape config :
  forall n k w,
    let evs := fst (persistent_failure rt config k n w) in
    map fst (loader_calls evs) = map Z.of_nat (seq k n) /\
    sleeps evs = map wait_time (map Z.of_nat (seq k (n - 1))) /\
    checksum_runs evs = [] /\ executors evs = [].
Proof.
  induction n as [|n IH]; intros k w; cbv zeta.
  - cbn. auto.
  - rewrite persistent_failure_step. destruct n as [|n].
    + cbn. auto.
    + cbv zeta. cbn [fst].
      specialize (IH (S k)
        (time_sleep rt (wait_time (Z.of_nat k)) (snd (call config w)))).
      cbv zeta in IH. destruct IH as (Hc & Hs & Hk & He).
      cbn [loader_calls sleeps checksum_runs executors map fst].
      rewrite Hc, Hs, Hk, He.
      replace (S (S n) - 1)%nat with (S (S n - 1))%nat by lia.
      cbn [seq map]. auto.
Qed.

(** The retry loop from attempt [k] on with [S n] attempts left, under a
    loader that fails in every world, a [time.sleep] that answers and
    delays that are floats. *)
Lemma exc_attempt_loop_all_fail config start :
  (forall w, attempt_failed (fst (call config w))) ->
  retry_count config <= 1025 ->
  (forall i w, 0 <= i < retry_count config - 1 ->
     sleep_raises fx (wait_time i) w = None) ->
  forall n k m,
    Z.of_nat (k + S n) = retry_count config ->
    let run := persistent_failure rt config k (S n) (world m) in
    exists r m' front out e,
      Exc.attempt_loop rt fx config start (map Z.of_nat (seq k (S n))) m = (Ok r, m') /\
      trace m' = (trace m ++ fst run)%list /\
      world m' = snd run /\
      fst run = (front ++ [EvLoaderCall (name config) (retry_count config - 1) out])%list /\
      try_body out = inl e /\
      success r = false /\ model r = None /\ error_message r = Some e /\
      get (model_status (self m')) (name config) = Some FAILED /\
      get (model_errors (self m')) (name config) = Some e /\
      models (self m') = models (self m).
Proof.
  intros Hfail HR Hsleep. induction n as [|n IH]; intros k m Hk; cbv zeta.
  - cbn [seq map]. rewrite persistent_failure_step.
    destruct (call config (world m)) as [out w'] eqn:Hcall.
    unfold call in Hcall.
    rewrite exc_attempt_loop_step with (1 := Hcall). cbv zeta.
    pose proof (Hfail (world m)) as Hf. unfold call in Hf. rewrite Hcall in Hf.
    cbn [fst snd] in *.
    destruct (attempt_failed_text _ Hf) as (e & He). rewrite He.
    replace (Z.of_nat k =? retry_count config - 1)%Z with true
      by (symmetry; apply Z.eqb_eq; lia).
    eexists _, _, [], out, e. split; [reflexivity|]. cbn.
    replace (retry_count config - 1)%Z with (Z.of_nat k) by lia.
    repeat split; auto; apply PyDictFacts.get_set_same.
  - change (seq k (S (S n))) with (k :: seq (S k) (S n)). cbn [map].
    rewrite persistent_failure_step. cbv zeta.
    destruct (call config (world m)) as [out w'] eqn:Hcall.
    unfold call in Hcall.
    rewrite exc_attempt_loop_step with (1 := Hcall). cbv zeta.
    pose proof (Hfail (world m)) as Hf. unfold call in Hf. rewrite Hcall in Hf.
    cbn [fst snd] in *.
    destruct (attempt_failed_text _ Hf) as (e0 & He0). rewrite He0.
    replace (Z.of_nat k =? retry_count config - 1)%Z with false
      by (symmetry; apply Z.eqb_neq; lia).
    replace (Z.of_nat k <? 1024)%Z with true by (symmetry; apply Z.ltb_lt; lia).
    rewrite Hsleep by lia.
    specialize (IH (S k)
      {| self := self m; world := time_sleep rt (wait_time (Z.of_nat k)) w';
         trace := ((trace m ++ [EvLoaderCall (name config) (Z.of_nat k) out]) ++
                   [EvSleep (wait_time (Z.of_nat k))])%list |}).
    cbv zeta in IH. cbn [self world trace] in IH.
    destruct IH as (r & m' & front & out' & e & Hrun & Ht & Hw & Hlast & Hrest); [lia|].
    exists r, m',
      (EvLoaderCall (name config) (Z.of_nat k) out ::
       EvSleep (wait_time (Z.of_nat k)) :: front), out', e.
    split; [exact Hrun|].
    split; [rewrite Ht; rewrite <- !app_assoc; reflexivity|].
    split; [exact Hw|].
    split; [rewrite Hlast; reflexivity|].
    exact Hrest.
Qed.

(** C4, as the code has it. A config with [retry_count = R],
    [1 <= R <= 1025], whose validation passes and whose loader fails in
    every world (it raises an [Exception] or returns [None]; both count
    as a failed attempt), on a platform whose [time.sleep] accepts the
    delays: [_load_single_model] returns, the loader has been called
    exactly [R] times, attempts [0 .. R-1], each call on the world the
    previous call and sleep left; after every attempt [i] but the last the
    loop has slept [0.5 * 2^i] seconds before attempt [i + 1] (half a
    second first, then doubling); after the last attempt the status is
    FAILED and the error recorded and returned is the text that attempt
    raised ("Loader returned None" for a [None]). *)
Theorem persistent_failure_backoff config m msg :
  let R := retry_count config in
  let run := persistent_failure rt config 0 (Z.to_nat R) (world m) in
  fst (Exc._validate_model_file rt fx config m) = Ok (true, msg) ->
  1 <= R <= 1025 ->
  (forall w, attempt_failed
     (fst (loader_func config (path config)
             (kwargs_or_empty (loader_kwargs config)) w))) ->
  (forall i w, 0 <= i < R - 1 -> sleep_raises fx (wait_time i) w = None) ->
  exists r m' vevs front out,
    Exc._load_single_model rt fx config m = (Ok r, m') /\
    trace m' = (trace m ++ vevs ++ fst run)%list /\
    (vevs = [] \/ vevs = [EvChecksum (path config) (checksum_algorithm config)]) /\
    world m' = snd run /\
    List.length (loader_calls (fst run)) = Z.to_nat R /\
    map fst (loader_calls (fst run)) = range R /\
    sleeps (fst run) = map wait_time (range (R - 1)) /\
    fst run = (front ++ [EvLoaderCall (name config) (R - 1) out])%list /\
    match out with
    | Raised text => error_message r = Some text
    | Returned None => error_message r = Some "Loader returned None"
    | Returned (Some _) => False
    end /\
    success r = false /\ model r = None /\
    get (model_status (self m')) (name config) = Some FAILED /\
    get (model_errors (self m')) (name config) = error_message r /\
    models (self m') = models (self m) /\
    (wait_time 0 == 1 # 2)%Q /\
    (forall i, 0 <= i -> (wait_time (i + 1) == 2 * wait_time i)%Q).
Proof.
  intros R run Hvalid HR Hfail Hsleep. subst R run.
  rewrite exc_load_cases.
  rewrite <- (exc_validate_model_file_value config m (loading config m) eq_refl eq_refl)
    in Hvalid.
  destruct (exc_validate_model_file_machine config (loading config m))
    as (vevs & cks & Hm & Hvevs & _).
  destruct (Exc._validate_model_file rt fx config (loading config m)) as [v m2].
  cbn [fst snd] in Hvalid, Hm. subst v.
  destruct (Z.to_nat (retry_count config)) as [|n] eqn:Hn; [lia|].
  destruct (@exc_attempt_loop_all_fail config (time_time rt (world m)) Hfail
              (proj2 HR) Hsleep n 0%nat m2)
    as (r & m' & front & out & e & Hrun & Ht & Hw & Hlast & He & Hs & Hmd & Hmsg &
        Hst & Herr & Hmodels); [lia|].
  cbv zeta in Ht, Hw, Hlast.
  assert (Hw2 : world m2 = world m) by (subst m2; reflexivity).
  rewrite Hw2 in *.
  destruct (persistent_failure_shape config (S n) 0 (world m)) as (Hcalls & Hsleeps & _).
  exists r, m', vevs, front, out.
  split; [unfold range; rewrite Hn; exact Hrun|].
  split; [rewrite Ht; subst m2; cbn [trace loading]; now rewrite <- app_assoc|].
  split; [exact Hvevs|]. split; [exact Hw|].
  split; [rewrite <- (length_map fst), Hcalls, length_map, length_seq; reflexivity|].
  split; [unfold range; rewrite Hn; exact Hcalls|].
  split.
  { rewrite Hsleeps. unfold range.
    replace (Z.to_nat (retry_count config - 1)) with (S n - 1)%nat by lia. reflexivity. }
  split; [exact Hlast|].
  split.
  { rewrite Hmsg. destruct out as [[h|]|text]; cbn in He; inversion He; reflexivity. }
  split; [exact Hs|]. split; [exact Hmd|]. split; [exact Hst|].
  split; [now rewrite Herr, Hmsg|].
  split; [rewrite Hmodels; subst m2; reflexivity|].
  split; [reflexivity | apply wait_time_doubles].
Qed.

End ExcOneLoad.

(** ** The loader with exceptions: the load of all models *)

Section ExcAllLoads.

Variables World Handle HashObj : Type.
Variable rt : Runtime World HashObj.
Variable fx : Faults World HashObj.

Implicit Types (m : Machine World Handle) (s : ModelLoader World Handle).
Implicit Types (config : ModelConfig World Handle).
Implicit Types (results : dict (ModelLoadResult Handle)).

(** *** The directory check *)

Lemma exc_check_model_dir_frame m :
  let m0 := snd (Exc.check_model_dir rt fx m) in
  self m0 = self m /\
  (forall e, fst (Exc.check_model_dir rt fx m) = Raise e -> m0 = m) /\
  exists evs, trace m0 = (trace m ++ evs)%list /\
              executors evs = [] /\ loader_calls evs = [].
Proof.
  cbv zeta. unfold Exc.check_model_dir. unfold_exc. unfold_monad. unfold answer.
  assert (Hnil : exists evs, trace m = (trace m ++ evs)%list /\
                             executors evs = [] /\ loader_calls evs = [])
    by (exists []; now rewrite app_nil_r).
  destruct (exists_raises fx (world m) (model_dir (self m))); [cbn; auto|].
  destruct (path_exists rt (world m) (model_dir (self m))); cbn [negb]; [cbn; auto|].
  destruct (mkdir_raises fx (model_dir (self m)) (world m)); [cbn; auto|].
  cbn. split; [reflexivity|]. split; [discriminate|].
  exists [EvMkdir (model_dir (self m))]. auto.
Qed.

(** On a calm platform the check is the one of the runs that return. *)
Lemma exc_check_model_dir_calm m :
  calm fx ->
  Exc.check_model_dir rt fx m =
  (Ok tt,
   if negb (path_exists rt (world m) (model_dir (self m))) then
     {| self := self m; world := mkdir rt (model_dir (self m)) (world m);
        trace := (trace m ++ [EvMkdir (model_dir (self m))])%list |}
   else m).
Proof.
  intros (He & _ & _ & _ & _ & Hm).
  unfold Exc.check_model_dir. unfold_exc. unfold_monad. unfold answer.
  rewrite He. destruct (path_exists rt (world m) (model_dir (self m))); cbn [negb];
    [reflexivity|].
  rewrite Hm. reflexivity.
Qed.

(** *** The two ways of running the loads *)

Lemma exc_load_each_run (configs : list (ModelConfig World Handle)) :
  forall results m,
    sequential_run rt fx configs results m
      (fst (Exc.load_each rt fx configs results m))
      (snd (Exc.load_each rt fx configs results m)).
Proof.
  induction configs as [|config rest IH]; intros results m.
  - constructor.
  - cbn [Exc.load_each]. unfold Exc.bind.
    destruct (Exc._load_single_model rt fx config m) as [[r|e] m1] eqn:Hload.
    + eapply sequential_result; [exact Hload | apply IH].
    + cbn [fst snd]. now apply sequential_exception.
Qed.

Lemma exc_collect_results_run (configs : list (ModelConfig World Handle)) :
  forall results m,
    exists results',
      fst (Exc.collect_results rt fx configs results m) = Ok results' /\
      pooled_run rt fx configs results m results'
        (snd (Exc.collect_results rt fx configs results m)).
Proof.
  induction configs as [|config rest IH]; intros results m.
  - exists results. split; [reflexivity | constructor].
  - cbn [Exc.collect_results]. unfold Exc.bind, Exc.try_except.
    destruct (Exc._load_single_model rt fx config m) as [[r|e] m1] eqn:Hload.
    + destruct (IH (set results (name config) r) m1) as (results' & Hr & Hrun).
      exists results'. split; [exact Hr|].
      eapply pooled_result; [exact Hload | exact Hrun].
    + unfold Exc.ret, Exc.ModelLoadResult_exception.
      destruct (IH (set results (name config)
                      {| success := false; model := None;
                         error_message := Some (str_exn e);
                         load_time := 0%Q; checksum := None |}) m1)
        as (results' & Hr & Hrun).
      exists results'. split; [exact Hr|].
      eapply pooled_exception; [exact Hload | exact Hrun].
Qed.

(** A run of loads keeps the registry and creates no pool. *)
Lemma sequential_run_frame configs results m out m' :
  sequential_run rt fx configs results m out m' ->
  model_configs (self m') = model_configs (self m) /\
  exists evs, trace m' = (trace m ++ evs)%list /\ executors evs = [].
Proof.
  induction 1 as [results m | config rest results m r m1 out m' Hload _ IH
                  | config rest results m e m1 Hload].
  - split; [reflexivity|]. exists []. now rewrite app_nil_r.
  - pose proof (exc_load_single_model_frame rt fx config m) as F.
    rewrite Hload in F. cbn [snd] in F.
    destruct F as (_ & _ & Hc & _ & evs & Ht & He).
    destruct IH as (Hc' & evs' & Ht' & He').
    split; [congruence|].
    exists (evs ++ evs')%list. rewrite Ht', Ht, app_assoc, executors_app, He, He'. auto.
  - pose proof (exc_load_single_model_frame rt fx config m) as F.
    rewrite Hload in F. cbn [snd] in F.
    destruct F as (_ & _ & Hc & _ & evs & Ht & He). eauto.
Qed.

Lemma pooled_run_frame configs results m results' m' :
  pooled_run rt fx configs results m results' m' ->
  model_configs (self m') = model_configs (self m) /\
  exists evs, trace m' = (trace m ++ evs)%list /\ executors evs = [].
Proof.
  induction 1 as [results m | config rest results m r m1 results' m' Hload _ IH
                  | config rest results m e m1 results' m' Hload _ IH].
  - split; [reflexivity|]. exists []. now rewrite app_nil_r.
  - pose proof (exc_load_single_model_frame rt fx config m) as F.
    rewrite Hload in F. cbn [snd] in F.
    destruct F as (_ & _ & Hc & _ & evs & Ht & He).
    destruct IH as (Hc' & evs' & Ht' & He').
    split; [congruence|].
    exists (evs ++ evs')%list. rewrite Ht', Ht, app_assoc, executors_app, He, He'. auto.
  - pose proof (exc_load_single_model_frame rt fx config m) as F.
    rewrite Hload in F. cbn [snd] in F.
    destruct F as (_ & _ & Hc & _ & evs & Ht & He).
    destruct IH as (Hc' & evs' & Ht' & He').
    split; [congruence|].
    exists (evs ++ evs')%list. rewrite Ht', Ht, app_assoc, executors_app, He, He'. auto.
Qed.

(** A run of loads that comes to its end has put one result into the
    map for every config. *)
Lemma sequential_run_keys configs results m out m' :
  sequential_run rt fx configs results m out m' ->
  forall results', out = Ok results' ->
  forall n, In n (keys results') <->
            In n (keys results) \/ In n (map (@name World Handle) configs).
Proof.
  induction 1 as [results m | config rest results m r m1 out m' Hload _ IH
                  | config rest results m e m1 Hload]; intros results' Hout n.
  - inversion Hout; subst. cbn. tauto.
  - rewrite (IH _ Hout n), PyDictFacts.In_keys_set. cbn [map In].
    intuition congruence.
  - discriminate Hout.
Qed.

Lemma pooled_run_keys configs results m results' m' :
  pooled_run rt fx configs results m results' m' ->
  forall n, In n (keys results') <->
            In n (keys results) \/ In n (map (@name World Handle) configs).
Proof.
  induction 1 as [results m | config rest results m r m1 results' m' Hload _ IH
                  | config rest results m e m1 results' m' Hload _ IH]; intros n.
  - cbn. tauto.
  - rewrite (IH n), PyDictFacts.In_keys_set. cbn [map In]. intuition congruence.
  - rewrite (IH n), PyDictFacts.In_keys_set. cbn [map In]. intuition congruence.
Qed.

(** *** [load_all_models], step by step *)

Lemma exc_load_phase_steps parallel max_workers completion m :
  Exc.load_phase rt fx parallel max_workers completion m =
  match Exc.check_model_dir rt fx m with
  | (Raise e, m0) => (Raise e, m0)
  | (Ok _, m0) =>
      if (parallel && (1 <? len (model_configs (self m0)))%Z)%bool then
        if (executor_max_workers (self m0) max_workers <=? 0)%Z then
          (Raise (ValueError "max_workers must be greater than 0"), m0)
        else
          Exc.collect_results rt fx
            (as_completed completion (values (model_configs (self m0)))) empty
            {| self := self m0; world := world m0;
               trace := (trace m0 ++
                         [EvExecutor (executor_max_workers (self m0) max_workers)])%list |}
      else
        Exc.load_each rt fx (values (model_configs (self m0))) empty m0
  end.
Proof.
  unfold Exc.load_phase. unfold Exc.bind at 1.
  destruct (Exc.check_model_dir rt fx m) as [[[]|e] m0]; [|reflexivity].
  unfold_exc. unfold_monad. unfold ThreadPoolExecutor.
  destruct (parallel && (1 <? len (model_configs (self m0)))%Z)%bool; [|reflexivity].
  destruct (executor_max_workers (self m0) max_workers <=? 0)%Z; reflexivity.
Qed.

Lemma exc_load_all_models_steps parallel max_workers completion m :
  Exc.load_all_models rt fx parallel max_workers completion m =
  match Exc.load_phase rt fx parallel max_workers completion m with
  | (Raise e, m1) => (Raise e, m1)
  | (Ok results, m1) =>
      (match Exc._print_loading_summary (self m1) results with
       | Raise e => Raise e
       | Ok _ =>
           match _validate_required_models (self m1) results with
           | Raise e => Raise e
           | Ok _ => Ok results
           end
       end, m1)
  end.
Proof.
  unfold Exc.load_all_models. unfold Exc.bind at 1.
  destruct (Exc.load_phase rt fx parallel max_workers completion m) as [[results|e] m1];
    [|reflexivity].
  unfold_exc. unfold gets.
  destruct (Exc._print_loading_summary (self m1) results); [|reflexivity].
  destruct (_validate_required_models (self m1) results); reflexivity.
Qed.

(** The summary raises nothing when every result sits under a registered
    name. *)
Lemma print_loading_summary_registered s results :
  (forall n, In n (keys results) -> mem (model_configs s) n = true) ->
  Exc._print_loading_summary s results = Ok tt.
Proof.
  intros H. unfold Exc._print_loading_summary.
  destruct (find _ (keys results)) as [n|] eqn:E; [|reflexivity].
  apply find_some in E. destruct E as (Hin & Hneg).
  rewrite (H n Hin) in Hneg. discriminate.
Qed.

(** *** The gate after the loads *)

(** The summary and [_validate_required_models] on a result map whose
    names are registered. *)
Lemma gate_after_loads s s1 results :
  model_configs s1 = model_configs s ->
  (forall n, In n (keys results) -> mem (model_configs s) n = true) ->
  let out :=
    match Exc._print_loading_summary s1 results with
    | Raise e => Raise e
    | Ok _ =>
        match _validate_required_models s1 results with
        | Raise e => Raise e
        | Ok _ => Ok results
        end
    end in
  let missing := missing_required_results s results in
  let failing := required_failed s results in
  ((exists e, out = Raise e) <-> (exists n, failing n) \/ none_succeeded results) /\
  (forall n, In n missing <-> failing n) /\
  ((exists n, failing n) ->
     out = Raise (RuntimeError (critical_models_msg missing)) /\
     forall n, failing n -> PyStr.mentions (critical_models_msg missing) n) /\
  (~ (exists n, failing n) -> none_succeeded results ->
     out = Raise (RuntimeError no_models_msg)) /\
  critical_models_msg missing <> no_models_msg /\
  (~ (exists n, failing n) -> ~ none_succeeded results -> out = Ok results).
Proof.
  intros Hc Hreg. cbv zeta.
  rewrite print_loading_summary_registered by (now rewrite Hc).
  assert (Hmiss : missing_required_results s1 results = missing_required_results s results)
    by (unfold missing_required_results; now rewrite Hc).
  unfold _validate_required_models. rewrite Hmiss.
  pose proof (missing_required_results_spec s results) as Hspec.
  pose proof (no_success_spec results) as Hnone.
  destruct (missing_required_results s results) as [|n0 rest] eqn:Em.
  - assert (Hno : ~ exists n, required_failed s results n).
    { intros (n & Hn). apply Hspec in Hn. destruct Hn. }
    destruct (existsb (@success Handle) (values results)) eqn:Ex; cbn [negb].
    + assert (Hsome : ~ none_succeeded results)
        by (intros H; apply Hnone in H; discriminate).
      split; [split; [intros (e & He); discriminate | tauto]|].
      split; [exact Hspec|].
      split; [intros H; contradiction|].
      split; [intros _ H; contradiction|].
      split; [apply critical_msg_distinct|]. reflexivity.
    + assert (Hall : none_succeeded results) by (now apply Hnone).
      split; [split; [auto | eauto]|].
      split; [exact Hspec|].
      split; [intros H; contradiction|].
      split; [reflexivity|].
      split; [apply critical_msg_distinct|]. intros _ H; contradiction.
  - assert (Hyes : exists n, required_failed s results n).
    { exists n0. apply Hspec. now left. }
    split; [split; [auto | eauto]|].
    split; [exact Hspec|].
    split.
    { intros _. split; [reflexivity|].
      intros n Hn. apply Hspec in Hn.
      unfold critical_models_msg.
      apply (PyStrFacts.mentions_prepend "Critical models failed to load: ").
      apply PyStrFacts.mentions_append.
      now apply PyStrFacts.mentions_join. }
    split; [intros H; contradiction|].
    split; [apply critical_msg_distinct|]. intros H; contradiction.
Qed.

Lemma keyed_names_registered s :
  keyed_by_name s ->
  forall n, In n (map (@name World Handle) (values (model_configs s))) <->
            In n (keys (model_configs s)).
Proof.
  unfold keyed_by_name, values, keys, items.
  induction (model_configs s) as [|[k c] d IH]; intros H n; cbn [map fst snd In];
    [tauto|].
  rewrite (H k c (or_introl eq_refl)), IH; [tauto|].
  intros k' c' Hin. apply H. now right.
Qed.

Lemma as_completed_names (completion : list nat)
    (configs : list (ModelConfig World Handle)) n :
  In n (map (@name World Handle) (as_completed completion configs)) <->
  In n (map (@name World Handle) configs).
Proof.
  rewrite !in_map_iff. split; intros (c & Hn & Hin); exists c; split; auto;
    now apply (as_completed_In completion configs c).
Qed.

(** C2, as the code has it. [load_all_models] checks the model
    directory, runs the loads and then lets the gate decide.  An exception
    of the directory check, or the [ValueError] with which
    [ThreadPoolExecutor] refuses a pool size below one, comes out before
    any load.  In the sequential branch the loads run in registration
    order and the first exception that escapes from one of them comes out
    at once; in the pool every load runs, in completion order, and an
    exception of a load becomes an unsuccessful result.  When no such
    exception has come out, and every config is registered under its own
    name, every registered name has a result, and [load_all_models] raises
    exactly when some required registered model has an unsuccessful
    result, or when no result at all is a success.  In the first case the
    RuntimeError names every such model (and only those); in the second it
    is the different "No models loaded" RuntimeError; in every other case
    the result map is returned, failed optional models included. *)
Theorem gate_decides_unless_exception parallel max_workers completion m :
  keyed_by_name (self m) ->
  let configs := values (model_configs (self m)) in
  let pooled := (parallel && (1 <? len (model_configs (self m)))%Z)%bool in
  let W := executor_max_workers (self m) max_workers in
  let checked := Exc.check_model_dir rt fx m in
  let phase := Exc.load_phase rt fx parallel max_workers completion m in
  let out := fst (Exc.load_all_models rt fx parallel max_workers completion m) in
  let m' := snd (Exc.load_all_models rt fx parallel max_workers completion m) in
  (forall e, fst checked = Raise e -> out = Raise e /\ m' = m) /\
  (fst checked = Ok tt -> pooled = true -> W <= 0 ->
     out = Raise (ValueError "max_workers must be greater than 0") /\
     m' = snd checked) /\
  (fst checked = Ok tt -> pooled = true -> 0 < W ->
     exists results,
       fst phase = Ok results /\
       pooled_run rt fx (as_completed completion configs) empty
         {| self := self (snd checked); world := world (snd checked);
            trace := (trace (snd checked) ++ [EvExecutor W])%list |}
         results (snd phase)) /\
  (fst checked = Ok tt -> pooled = false ->
     sequential_run rt fx configs empty (snd checked) (fst phase) (snd phase)) /\
  (forall e, fst phase = Raise e -> out = Raise e /\ m' = snd phase) /\
  (forall results, fst phase = Ok results ->
     m' = snd phase /\
     (forall n, In n (keys results) <-> In n (keys (model_configs (self m)))) /\
     let missing := missing_required_results (self m) results in
     let failing := required_failed (self m) results in
     ((exists e, out = Raise e) <-> (exists n, failing n) \/ none_succeeded results) /\
     (forall n, In n missing <-> failing n) /\
     ((exists n, failing n) ->
        out = Raise (RuntimeError (critical_models_msg missing)) /\
        forall n, failing n -> PyStr.mentions (critical_models_msg missing) n) /\
     (~ (exists n, failing n) -> none_succeeded results ->
        out = Raise (RuntimeError no_models_msg)) /\
     critical_models_msg missing <> no_models_msg /\
     (~ (exists n, failing n) -> ~ none_succeeded results -> out = Ok results)).
Proof.
  intros Hkeyed. cbv zeta.
  destruct (exc_check_model_dir_frame m) as (Hs0 & Hraise0 & _). cbv zeta in Hs0, Hraise0.
  rewrite exc_load_all_models_steps, exc_load_phase_steps.
  destruct (Exc.check_model_dir rt fx m) as [[[]|e0] m0]; cbn [fst snd] in *.
  2:{ rewrite (Hraise0 e0 eq_refl). cbn [fst snd].
      split; [intros e He; inversion He; auto|].
      split; [intros H; discriminate H|]. split; [intros H; discriminate H|].
      split; [intros H; discriminate H|].
      split; [intros e He; inversion He; auto|]. intros results H; discriminate H. }
  rewrite Hs0.
  split; [intros e H; discriminate H|].
  destruct (parallel && (1 <? len (model_configs (self m)))%Z)%bool.
  - destruct (executor_max_workers (self m) max_workers <=? 0)%Z eqn:HW.
    + apply Z.leb_le in HW. cbn [fst snd].
      split; [auto|]. split; [intros _ _ H; lia|].
      split; [intros _ H; discriminate H|].
      split; [intros e He; inversion He; auto|]. intros results H; discriminate H.
    + apply Z.leb_gt in HW.
      set (mpool := {| self := self m; world := world m0;
                       trace := (trace m0 ++
                                 [EvExecutor (executor_max_workers (self m) max_workers)])%list |}).
      destruct (exc_collect_results_run
                  (as_completed completion (values (model_configs (self m)))) empty mpool)
        as (results & Hr & Hrun).
      destruct (Exc.collect_results rt fx _ empty mpool) as [r1 m1].
      cbn [fst snd] in *. subst r1.
      destruct (pooled_run_frame Hrun) as (Hc & _).
      change (model_configs (self mpool)) with (model_configs (self m)) in Hc.
      assert (Hkeys : forall n, In n (keys results) <-> In n (keys (model_configs (self m)))).
      { intros n. rewrite (pooled_run_keys Hrun n), as_completed_names.
        rewrite (keyed_names_registered Hkeyed). cbn. tauto. }
      split; [intros _ _ H; lia|].
      split; [intros _ _ _; exists results; split; [reflexivity | exact Hrun]|].
      split; [intros _ H; discriminate H|].
      split; [intros e H; discriminate H|].
      intros results' Heq. inversion Heq; subst results'; clear Heq.
      split; [reflexivity|]. split; [exact Hkeys|].
      apply gate_after_loads; [exact Hc|].
      intros n Hn. apply PyDictFacts.In_keys_mem. now apply Hkeys.
  - pose proof (exc_load_each_run (values (model_configs (self m))) empty m0) as Hrun.
    destruct (Exc.load_each rt fx (values (model_configs (self m))) empty m0) as [r1 m1].
    cbn [fst snd] in *.
    split; [intros _ H; discriminate H|]. split; [intros _ H; discriminate H|].
    split; [intros _ _; exact Hrun|].
    destruct (sequential_run_frame Hrun) as (Hc & _). rewrite Hs0 in Hc.
    destruct r1 as [results|e].
    + split; [intros e H; discriminate H|].
      intros results' Heq. inversion Heq; subst results'; clear Heq.
      assert (Hkeys : forall n, In n (keys results) <-> In n (keys (model_configs (self m)))).
      { intros n. rewrite (sequential_run_keys Hrun eq_refl n).
        rewrite (keyed_names_registered Hkeyed). cbn. tauto. }
      split; [reflexivity|]. split; [exact Hkeys|].
      apply gate_after_loads; [exact Hc|].
      intros n Hn. apply PyDictFacts.In_keys_mem. now apply Hkeys.
    + split; [intros e' He; inversion He; auto|]. intros results H; discriminate H.
Qed.

(** *** The worker pool *)

(** C7, as the code has it. Once the directory check has passed,
    [load_all_models] creates a pool only in the parallel branch (the flag
    is set and more than one model is registered), and then at most one:
    of size [min(N, 3)] for [N] registered models when [max_workers] is
    not supplied, and of exactly the supplied size otherwise, not capped
    by [N], when that is at least one.  A supplied size below one is
    refused by [ThreadPoolExecutor]: its ValueError comes out, no pool
    exists and no model is loaded. *)
Theorem pool_created_with_size parallel max_workers completion m :
  let N := len (model_configs (self m)) in
  let W := match max_workers with
           | None => Z.min N 3
           | Some W => W
           end in
  let checked := Exc.check_model_dir rt fx m in
  let run := Exc.load_all_models rt fx parallel max_workers completion m in
  exists evs,
    trace (snd run) = (trace m ++ evs)%list /\
    executors evs =
      match fst checked with
      | Raise _ => []
      | Ok _ => if (parallel && (1 <? N)%Z && (0 <? W)%Z)%bool then [W] else []
      end /\
    (fst checked = Ok tt -> parallel = true -> 1 < N -> W <= 0 ->
       fst run = Raise (ValueError "max_workers must be greater than 0") /\
       loader_calls evs = [] /\
       exists W', max_workers = Some W').
Proof.
  cbv zeta.
  destruct (exc_check_model_dir_frame m) as (Hs0 & Hraise0 & evs0 & Ht0 & He0 & Hl0).
  cbv zeta in Hs0, Hraise0, Ht0.
  rewrite exc_load_all_models_steps, exc_load_phase_steps.
  change (executor_max_workers (self m) max_workers)
    with (match max_workers with
          | None => Z.min (len (model_configs (self m))) 3
          | Some W => W
          end) in *.
  destruct (Exc.check_model_dir rt fx m) as [[[]|e0] m0]; cbn [fst snd] in *.
  2:{ exists evs0. split; [exact Ht0|]. split; [exact He0|]. intros H; discriminate H. }
  rewrite Hs0. unfold executor_max_workers.
  set (W := match max_workers with
            | None => Z.min (len (model_configs (self m))) 3
            | Some W => W
            end).
  destruct parallel; cbn [andb].
  - destruct (1 <? len (model_configs (self m)))%Z eqn:HN; cbn [andb].
    + apply Z.ltb_lt in HN.
      destruct (W <=? 0)%Z eqn:HW.
      * apply Z.leb_le in HW.
        replace (0 <? W)%Z with false by (symmetry; apply Z.ltb_ge; lia).
        exists evs0. cbn [fst snd]. split; [exact Ht0|]. split; [exact He0|].
        intros _ _ _ _. split; [reflexivity|]. split; [exact Hl0|].
        subst W. destruct max_workers as [W'|]; [eauto | lia].
      * apply Z.leb_gt in HW.
        replace (0 <? W)%Z with true by (symmetry; apply Z.ltb_lt; lia).
        set (mpool := {| self := self m; world := world m0;
                         trace := (trace m0 ++ [EvExecutor W])%list |}).
        destruct (exc_collect_results_run
                    (as_completed completion (values (model_configs (self m))))
                    empty mpool) as (results & Hr & Hrun).
        destruct (pooled_run_frame Hrun) as (_ & evs & Ht & He).
        destruct (Exc.collect_results rt fx _ empty mpool) as [r1 m1].
        cbn [fst snd] in *. subst r1. cbn [snd].
        exists (evs0 ++ [EvExecutor W] ++ evs)%list.
        rewrite Ht. cbn [trace mpool]. rewrite Ht0, <- !app_assoc.
        split; [reflexivity|].
        split; [rewrite !executors_app, He0, He; reflexivity|].
        intros _ _ _ H. lia.
    + apply Z.ltb_ge in HN.
      pose proof (exc_load_each_run (values (model_configs (self m))) empty m0)
        as Hrun.
      destruct (sequential_run_frame Hrun) as (_ & evs & Ht & He).
      destruct (Exc.load_each rt fx (values (model_configs (self m))) empty m0)
        as [[results|e] m1]; cbn [fst snd] in *;
        (exists (evs0 ++ evs)%list; rewrite Ht, Ht0, <- app_assoc;
         split; [reflexivity|]; split; [now rewrite executors_app, He0, He|];
         intros _ _ H; lia).
  - pose proof (exc_load_each_run (values (model_configs (self m))) empty m0)
      as Hrun.
    destruct (sequential_run_frame Hrun) as (_ & evs & Ht & He).
    destruct (Exc.load_each rt fx (values (model_configs (self m))) empty m0)
      as [[results|e] m1]; cbn [fst snd] in *;
      (exists (evs0 ++ evs)%list; rewrite Ht, Ht0, <- app_assoc;
       split; [reflexivity|]; split; [now rewrite executors_app, He0, He|];
       intros _ H; discriminate H).
Qed.

(** *** Where the two layers agree *)

Lemma exc_load_each_calm (configs : list (ModelConfig World Handle)) :
  calm fx -> (forall c, In c configs -> retry_count c <= 1025) ->
  forall results m,
    Exc.load_each rt fx configs results m =
    (Ok (fst (load_each rt configs results m)), snd (load_each rt configs results m)).
Proof.
  intros Hcalm. induction configs as [|config rest IH]; intros Hb results m.
  - reflexivity.
  - cbn [Exc.load_each load_each]. unfold Exc.bind, bind.
    rewrite (exc_load_single_model_calm rt config m Hcalm (Hb _ (or_introl eq_refl))).
    destruct (_load_single_model rt config m) as [r m1]. cbn [fst snd].
    apply IH. intros c Hc. apply Hb. now right.
Qed.

Lemma exc_collect_results_calm (configs : list (ModelConfig World Handle)) :
  calm fx -> (forall c, In c configs -> retry_count c <= 1025) ->
  forall results m,
    Exc.collect_results rt fx configs results m =
    (Ok (fst (load_each rt configs results m)), snd (load_each rt configs results m)).
Proof.
  intros Hcalm. induction configs as [|config rest IH]; intros Hb results m.
  - reflexivity.
  - cbn [Exc.collect_results load_each]. unfold Exc.bind, Exc.try_except, bind.
    rewrite (exc_load_single_model_calm rt config m Hcalm (Hb _ (or_introl eq_refl))).
    destruct (_load_single_model rt config m) as [r m1]. cbn [fst snd].
    apply IH. intros c Hc. apply Hb. now right.
Qed.

Lemma load_each_keys (configs : list (ModelConfig World Handle)) :
  forall results m n,
    In n (keys (fst (load_each rt configs results m))) ->
    In n (keys results) \/ In n (map (@name World Handle) configs).
Proof.
  induction configs as [|config rest IH]; intros results m n; [cbn; auto|].
  cbn [load_each]. unfold bind.
  destruct (_load_single_model rt config m) as [r m1].
  intros Hin. apply IH in Hin. rewrite PyDictFacts.In_keys_set in Hin.
  cbn [map In]. intuition congruence.
Qed.

Lemma retries_bounded_values s c :
  retries_bounded s -> In c (values (model_configs s)) -> retry_count c <= 1025.
Proof.
  intros Hb Hin. unfold values in Hin. apply in_map_iff in Hin.
  destruct Hin as ([k c'] & <- & Hin). exact (Hb k c' Hin).
Qed.

(** On a calm platform, with bounded retry counts, the load phase is the
    one of the runs that return. *)
Lemma exc_load_phase_calm parallel max_workers completion m :
  calm fx -> retries_bounded (self m) ->
  Exc.load_phase rt fx parallel max_workers completion m =
  load_phase rt parallel max_workers completion m.
Proof.
  intros Hcalm Hb.
  rewrite exc_load_phase_steps, load_phase_steps, (exc_check_model_dir_calm m Hcalm).
  cbv zeta.
  set (m0 := if negb (path_exists rt (world m) (model_dir (self m))) then _ else m).
  assert (Hs0 : self m0 = self m) by (subst m0; destruct (negb _); reflexivity).
  rewrite Hs0.
  destruct (parallel && (1 <? len (model_configs (self m)))%Z)%bool.
  - destruct (executor_max_workers (self m) max_workers <=? 0)%Z; [reflexivity|].
    rewrite exc_collect_results_calm; [reflexivity | exact Hcalm |].
    intros c Hc. apply (proj1 (as_completed_In completion _ c)) in Hc.
    apply retries_bounded_values with (s := self m); assumption.
  - apply exc_load_each_calm; [exact Hcalm|].
    intros c Hc. apply retries_bounded_values with (s := self m); assumption.
Qed.

(** And so is [load_all_models], for a registry whose configs sit under
    their own names. *)
Lemma exc_load_all_models_calm parallel max_workers completion m :
  calm fx -> retries_bounded (self m) -> keyed_by_name (self m) ->
  Exc.load_all_models rt fx parallel max_workers completion m =
  load_all_models rt parallel max_workers completion m.
Proof.
  intros Hcalm Hb Hkeyed.
  rewrite exc_load_all_models_steps, load_all_models_gate,
    (exc_load_phase_calm parallel max_workers completion m Hcalm Hb).
  cbv zeta.
  destruct (load_phase_registry rt parallel max_workers completion m) as (Hc & _).
  cbv zeta in Hc.
  pose proof (load_phase_steps rt parallel max_workers completion m) as Hsteps.
  cbv zeta in Hsteps.
  destruct (load_phase rt parallel max_workers completion m) as [[results|e] m1];
    cbn [fst snd] in *; [|reflexivity].
  rewrite print_loading_summary_registered; [reflexivity|].
  intros n Hn. rewrite Hc. apply PyDictFacts.In_keys_mem.
  apply (keyed_names_registered Hkeyed).
  set (m0 := if negb (path_exists rt (world m) (model_dir (self m))) then _ else m)
    in Hsteps.
  destruct (parallel && (1 <? len (model_configs (self m)))%Z)%bool.
  - destruct (executor_max_workers (self m) max_workers <=? 0)%Z; [discriminate Hsteps|].
    inversion Hsteps as [[Hr Hm]]. rewrite Hr in Hn.
    apply load_each_keys in Hn. destruct Hn as [[]|Hn].
    now apply as_completed_names in Hn.
  - inversion Hsteps as [[Hr Hm]]. rewrite Hr in Hn.
    apply load_each_keys in Hn. destruct Hn as [[]|Hn]. exact Hn.
Qed.

End ExcAllLoads.

(** ** The loader with exceptions: further properties *)

Section ExcMore.

Variables World Handle HashObj : Type.
Variable rt : Runtime World HashObj.
Variable fx : Faults World HashObj.

Implicit Types (m : Machine World Handle) (s : ModelLoader World Handle).
Implicit Types (config : ModelConfig World Handle).

(** X16. An exception of a file probe escapes from [_load_single_model]:
    when [path.exists()], [path.is_file()] or [path.stat()] raises, the
    load raises that exception instead of returning a result; the status
    of the name has been set to LOADING and stays so, no error is
    recorded for it, and nothing else has happened: no checksum, no
    loader call, no sleep. *)
Theorem probe_exception_escapes config m e :
  Exc._validate_file_exists rt fx (world m) (path config) = Raise e ->
  let run := Exc._load_single_model rt fx config m in
  fst run = Raise e /\
  get (model_status (self (snd run))) (name config) = Some LOADING /\
  (forall n, n <> name config ->
     get (model_status (self (snd run))) n = get (model_status (self m)) n) /\
  model_errors (self (snd run)) = model_errors (self m) /\
  models (self (snd run)) = models (self m) /\
  model_checksums (self (snd run)) = model_checksums (self m) /\
  world (snd run) = world m /\
  trace (snd run) = trace m.
Proof.
  intros Hprobe. cbv zeta. rewrite exc_load_cases.
  unfold Exc._validate_model_file. unfold_exc. unfold gets. cbn [world].
  rewrite Hprobe. cbn.
  split; [reflexivity|]. split; [apply PyDictFacts.get_set_same|].
  split; [intros n Hn; now apply PyDictFacts.get_set_other|]. auto.
Qed.


(** X13. The results of [load_all_models] and the loader's state agree.
    On a platform whose calls all answer, with retry counts of at most
    1025, every config registered under its own name, and a pool size
    that is not refused: the result map the gate examines has exactly one
    entry per registered name (in registration order when the loads run
    sequentially), and the entry of a name is a success exactly when
    [is_model_loaded] answers [True] for it afterwards, whether the gate
    then raises or not.  The registry itself is not changed. *)
Theorem calm_load_all_results_match_state parallel max_workers completion m :
  calm fx -> retries_bounded (self m) ->
  keyed_by_name (self m) ->
  NoDup (keys (model_configs (self m))) ->
  pool_refused (self m) parallel max_workers = false ->
  let m' := snd (Exc.load_all_models rt fx parallel max_workers completion m) in
  exists results,
    fst (Exc.load_phase rt fx parallel max_workers completion m) = Ok results /\
    (forall out,
       fst (Exc.load_all_models rt fx parallel max_workers completion m) = Ok out ->
       out = results) /\
    Permutation (keys results) (keys (model_configs (self m))) /\
    (parallel = false -> keys results = keys (model_configs (self m))) /\
    (forall n, mem (model_configs (self m)) n = true ->
       exists r, get results n = Some r /\ success r = is_model_loaded (self m') n) /\
    model_configs (self m') = model_configs (self m).
Proof.
  intros Hcalm Hb Hkeyed Hnd Hpool. cbv zeta.
  rewrite exc_load_all_models_calm by assumption.
  rewrite exc_load_phase_calm by assumption.
  exact (@load_all_results_match_state _ _ _ rt parallel max_workers completion m
           Hkeyed Hnd Hpool).
Qed.

(** X14. The verdict of [load_all_models] and the health report that
    follows it, under the same conditions: when [load_all_models]
    returns, the health verdict is "healthy" or "degraded" and at least
    one model counts as loaded; when it raises and some model is
    registered, the verdict is "unhealthy".  With no model registered at
    all, [load_all_models] raises the "No models loaded" error although
    the health verdict reads "healthy". *)
Theorem calm_load_all_verdict_and_health parallel max_workers completion m :
  calm fx -> retries_bounded (self m) ->
  keyed_by_name (self m) ->
  NoDup (keys (model_configs (self m))) ->
  pool_refused (self m) parallel max_workers = false ->
  let out := fst (Exc.load_all_models rt fx parallel max_workers completion m) in
  let h := get_health_status
             (self (snd (Exc.load_all_models rt fx parallel max_workers completion m))) in
  ((exists results, out = Ok results) ->
     (status h = "healthy" \/ status h = "degraded") /\ 0 < loaded_count h) /\
  ((exists e, out = Raise e) -> model_configs (self m) <> [] ->
     status h = "unhealthy") /\
  (model_configs (self m) = [] ->
     out = Raise (RuntimeError no_models_msg) /\ status h = "healthy").
Proof.
  intros Hcalm Hb Hkeyed Hnd Hpool. cbv zeta.
  rewrite exc_load_all_models_calm by assumption.
  exact (@load_all_verdict_and_health _ _ _ rt parallel max_workers completion m
           Hkeyed Hnd Hpool).
Qed.

(** X15. Under the same conditions on the platform, with every retry
    count between 1 and 1025, a [load_all_models] whose pool size is not
    refused leaves every registered name LOADED or FAILED, whether the
    gate then raises or not. *)
Theorem calm_statuses_settle parallel max_workers completion m :
  calm fx ->
  keyed_by_name (self m) ->
  (forall k c, In (k, c) (items (model_configs (self m))) ->
     1 <= retry_count c <= 1025) ->
  pool_refused (self m) parallel max_workers = false ->
  forall n, mem (model_configs (self m)) n = true ->
    settled (get (model_status
                    (self (snd (Exc.load_all_models rt fx parallel max_workers
                                  completion m))))
               n).
Proof.
  intros Hcalm Hkeyed HR Hpool n Hn.
  assert (Hb : retries_bounded (self m))
    by (intros k c Hin; apply (HR k c Hin)).
  rewrite exc_load_all_models_calm by assumption.
  apply statuses_settled_with_positive_retries; auto.
  intros k c Hin. apply (HR k c Hin).
Qed.

End ExcMore.

(** ** The loader with exceptions at work on the sample platform *)

Module ExcScenarios.

Import Sample.

Lemma no_faults_calm : calm no_faults.
Proof. repeat split. Qed.

Lemma sample_registry_keyed (configs : list (ModelConfig World Handle)) :
  keyed_by_name (registry configs).
Proof.
  unfold registry.
  assert (H : forall s, keyed_by_name s ->
                keyed_by_name (fold_left (@register_model World Handle) configs s)).
  { induction configs as [|c rest IH]; intros s Hs; [exact Hs|].
    cbn [fold_left]. apply IH. now apply register_model_keyed. }
  apply H. intros k c [].
Qed.

(** C4 at three attempts of a loader that always raises: three calls,
    with sleeps of 0.5 s and 1 s between them. *)
Lemma persistent_failure_backoff_witness :
  let m := boot (registry [A_failing]) in
  exists r m',
    Exc._load_single_model rt no_faults A_failing m = (Ok r, m') /\
    trace m' =
      [EvLoaderCall "A" 0 (Raised "out of memory"); EvSleep (1 # 2);
       EvLoaderCall "A" 1 (Raised "out of memory"); EvSleep (2 # 2);
       EvLoaderCall "A" 2 (Raised "out of memory")] /\
    world m' = 3%nat /\
    success r = false /\ error_message r = Some "out of memory" /\
    get (model_status (self m')) "A" = Some FAILED /\
    get (model_errors (self m')) "A" = Some "out of memory".
Proof.
  cbv zeta.
  destruct (@persistent_failure_backoff _ _ _ rt no_faults A_failing
              (boot (registry [A_failing])) "Validation passed")
    as (r & m' & vevs & front & out & Hrun & _).
  - reflexivity.
  - vm_compute. split; discriminate.
  - intros w. exact I.
  - intros i w _. reflexivity.
  - exists r, m'. split; [exact Hrun|].
    vm_compute in Hrun. inversion Hrun; subst r m'. repeat split.
Defined.

(** C4 as the specification words it fails: with [retry_count = 1026]
    the loader is called 1025 times, not 1026; the delay after attempt
    1024 cannot be computed, the [OverflowError] escapes from the
    [except] block, and the status is left LOADING with no error
    recorded. *)
Lemma backoff_overflows_at_1026_retries :
  let m := boot (registry [A_many_retries]) in
  let run := Exc._load_single_model rt no_faults A_many_retries m in
  retry_count A_many_retries = 1026 /\
  (forall w, attempt_failed
     (fst (loader_func A_many_retries (path A_many_retries)
             (kwargs_or_empty (loader_kwargs A_many_retries)) w))) /\
  fst (Exc._validate_model_file rt no_faults A_many_retries m)
    = Ok (true, "Validation passed") /\
  fst run = Raise (OverflowError "int too large to convert to float") /\
  List.length (loader_calls (trace (snd run))) = 1025%nat /\
  get (model_status (self (snd run))) "A" = Some LOADING /\
  get (model_errors (self (snd run))) "A" = None.
Proof.
  cbv zeta. split; [reflexivity|]. split; [intros w; exact I|].
  split; [reflexivity|].
  repeat split; vm_compute; reflexivity.
Qed.

(** C2 at a required model that loads and an optional one that is
    missing: every registered name has a result and the map is returned. *)
Lemma gate_decides_unless_exception_witness :
  let m := boot (registry [A_required_valid; B_optional_missing]) in
  exists results,
    fst (Exc.load_phase rt no_faults false None [] m) = Ok results /\
    fst (Exc.load_all_models rt no_faults false None [] m) = Ok results /\
    (forall n, In n (keys results) <-> In n ["A"; "B"]) /\
    option_map (@success Handle) (get results "A") = Some true /\
    option_map (@success Handle) (get results "B") = Some false.
Proof.
  cbv zeta.
  destruct (@gate_decides_unless_exception _ _ _ rt no_faults false None []
              (boot (registry [A_required_valid; B_optional_missing]))
              (sample_registry_keyed _))
    as (_ & _ & _ & _ & _ & Hgate).
  destruct (fst (Exc.load_phase rt no_faults false None []
                   (boot (registry [A_required_valid; B_optional_missing]))))
    as [results|e] eqn:Hr; [|vm_compute in Hr; discriminate Hr].
  destruct (Hgate results eq_refl) as (_ & Hkeys & _ & _ & _ & _ & _ & Hreturn).
  exists results. split; [reflexivity|].
  vm_compute in Hr. inversion Hr; subst results; clear Hr.
  split; [|split; [exact Hkeys | split; reflexivity]].
  apply Hreturn.
  - intros (n & c & Hin & Hreq & Hs).
    destruct Hin as [Hin|[Hin|[]]]; inversion Hin; subst; vm_compute in Hreq, Hs;
      discriminate.
  - intros Hnone. specialize (Hnone "A" _ (or_introl eq_refl)). discriminate.
Defined.

(** C2 as the specification words it fails: in parallel mode with two
    registered (optional, loadable) models and [max_workers = 0] supplied,
    [load_all_models] raises, and what it raises is neither of the two
    gate errors: the executor's ValueError, before any model is loaded. *)
Lemma refused_pool_raises_another_error :
  let m := boot (registry [A_optional_valid; B_optional_valid]) in
  let run := Exc.load_all_models rt no_faults true (Some 0) [] m in
  fst run = Raise (ValueError "max_workers must be greater than 0") /\
  (forall missing, fst run <> Raise (RuntimeError (critical_models_msg missing))) /\
  fst run <> Raise (RuntimeError no_models_msg) /\
  loader_calls (trace (snd run)) = [] /\
  executors (trace (snd run)) = [] /\
  model_status (self (snd run)) = [("A", NOT_LOADED); ("B", NOT_LOADED)].
Proof.
  cbv zeta.
  assert (E : fst (Exc.load_all_models rt no_faults true (Some 0) []
                     (boot (registry [A_optional_valid; B_optional_valid])))
              = Raise (ValueError "max_workers must be greater than 0"))
    by (vm_compute; reflexivity).
  rewrite E. repeat split; try discriminate; vm_compute; reflexivity.
Qed.

(** The same claim fails in sequential mode when a probe raises: the
    optional model [A] loads, the probe of [B]'s path raises, and
    [load_all_models] raises that [OSError], which is neither gate error,
    although no required model has failed and one model is loaded. *)
Example probe_exception_ends_sequential_loading :
  let m := boot (registry [A_optional_valid; B_long_name]) in
  let run := Exc.load_all_models rt long_name_faults false None [] m in
  fst run = Raise (OSError "[Errno 36] File name too long: 'long.bin'") /\
  is_model_loaded (self (snd run)) "A" = true /\
  get (model_status (self (snd run))) "B" = Some LOADING /\
  status (get_health_status (self (snd run))) = "degraded".
Proof. cbv zeta. repeat split; vm_compute; reflexivity. Qed.

(** Through the pool the same exception is caught: [load_all_models]
    returns, the result of [B] carries the text of the exception, and the
    status of [B] is left LOADING with no error recorded. *)
Example probe_exception_in_pool_leaves_loading :
  let m := boot (registry [A_optional_valid; B_long_name]) in
  let run := Exc.load_all_models rt long_name_faults true None [] m in
  (exists results,
     fst run = Ok results /\
     option_map (@error_message Handle) (get results "B")
       = Some (Some "[Errno 36] File name too long: 'long.bin'")) /\
  get (model_status (self (snd run))) "B" = Some LOADING /\
  get (model_errors (self (snd run))) "B" = None.
Proof.
  cbv zeta. split; [eexists; split; vm_compute; reflexivity|].
  split; vm_compute; reflexivity.
Qed.

(** C7 as the specification words it fails: with two registered models and
    [max_workers = 5] supplied, the pool is created with 5 workers, and
    [min(2, 5)] is 2. *)
Lemma supplied_max_workers_not_capped :
  let m := boot (registry [A_optional_valid; B_optional_valid]) in
  let N := len (model_configs (self m)) in
  let W := 5 in
  N = 2 /\
  executors (trace (snd (Exc.load_all_models rt no_faults true (Some W) [] m))) = [W] /\
  W <> Z.min N W.
Proof.
  cbv zeta. split; [reflexivity|]. split; [vm_compute; reflexivity|].
  vm_compute. discriminate.
Qed.

(** X16 at a path whose name the platform refuses. *)
Lemma probe_exception_witness :
  let m := boot (registry [B_long_name]) in
  let run := Exc._load_single_model rt long_name_faults B_long_name m in
  fst run = Raise (OSError "[Errno 36] File name too long: 'long.bin'") /\
  get (model_status (self (snd run))) "B" = Some LOADING /\
  model_errors (self (snd run)) = [] /\
  trace (snd run) = [].
Proof.
  cbv zeta.
  destruct (@probe_exception_escapes _ _ _ rt long_name_faults B_long_name
              (boot (registry [B_long_name]))
              (OSError "[Errno 36] File name too long: 'long.bin'") eq_refl)
    as (Hr & Hst & _ & He & _ & _ & _ & Ht).
  split; [exact Hr|]. split; [exact Hst|]. split; [exact He | exact Ht].
Defined.


(** A digest that wants a length: the checksum cannot be computed, and
    the load fails at the validation. *)
Example hexdigest_exception_fails_validation :
  let run := Exc._load_single_model rt shake_faults A_required_valid
               (boot (registry [A_required_valid])) in
  option_map (@error_message Handle)
    (match fst run with Ok r => Some r | Raise _ => None end) =
  Some (Some ("Checksum validation failed: Failed to calculate checksum: " ++
              "hexdigest() missing required argument 'length' (pos 1)")) /\
  loader_calls (trace (snd run)) = [].
Proof. cbv zeta. split; vm_compute; reflexivity. Qed.

(** X13 at two models loaded through the pool, the second one finishing
    first. *)
Lemma calm_load_all_results_witness :
  let m := boot (registry [A_required_valid; B_optional_missing]) in
  let m' := snd (Exc.load_all_models rt no_faults true None [1%nat] m) in
  exists results,
    fst (Exc.load_phase rt no_faults true None [1%nat] m) = Ok results /\
    Permutation (keys results) ["A"; "B"] /\
    (exists r, get results "A" = Some r /\ success r = is_model_loaded (self m') "A") /\
    (exists r, get results "B" = Some r /\ success r = is_model_loaded (self m') "B").
Proof.
  cbv zeta.
  destruct (@calm_load_all_results_match_state _ _ _ rt no_faults true None [1%nat]
              (boot (registry [A_required_valid; B_optional_missing])))
    as (results & Hr & _ & Hperm & _ & Hagree & _).
  - exact no_faults_calm.
  - intros k c [H|[H|[]]]; inversion H; subst; vm_compute; discriminate.
  - apply sample_registry_keyed.
  - repeat constructor; cbn; intuition discriminate.
  - reflexivity.
  - exists results. split; [exact Hr|]. split; [exact Hperm|].
    split; apply Hagree; reflexivity.
Defined.

(** X14 at a required model that loads beside a missing optional one,
    and at the empty registry. *)
Lemma calm_load_all_verdict_witness :
  let m := boot (registry [A_required_valid; B_optional_missing]) in
  let h := get_health_status
             (self (snd (Exc.load_all_models rt no_faults false None [] m))) in
  let h0 := get_health_status
              (self (snd (Exc.load_all_models rt no_faults false None [] (boot fresh)))) in
  ((status h = "healthy" \/ status h = "degraded") /\ 0 < loaded_count h) /\
  (fst (Exc.load_all_models rt no_faults false None [] (boot fresh))
     = Raise (RuntimeError no_models_msg) /\
   status h0 = "healthy").
Proof.
  cbv zeta. split.
  - apply (@calm_load_all_verdict_and_health _ _ _ rt no_faults false None []
             (boot (registry [A_required_valid; B_optional_missing]))).
    + exact no_faults_calm.
    + intros k c [H|[H|[]]]; inversion H; subst; vm_compute; discriminate.
    + apply sample_registry_keyed.
    + repeat constructor; cbn; intuition discriminate.
    + reflexivity.
    + vm_compute. eauto.
  - apply (@calm_load_all_verdict_and_health _ _ _ rt no_faults false None []
             (boot fresh)).
    + exact no_faults_calm.
    + intros k c [].
    + intros k c [].
    + constructor.
    + reflexivity.
    + reflexivity.
Defined.

(** X15 at two optional models, one of them missing. *)
Lemma calm_statuses_settle_witness :
  let m := boot (registry [A_optional_valid; B_optional_missing]) in
  let m' := snd (Exc.load_all_models rt no_faults true None [] m) in
  settled (get (model_status (self m')) "A") /\
  settled (get (model_status (self m')) "B").
Proof.
  cbv zeta.
  split;
    apply (@calm_statuses_settle _ _ _ rt no_faults true None []
             (boot (registry [A_optional_valid; B_optional_missing])));
    try reflexivity; try exact no_faults_calm; try apply sample_registry_keyed;
    intros k c [H|[H|[]]]; inversion H; subst; vm_compute; split; discriminate.
Defined.

End ExcScenarios.
